(** * Trump304: the game engine of the 304 card game, embedded and verified

    The definitions below follow the Python sources under
    [backend/lambda/game_logic] ([models.py], [deck.py], [bidding.py],
    [trump.py], [tricks.py], [game.py]) and [backend/lambda/_serialization.py].

    Conventions of the embedding:
    - Python integers are [Z]; [Optional[T]] is [option T].
    - A function that mutates the game takes the state and returns the new
      state next to its Python return value.
    - An uncaught Python exception (AttributeError on a missing player,
      ValueError of [list.remove] or [list.index], ...) is [None] in the
      option monad; an error the code returns, [(False, ...)], is a value.
    - The dictionaries [tricks_won] and [scores] (seat -> value) are [gmap]s;
      result and view dictionaries with string keys are association lists of
      JSON-like values, in insertion order.
    - Randomness ([random.shuffle], [random.choice], [uuid4], the clock) is
      injected as an argument. *)

From Stdlib Require Import ZArith Ascii String List Lia Permutation.
From Stdlib Require Import DecimalString DecimalZ.
From stdpp Require Import base option list gmap strings.

Local Open Scope Z_scope.

(** ** Python values carried by result, view and persistence dictionaries *)

#[warnings="-register-all"]
Inductive Value : Type :=
  | VNone
  | VBool (b : bool)
  | VInt (z : Z)
  | VStr (s : string)
  | VList (l : list Value)
  | VDict (d : list (string * Value))
  | VIntDict (d : list (Z * Value)).

Abbreviation Dict := (list (string * Value)).

Fixpoint dict_get (k : string) (d : Dict) : option Value :=
  match d with
  | [] => None
  | (k', v) :: d' => if String.eqb k k' then Some v else dict_get k d'
  end.

(** [d[k] = v]: overwrite in place, or append a new key. *)
Fixpoint dict_set (k : string) (v : Value) (d : Dict) : Dict :=
  match d with
  | [] => [(k, v)]
  | (k', v') :: d' =>
      if String.eqb k k' then (k, v) :: d' else (k', v') :: dict_set k v d'
  end.

(** [d.update(e)] *)
Definition dict_update (d e : Dict) : Dict :=
  fold_left (fun acc kv => dict_set kv.1 kv.2 acc) e d.

Definition dict_has (k : string) (d : Dict) : bool :=
  match dict_get k d with Some _ => true | None => false end.

(** Python truthiness, as used by [result.get("game_over")] and by the
    [x if item.get(k) else None] tests of the codec. *)
Definition truthy (v : Value) : bool :=
  match v with
  | VNone => false
  | VBool b => b
  | VInt z => negb (z =? 0)
  | VStr s => negb (String.eqb s "")
  | VList l => match l with [] => false | _ => true end
  | VDict d => match d with [] => false | _ => true end
  | VIntDict d => match d with [] => false | _ => true end
  end.

(** [d.get(k)], with [None] for a missing key. *)
Definition dict_get_default (k : string) (d : Dict) : Value :=
  default VNone (dict_get k d).

Definition opt_int (o : option Z) : Value :=
  match o with Some z => VInt z | None => VNone end.

Definition opt_str (o : option string) : Value :=
  match o with Some s => VStr s | None => VNone end.

(** [str(n)]: the decimal numeral of an integer. *)
Definition py_str (z : Z) : string := NilZero.string_of_int (Z.to_int z).

(** [int(s)] for a string of characters below 256.  Blanks around the
    numeral are skipped (the characters 9 to 13 and the space; beyond ASCII
    the Unicode blanks, here 133 and 160); one sign, [+] or [-], may precede
    the digits; single underscores may separate digits.  Anything else, and a
    numeral without a digit, is a ValueError.  Integers are unbounded: the
    interpreter's cap on the number of digits converted is not modelled. *)
Definition py_isspace (c : ascii) : bool :=
  let n := nat_of_ascii c in
  ((9 <=? n)%nat && (n <=? 13)%nat) || (n =? 32)%nat || (n =? 133)%nat
  || (n =? 160)%nat.

Definition digit_value (c : ascii) : option Z :=
  let n := nat_of_ascii c in
  if ((48 <=? n)%nat && (n <=? 57)%nat) then Some (Z.of_nat (n - 48)) else None.

Fixpoint lstrip (s : string) : string :=
  match s with
  | String c rest => if py_isspace c then lstrip rest else s
  | EmptyString => s
  end.

(** The digits of a numeral, read from the left into [acc]; [prev] tells
    whether the previous character was a digit ([Some true]), an underscore
    ([Some false]) or there was none.  The scan ends at the first character
    that is neither, and hands back what follows. *)
Fixpoint scan_digits (s : string) (acc : Z) (prev : option bool)
    : option (Z * string) :=
  match s with
  | String c rest =>
      match digit_value c with
      | Some d => scan_digits rest (10 * acc + d) (Some true)
      | None =>
          if Ascii.eqb c "_"
          then match prev with
               | Some true => scan_digits rest acc (Some false)
               | _ => None
               end
          else match prev with Some true => Some (acc, s) | _ => None end
      end
  | EmptyString => match prev with Some true => Some (acc, s) | _ => None end
  end.

Definition py_int_of_str (s : string) : option Z :=
  let s := lstrip s in
  let '(negative, s) :=
    match s with
    | String c rest =>
        if Ascii.eqb c "-" then (true, rest)
        else if Ascii.eqb c "+" then (false, rest)
        else (false, s)
    | EmptyString => (false, s)
    end in
  '(n, rest) ← scan_digits s 0 None;
  match lstrip rest with
  | EmptyString => Some (if negative then - n else n)
  | _ => None
  end.

(** [s.rsplit("_", 1)] unpacked into two names: the split is at the last
    underscore, and a string without one raises. *)
Fixpoint rsplit_underscore (s : string) : option (string * string) :=
  match s with
  | EmptyString => None
  | String ch rest =>
      match rsplit_underscore rest with
      | Some (l, r) => Some (String ch l, r)
      | None => if Ascii.eqb ch "_"%char then Some (EmptyString, rest) else None
      end
  end.

(** ** models.py *)

Inductive Suit := HEARTS | DIAMONDS | CLUBS | SPADES.
Inductive Rank := SEVEN | EIGHT | QUEEN | KING | TEN | ACE | NINE | JACK.

#[global] Instance Suit_eq_dec : EqDecision Suit.
Proof. solve_decision. Defined.
#[global] Instance Rank_eq_dec : EqDecision Rank.
Proof. solve_decision. Defined.

Definition all_suits : list Suit := [HEARTS; DIAMONDS; CLUBS; SPADES].
Definition all_ranks : list Rank :=
  [SEVEN; EIGHT; QUEEN; KING; TEN; ACE; NINE; JACK].

Definition Suit_value (s : Suit) : string :=
  match s with
  | HEARTS => "hearts" | DIAMONDS => "diamonds"
  | CLUBS => "clubs" | SPADES => "spades"
  end.

Definition Rank_value (r : Rank) : string :=
  match r with
  | SEVEN => "7" | EIGHT => "8" | QUEEN => "Q" | KING => "K"
  | TEN => "10" | ACE => "A" | NINE => "9" | JACK => "J"
  end.

(** [Suit(s)] and [Rank(s)]: the member with that value, or ValueError. *)
Definition Suit_of_value (s : string) : option Suit :=
  find (fun x => String.eqb (Suit_value x) s) all_suits.

Definition Rank_of_value (s : string) : option Rank :=
  find (fun x => String.eqb (Rank_value x) s) all_ranks.

Definition RANK_POINTS (r : Rank) : Z :=
  match r with
  | SEVEN => 0 | EIGHT => 0 | QUEEN => 2 | KING => 3
  | TEN => 10 | ACE => 11 | NINE => 20 | JACK => 30
  end.

Definition RANK_ORDER (r : Rank) : Z :=
  match r with
  | SEVEN => 0 | EIGHT => 1 | QUEEN => 2 | KING => 3
  | TEN => 4 | ACE => 5 | NINE => 6 | JACK => 7
  end.

Inductive GamePhase :=
  | WAITING | DEALING | BIDDING | TRUMP_SELECTION
  | CARD_EXCHANGE | PLAYING | SCORING.

#[global] Instance GamePhase_eq_dec : EqDecision GamePhase.
Proof. solve_decision. Defined.

Definition GamePhase_value (p : GamePhase) : string :=
  match p with
  | WAITING => "WAITING" | DEALING => "DEALING" | BIDDING => "BIDDING"
  | TRUMP_SELECTION => "TRUMP_SELECTION" | CARD_EXCHANGE => "CARD_EXCHANGE"
  | PLAYING => "PLAYING" | SCORING => "SCORING"
  end.

Definition GamePhase_of_value (s : string) : option GamePhase :=
  find (fun x => String.eqb (GamePhase_value x) s)
    [WAITING; DEALING; BIDDING; TRUMP_SELECTION; CARD_EXCHANGE; PLAYING; SCORING].

Module Card.
Record t := mk { suit : Suit; rank : Rank }.

Definition points (c : t) : Z := RANK_POINTS (rank c).
Definition order (c : t) : Z := RANK_ORDER (rank c).

Definition id (c : t) : string :=
  Rank_value (rank c) +:+ "_" +:+ Suit_value (suit c).

Definition from_id (card_id : string) : option t :=
  '(rank_str, suit_str) ← rsplit_underscore card_id;
  s ← Suit_of_value suit_str;
  r ← Rank_of_value rank_str;
  Some (mk s r).

Definition beats (self other : t) (trump_suit : option Suit)
    (trump_revealed : bool) (calling_suit : Suit) : bool :=
  let trump_decides : option bool :=
    if trump_revealed then
      match trump_suit with
      | Some ts =>
          if bool_decide (suit self = ts) && bool_decide (suit other ≠ ts)
          then Some true
          else if bool_decide (suit self ≠ ts) && bool_decide (suit other = ts)
          then Some false
          else None
      | None => None
      end
    else None in
  match trump_decides with
  | Some b => b
  | None =>
      if bool_decide (suit self = suit other) then
        if bool_decide (points self ≠ points other)
        then bool_decide (points self > points other)
        else bool_decide (order self > order other)
      else if bool_decide (suit other = calling_suit) then false
      else if bool_decide (suit self = calling_suit) then true
      else false
  end.
End Card.
Abbreviation Card := Card.t.

#[global] Instance Card_eq_dec : EqDecision Card.
Proof. solve_decision. Defined.

Module Player.
Record t := mk {
  player_id : string;
  name : string;
  seat : Z;
  connection_id : option string;
  hand : list Card
}.

Definition set_hand (h : list Card) (p : t) : t :=
  mk (player_id p) (name p) (seat p) (connection_id p) h.

Definition set_connection_id (c : option string) (p : t) : t :=
  mk (player_id p) (name p) (seat p) c (hand p).

Definition to_public_dict (p : t) : Dict :=
  [("player_id", VStr (player_id p)); ("name", VStr (name p));
   ("seat", VInt (seat p))].
End Player.
Abbreviation Player := Player.t.

Module Bid.
Record t := mk { seat : Z; amount : option Z }.

Definition to_dict (b : t) : Dict :=
  [("seat", VInt (seat b)); ("amount", opt_int (amount b))].
End Bid.
Abbreviation Bid := Bid.t.

Module TrickCard.
Record t := mk { seat : Z; card : Card }.

Definition to_dict (tc : t) : Dict :=
  [("seat", VInt (seat tc)); ("card", VStr (Card.id (card tc)))].
End TrickCard.
Abbreviation TrickCard := TrickCard.t.

#[global] Instance Bid_eq_dec : EqDecision Bid.
Proof. solve_decision. Defined.
#[global] Instance TrickCard_eq_dec : EqDecision TrickCard.
Proof. solve_decision. Defined.

(** The game record. Field order and names are those of the dataclass. *)
Record GameState := mkGameState {
  game_code : string;
  mode : Z;
  phase : GamePhase;
  players : list Player;
  dealer_seat : Z;
  deck : list Card;
  center_pile : list Card;
  bids : list Bid;
  current_bid : option Bid;
  bid_turn_seat : option Z;
  trumper_seat : option Z;
  trump_suit : option Suit;
  trump_card : option Card;
  trump_revealed : bool;
  exchange_done : bool;
  current_trick : list TrickCard;
  tricks_won : gmap Z (list Card);
  turn_seat : option Z;
  turn_deadline : option string;
  trick_number : Z;
  lead_seat : option Z;
  scores : gmap Z Z;
  games_played : Z;
  created_at : option string;
  ttl : option Z
}.

(** Assignments [state.f = v], one setter per assigned field. *)
Definition set_phase (v : GamePhase) (st : GameState) : GameState :=
  mkGameState (game_code st) (mode st) v (players st) (dealer_seat st) (deck
    st) (center_pile st) (bids st) (current_bid st) (bid_turn_seat st)
    (trumper_seat st) (trump_suit st) (trump_card st) (trump_revealed st)
    (exchange_done st) (current_trick st) (tricks_won st) (turn_seat st)
    (turn_deadline st) (trick_number st) (lead_seat st) (scores st)
    (games_played st) (created_at st) (ttl st).
Definition set_players (v : list Player) (st : GameState) : GameState :=
  mkGameState (game_code st) (mode st) (phase st) v (dealer_seat st) (deck
    st) (center_pile st) (bids st) (current_bid st) (bid_turn_seat st)
    (trumper_seat st) (trump_suit st) (trump_card st) (trump_revealed st)
    (exchange_done st) (current_trick st) (tricks_won st) (turn_seat st)
    (turn_deadline st) (trick_number st) (lead_seat st) (scores st)
    (games_played st) (created_at st) (ttl st).
Definition set_dealer_seat (v : Z) (st : GameState) : GameState :=
  mkGameState (game_code st) (mode st) (phase st) (players st) v (deck st)
    (center_pile st) (bids st) (current_bid st) (bid_turn_seat st)
    (trumper_seat st) (trump_suit st) (trump_card st) (trump_revealed st)
    (exchange_done st) (current_trick st) (tricks_won st) (turn_seat st)
    (turn_deadline st) (trick_number st) (lead_seat st) (scores st)
    (games_played st) (created_at st) (ttl st).
Definition set_deck (v : list Card) (st : GameState) : GameState :=
  mkGameState (game_code st) (mode st) (phase st) (players st) (dealer_seat
    st) v (center_pile st) (bids st) (current_bid st) (bid_turn_seat st)
    (trumper_seat st) (trump_suit st) (trump_card st) (trump_revealed st)
    (exchange_done st) (current_trick st) (tricks_won st) (turn_seat st)
    (turn_deadline st) (trick_number st) (lead_seat st) (scores st)
    (games_played st) (created_at st) (ttl st).
Definition set_center_pile (v : list Card) (st : GameState) : GameState :=
  mkGameState (game_code st) (mode st) (phase st) (players st) (dealer_seat
    st) (deck st) v (bids st) (current_bid st) (bid_turn_seat st)
    (trumper_seat st) (trump_suit st) (trump_card st) (trump_revealed st)
    (exchange_done st) (current_trick st) (tricks_won st) (turn_seat st)
    (turn_deadline st) (trick_number st) (lead_seat st) (scores st)
    (games_played st) (created_at st) (ttl st).
Definition set_bids (v : list Bid) (st : GameState) : GameState :=
  mkGameState (game_code st) (mode st) (phase st) (players st) (dealer_seat
    st) (deck st) (center_pile st) v (current_bid st) (bid_turn_seat st)
    (trumper_seat st) (trump_suit st) (trump_card st) (trump_revealed st)
    (exchange_done st) (current_trick st) (tricks_won st) (turn_seat st)
    (turn_deadline st) (trick_number st) (lead_seat st) (scores st)
    (games_played st) (created_at st) (ttl st).
Definition set_current_bid (v : option Bid) (st : GameState) : GameState :=
  mkGameState (game_code st) (mode st) (phase st) (players st) (dealer_seat
    st) (deck st) (center_pile st) (bids st) v (bid_turn_seat st)
    (trumper_seat st) (trump_suit st) (trump_card st) (trump_revealed st)
    (exchange_done st) (current_trick st) (tricks_won st) (turn_seat st)
    (turn_deadline st) (trick_number st) (lead_seat st) (scores st)
    (games_played st) (created_at st) (ttl st).
Definition set_bid_turn_seat (v : option Z) (st : GameState) : GameState :=
  mkGameState (game_code st) (mode st) (phase st) (players st) (dealer_seat
    st) (deck st) (center_pile st) (bids st) (current_bid st) v
    (trumper_seat st) (trump_suit st) (trump_card st) (trump_revealed st)
    (exchange_done st) (current_trick st) (tricks_won st) (turn_seat st)
    (turn_deadline st) (trick_number st) (lead_seat st) (scores st)
    (games_played st) (created_at st) (ttl st).
Definition set_trumper_seat (v : option Z) (st : GameState) : GameState :=
  mkGameState (game_code st) (mode st) (phase st) (players st) (dealer_seat
    st) (deck st) (center_pile st) (bids st) (current_bid st) (bid_turn_seat
    st) v (trump_suit st) (trump_card st) (trump_revealed st) (exchange_done
    st) (current_trick st) (tricks_won st) (turn_seat st) (turn_deadline st)
    (trick_number st) (lead_seat st) (scores st) (games_played st)
    (created_at st) (ttl st).
Definition set_trump_suit (v : option Suit) (st : GameState) : GameState :=
  mkGameState (game_code st) (mode st) (phase st) (players st) (dealer_seat
    st) (deck st) (center_pile st) (bids st) (current_bid st) (bid_turn_seat
    st) (trumper_seat st) v (trump_card st) (trump_revealed st)
    (exchange_done st) (current_trick st) (tricks_won st) (turn_seat st)
    (turn_deadline st) (trick_number st) (lead_seat st) (scores st)
    (games_played st) (created_at st) (ttl st).
Definition set_trump_card (v : option Card) (st : GameState) : GameState :=
  mkGameState (game_code st) (mode st) (phase st) (players st) (dealer_seat
    st) (deck st) (center_pile st) (bids st) (current_bid st) (bid_turn_seat
    st) (trumper_seat st) (trump_suit st) v (trump_revealed st)
    (exchange_done st) (current_trick st) (tricks_won st) (turn_seat st)
    (turn_deadline st) (trick_number st) (lead_seat st) (scores st)
    (games_played st) (created_at st) (ttl st).
Definition set_trump_revealed (v : bool) (st : GameState) : GameState :=
  mkGameState (game_code st) (mode st) (phase st) (players st) (dealer_seat
    st) (deck st) (center_pile st) (bids st) (current_bid st) (bid_turn_seat
    st) (trumper_seat st) (trump_suit st) (trump_card st) v (exchange_done
    st) (current_trick st) (tricks_won st) (turn_seat st) (turn_deadline st)
    (trick_number st) (lead_seat st) (scores st) (games_played st)
    (created_at st) (ttl st).
Definition set_exchange_done (v : bool) (st : GameState) : GameState :=
  mkGameState (game_code st) (mode st) (phase st) (players st) (dealer_seat
    st) (deck st) (center_pile st) (bids st) (current_bid st) (bid_turn_seat
    st) (trumper_seat st) (trump_suit st) (trump_card st) (trump_revealed
    st) v (current_trick st) (tricks_won st) (turn_seat st) (turn_deadline
    st) (trick_number st) (lead_seat st) (scores st) (games_played st)
    (created_at st) (ttl st).
Definition set_current_trick (v : list TrickCard) (st : GameState) : GameState :=
  mkGameState (game_code st) (mode st) (phase st) (players st) (dealer_seat
    st) (deck st) (center_pile st) (bids st) (current_bid st) (bid_turn_seat
    st) (trumper_seat st) (trump_suit st) (trump_card st) (trump_revealed
    st) (exchange_done st) v (tricks_won st) (turn_seat st) (turn_deadline
    st) (trick_number st) (lead_seat st) (scores st) (games_played st)
    (created_at st) (ttl st).
Definition set_tricks_won (v : gmap Z (list Card)) (st : GameState) : GameState :=
  mkGameState (game_code st) (mode st) (phase st) (players st) (dealer_seat
    st) (deck st) (center_pile st) (bids st) (current_bid st) (bid_turn_seat
    st) (trumper_seat st) (trump_suit st) (trump_card st) (trump_revealed
    st) (exchange_done st) (current_trick st) v (turn_seat st)
    (turn_deadline st) (trick_number st) (lead_seat st) (scores st)
    (games_played st) (created_at st) (ttl st).
Definition set_turn_seat (v : option Z) (st : GameState) : GameState :=
  mkGameState (game_code st) (mode st) (phase st) (players st) (dealer_seat
    st) (deck st) (center_pile st) (bids st) (current_bid st) (bid_turn_seat
    st) (trumper_seat st) (trump_suit st) (trump_card st) (trump_revealed
    st) (exchange_done st) (current_trick st) (tricks_won st) v
    (turn_deadline st) (trick_number st) (lead_seat st) (scores st)
    (games_played st) (created_at st) (ttl st).
Definition set_turn_deadline (v : option string) (st : GameState) : GameState :=
  mkGameState (game_code st) (mode st) (phase st) (players st) (dealer_seat
    st) (deck st) (center_pile st) (bids st) (current_bid st) (bid_turn_seat
    st) (trumper_seat st) (trump_suit st) (trump_card st) (trump_revealed
    st) (exchange_done st) (current_trick st) (tricks_won st) (turn_seat st)
    v (trick_number st) (lead_seat st) (scores st) (games_played st)
    (created_at st) (ttl st).
Definition set_trick_number (v : Z) (st : GameState) : GameState :=
  mkGameState (game_code st) (mode st) (phase st) (players st) (dealer_seat
    st) (deck st) (center_pile st) (bids st) (current_bid st) (bid_turn_seat
    st) (trumper_seat st) (trump_suit st) (trump_card st) (trump_revealed
    st) (exchange_done st) (current_trick st) (tricks_won st) (turn_seat st)
    (turn_deadline st) v (lead_seat st) (scores st) (games_played st)
    (created_at st) (ttl st).
Definition set_lead_seat (v : option Z) (st : GameState) : GameState :=
  mkGameState (game_code st) (mode st) (phase st) (players st) (dealer_seat
    st) (deck st) (center_pile st) (bids st) (current_bid st) (bid_turn_seat
    st) (trumper_seat st) (trump_suit st) (trump_card st) (trump_revealed
    st) (exchange_done st) (current_trick st) (tricks_won st) (turn_seat st)
    (turn_deadline st) (trick_number st) v (scores st) (games_played st)
    (created_at st) (ttl st).
Definition set_scores (v : gmap Z Z) (st : GameState) : GameState :=
  mkGameState (game_code st) (mode st) (phase st) (players st) (dealer_seat
    st) (deck st) (center_pile st) (bids st) (current_bid st) (bid_turn_seat
    st) (trumper_seat st) (trump_suit st) (trump_card st) (trump_revealed
    st) (exchange_done st) (current_trick st) (tricks_won st) (turn_seat st)
    (turn_deadline st) (trick_number st) (lead_seat st) v (games_played st)
    (created_at st) (ttl st).
Definition set_games_played (v : Z) (st : GameState) : GameState :=
  mkGameState (game_code st) (mode st) (phase st) (players st) (dealer_seat
    st) (deck st) (center_pile st) (bids st) (current_bid st) (bid_turn_seat
    st) (trumper_seat st) (trump_suit st) (trump_card st) (trump_revealed
    st) (exchange_done st) (current_trick st) (tricks_won st) (turn_seat st)
    (turn_deadline st) (trick_number st) (lead_seat st) (scores st) v
    (created_at st) (ttl st).

(** *** List helpers standing for Python built-ins *)

(** [sorted(l)] on integers. *)
Fixpoint insert_sorted (x : Z) (l : list Z) : list Z :=
  match l with
  | [] => [x]
  | y :: l' => if x <=? y then x :: l else y :: insert_sorted x l'
  end.

Definition sorted (l : list Z) : list Z := foldr insert_sorted [] l.

(** [l.index(x)]: position of the first occurrence, ValueError without one. *)
Fixpoint index_of (x : Z) (l : list Z) : option nat :=
  match l with
  | [] => None
  | y :: l' => if bool_decide (y = x) then Some O else S <$> index_of x l'
  end.

(** [l.remove(x)]: drops the first occurrence, ValueError without one. *)
Fixpoint list_remove_first (x : Card) (l : list Card) : option (list Card) :=
  match l with
  | [] => None
  | y :: l' =>
      if bool_decide (y = x) then Some l'
      else (y ::.) <$> list_remove_first x l'
  end.

(** [l[a:b]] for [0 <= a <= b]. *)
Definition slice {A} (l : list A) (a b : nat) : list A := take (b - a) (drop a l).

(** [max(l)] of a non-empty list. *)
Definition py_max (x : Z) (l : list Z) : Z := foldl Z.max x l.

Definition sum_points (l : list Card) : Z := foldr (fun c acc => Card.points c + acc) 0 l.

(** [random.choice(l)] with the random index injected; [l] is non-empty at
    every call. *)
Definition random_choice {A} (r : nat) (l : list A) : option A :=
  l !! (r mod length l)%nat.

(** *** Methods of [GameState] *)

Definition get_player_by_seat (st : GameState) (seat : Z) : option Player :=
  find (fun p => bool_decide (Player.seat p = seat)) (players st).

Definition get_player_by_id (st : GameState) (pid : string) : option Player :=
  find (fun p => String.eqb (Player.player_id p) pid) (players st).

Definition next_seat (st : GameState) (seat : Z) : option Z :=
  let seats := sorted (map Player.seat (players st)) in
  idx ← index_of seat seats;
  seats !! ((idx + 1) mod length seats)%nat.

Definition get_team (st : GameState) (seat : Z) : list Z :=
  if bool_decide (mode st = 4) then
    let partner := (seat + 2) mod 4 in
    [seat; partner]
  else
    match trumper_seat st with
    | Some ts =>
        if bool_decide (mode st = 3) then
          if bool_decide (seat = ts) then [seat]
          else filter (fun s => s ≠ ts) [0; 1; 2]
        else [seat]
    | None => [seat]
    end.

Definition get_trumper_team_seats (st : GameState) : list Z :=
  match trumper_seat st with
  | None => []
  | Some ts => get_team st ts
  end.

Definition get_opposing_team_seats (st : GameState) : list Z :=
  match trumper_seat st with
  | None => []
  | Some _ =>
      let trumper_team := get_trumper_team_seats st in
      filter (fun s => s ∉ trumper_team) (map Player.seat (players st))
  end.

(** The player object found by [get_player_by_seat] is mutated in place:
    the first player at that seat gets hand [g hand].  A missing player is
    an AttributeError, and [g] may raise as well. *)
Fixpoint update_hand (seat : Z) (g : list Card → option (list Card))
    (ps : list Player) : option (list Player) :=
  match ps with
  | [] => None
  | p :: ps' =>
      if bool_decide (Player.seat p = seat)
      then h ← g (Player.hand p); Some (Player.set_hand h p :: ps')
      else (p ::.) <$> update_hand seat g ps'
  end.

(** [get_player_by_seat(seat).hand.extend(cards)] *)
Definition hand_extend (seat : Z) (cards : list Card) (st : GameState)
    : option GameState :=
  ps ← update_hand seat (fun h => Some (h ++ cards)) (players st);
  Some (set_players ps st).

(** [get_player_by_seat(seat).hand.remove(card)] *)
Definition hand_remove (seat : Z) (card : Card) (st : GameState)
    : option GameState :=
  ps ← update_hand seat (list_remove_first card) (players st);
  Some (set_players ps st).

(** ** deck.py *)

Definition create_deck : list Card :=
  s ← all_suits; r ← all_ranks; [Card.mk s r].

(** One batch of [batch_size] cards to every seat of [deal_order]. *)
Fixpoint deal_batch (dk : list Card) (batch_size : nat) (deal_order : list Z)
    (st : GameState) (card_idx : nat) : option (GameState * nat) :=
  match deal_order with
  | [] => Some (st, card_idx)
  | seat :: rest =>
      st' ← hand_extend seat (slice dk card_idx (card_idx + batch_size)) st;
      deal_batch dk batch_size rest st' (card_idx + batch_size)%nat
  end.

Fixpoint deal_rounds (dk : list Card) (batches : list nat) (deal_order : list Z)
    (st : GameState) (card_idx : nat) : option (GameState * nat) :=
  match batches with
  | [] => Some (st, card_idx)
  | b :: bs =>
      '(st', idx') ← deal_batch dk b deal_order st card_idx;
      deal_rounds dk bs deal_order st' idx'
  end.

(** [deal(state)]; [shuffled] is [shuffle_deck(create_deck())]. *)
Definition deal (shuffled : list Card) (st : GameState) : option GameState :=
  let dk := shuffled in
  let num_players := length (players st) in
  let seats := sorted (map Player.seat (players st)) in
  let st := set_players (map (Player.set_hand []) (players st)) st in
  let st := set_center_pile [] st in
  dealer_idx ← index_of (dealer_seat st) seats;
  deal_order ← mapM (fun i => seats !! ((dealer_idx + 1 + i) mod num_players)%nat)
                    (seq 0 num_players);
  st ← (if bool_decide (mode st = 2) then
          '(st, card_idx) ← deal_rounds dk [4; 4; 2]%nat deal_order st 0%nat;
          Some (set_center_pile (drop card_idx dk) st)
        else if bool_decide (mode st = 3) then
          '(st, card_idx) ← deal_rounds dk [4; 4; 2]%nat deal_order st 0%nat;
          Some (set_center_pile (drop card_idx dk) st)
        else if bool_decide (mode st = 4) then
          '(st, _) ← deal_rounds dk [4; 4]%nat deal_order st 0%nat;
          Some st
        else Some st);
  Some (set_deck [] st).

(** ** bidding.py *)

Definition MIN_BID : Z := 150.
Definition MAX_BID : Z := 304.
Definition BID_STEP : Z := 10.
Definition SPECIAL_BID_THRESHOLD : Z := 200.

Definition start_bidding (st : GameState) : option GameState :=
  let st := set_phase BIDDING st in
  let st := set_bids [] st in
  let st := set_current_bid None st in
  nxt ← next_seat st (dealer_seat st);
  Some (set_bid_turn_seat (Some nxt) st).

Definition get_partner_seat (st : GameState) (seat : Z) : option Z :=
  if bool_decide (mode st ≠ 4) then None else Some ((seat + 2) mod 4).

Definition _player_has_bid (st : GameState) (seat : Z) : bool :=
  existsb (fun b => bool_decide (Bid.seat b = seat)) (bids st).

Definition bid_amounts (bs : list Bid) : list Z :=
  omap Bid.amount bs.

Definition _highest_bid_amount (st : GameState) : Z :=
  match bid_amounts (bids st) with
  | [] => 0
  | a :: amounts => py_max a amounts
  end.

Definition amount_at_least (b : Bid) (n : Z) : bool :=
  match Bid.amount b with Some a => bool_decide (a >= n) | None => false end.

Definition amount_above (b : Bid) (n : Z) : bool :=
  match Bid.amount b with Some a => bool_decide (a > n) | None => false end.

Definition _any_200_plus_bid (st : GameState) : bool :=
  existsb (fun b => amount_at_least b SPECIAL_BID_THRESHOLD) (bids st).

Definition _partner_bid_amount (st : GameState) (seat : Z) : option Z :=
  partner ← get_partner_seat st seat;
  b ← find (fun b => bool_decide (Bid.seat b = partner)
                      && bool_decide (is_Some (Bid.amount b))) (bids st);
  Bid.amount b.

Definition validate_bid (st : GameState) (seat : Z) (amount : option Z)
    : bool * string :=
  if bool_decide (phase st ≠ BIDDING) then (false, "Not in bidding phase")
  else if bool_decide (bid_turn_seat st ≠ Some seat)
  then (false, "Not your turn to bid")
  else match amount with
  | None => (true, "")
  | Some amount =>
  if bool_decide (amount < MIN_BID)
  then (false, "Minimum bid is " +:+ py_str MIN_BID)
  else if bool_decide (amount > MAX_BID)
  then (false, "Maximum bid is " +:+ py_str MAX_BID)
  else if bool_decide (amount ≠ MAX_BID) && bool_decide (amount mod BID_STEP ≠ 0)
  then (false, "Bid must be a multiple of " +:+ py_str BID_STEP)
  else
  let current_highest := _highest_bid_amount st in
  if bool_decide (current_highest > 0) && bool_decide (amount <= current_highest)
  then (false, "Bid must exceed current highest bid of " +:+ py_str current_highest)
  else
  let has_bid := _player_has_bid st seat in
  let any_200 := _any_200_plus_bid st in
  let is_200_plus := bool_decide (amount >= SPECIAL_BID_THRESHOLD) in
  if has_bid && negb (is_200_plus && negb any_200)
  then (false, "You have already bid or passed")
  else
  let own_bids :=
    bid_amounts (filter (fun b => Bid.seat b = seat) (bids st)) in
  let self_overbid :=
    match own_bids with
    | [] => false
    | a :: rest =>
        let my_highest := py_max a rest in
        let someone_overbid :=
          existsb (fun b => amount_above b my_highest
                            && bool_decide (Bid.seat b ≠ seat)) (bids st) in
        negb someone_overbid
    end in
  if self_overbid
  then (false, "Cannot overbid yourself unless someone has overbid you")
  else
  let partner_blocks :=
    match _partner_bid_amount st seat with
    | Some partner_amount =>
        if bool_decide (amount > partner_amount) then
          let opponent_overbid_partner :=
            existsb (fun b => amount_above b partner_amount
                              && bool_decide (Bid.seat b ≠ seat)
                              && bool_decide (Some (Bid.seat b) ≠ get_partner_seat st seat))
                    (bids st) in
          negb opponent_overbid_partner && negb (is_200_plus && negb any_200)
        else false
    | None => false
    end in
  if partner_blocks
  then (false, "Cannot overbid your partner unless an opponent has overbid them")
  else (true, "")
  end.

Definition _conclude_bidding (st : GameState) : Dict * GameState :=
  let '(st, cb) :=
    match current_bid st with
    | None =>
        let forced_bid := Bid.mk (dealer_seat st) (Some MIN_BID) in
        let st := set_bids (bids st ++ [forced_bid]) st in
        (set_current_bid (Some forced_bid) st, forced_bid)
    | Some cb => (st, cb)
    end in
  let st := set_trumper_seat (Some (Bid.seat cb)) st in
  let st := set_phase TRUMP_SELECTION st in
  ([("bidding_complete", VBool true);
    ("trumper_seat", opt_int (trumper_seat st));
    ("bid", opt_int (Bid.amount cb))], st).

(** The [for _ in range(num_players)] loop of [_advance_bidding]; a seat
    that has already bid is skipped on both branches of the 200+ test. *)
Fixpoint _advance_bidding_loop (n : nat) (st : GameState) (current : option Z)
    : option (Dict * GameState) :=
  match n with
  | O => Some (_conclude_bidding st)
  | S n' =>
      cur ← current;
      nxt ← next_seat st cur;
      if _player_has_bid st nxt then _advance_bidding_loop n' st (Some nxt)
      else Some ([("next_bidder", VInt nxt)], set_bid_turn_seat (Some nxt) st)
  end.

Definition _advance_bidding (st : GameState) : option (Dict * GameState) :=
  let num_players := length (players st) in
  _advance_bidding_loop num_players st (bid_turn_seat st).

Definition place_bid (st : GameState) (seat : Z) (amount : option Z)
    : option (Dict * GameState) :=
  let bid := Bid.mk seat amount in
  let st := set_bids (bids st ++ [bid]) st in
  let st := match amount with
            | Some _ => set_current_bid (Some bid) st
            | None => st
            end in
  _advance_bidding st.

Definition get_scoring_points (bid_amount : Z) : Z * Z :=
  if bool_decide (bid_amount = 304) then (10, 7)
  else if bool_decide (bid_amount >= 200) then (6, 5)
  else (5, 3).

(** ** trump.py *)

(** [_set_first_player]: the trumper leads on a bid of exactly 304, the seat
    left of the dealer otherwise. *)
Definition _set_first_player (st : GameState) : option GameState :=
  first ← (match current_bid st with
           | Some cb =>
               if bool_decide (Bid.amount cb = Some 304)
               then Some (trumper_seat st)
               else Some <$> next_seat st (dealer_seat st)
           | None => Some <$> next_seat st (dealer_seat st)
           end);
  let st := set_turn_seat first st in
  let st := set_lead_seat (turn_seat st) st in
  Some (set_trick_number 1 st).

Definition validate_trump_selection (st : GameState) (seat : Z) (suit : Suit)
    (card : Card) : option (bool * string) :=
  if bool_decide (phase st ≠ TRUMP_SELECTION)
  then Some (false, "Not in trump selection phase")
  else if bool_decide (trumper_seat st ≠ Some seat)
  then Some (false, "Only the trumper can select trump")
  else if bool_decide (Card.suit card ≠ suit)
  then Some (false, "Trump card must be of the selected trump suit")
  else
    player ← get_player_by_seat st seat;
    if bool_decide (card ∉ Player.hand player)
    then Some (false, "You don't have that card")
    else Some (true, "").

Definition select_trump (st : GameState) (seat : Z) (suit : Suit) (card : Card)
    : option (Dict * GameState) :=
  st ← hand_remove seat card st;
  let st := set_trump_suit (Some suit) st in
  let st := set_trump_card (Some card) st in
  let st := set_trump_revealed false st in
  if bool_decide (mode st = 3) then
    let st := set_phase CARD_EXCHANGE st in
    Some ([("trump_selected", VBool true); ("next_phase", VStr "CARD_EXCHANGE")], st)
  else
    let st := set_phase PLAYING st in
    st ← _set_first_player st;
    Some ([("trump_selected", VBool true); ("next_phase", VStr "PLAYING")], st).

Definition validate_card_exchange (st : GameState) (seat : Z) (cards : list Card)
    : option (bool * string) :=
  if bool_decide (phase st ≠ CARD_EXCHANGE)
  then Some (false, "Not in card exchange phase")
  else if bool_decide (trumper_seat st ≠ Some seat)
  then Some (false, "Only the trumper can exchange cards")
  else if bool_decide (length cards ≠ 2%nat)
  then Some (false, "Must exchange exactly 2 cards")
  else
    player ← get_player_by_seat st seat;
    match find (fun card => bool_decide (card ∉ Player.hand player)) cards with
    | Some card => Some (false, "You don't have " +:+ Card.id card)
    | None => Some (true, "")
    end.

(** The removal loop of [exchange_cards]; the second removal of a card held
    once raises. *)
Fixpoint hand_remove_all (seat : Z) (cards : list Card) (st : GameState)
    : option GameState :=
  match cards with
  | [] => Some st
  | card :: rest => st' ← hand_remove seat card st; hand_remove_all seat rest st'
  end.

Definition exchange_cards (st : GameState) (seat : Z) (cards_to_give : list Card)
    : option (Dict * GameState) :=
  _ ← get_player_by_seat st seat;
  st ← hand_remove_all seat cards_to_give st;
  let picked_up := center_pile st in
  st ← hand_extend seat picked_up st;
  let st := set_center_pile cards_to_give st in
  let st := set_exchange_done true st in
  let st := set_phase PLAYING st in
  st ← _set_first_player st;
  Some ([("exchange_done", VBool true); ("next_phase", VStr "PLAYING")], st).

Definition skip_exchange (st : GameState) (seat : Z)
    : option ((bool * Dict) * GameState) :=
  if bool_decide (phase st ≠ CARD_EXCHANGE)
  then Some ((false, [("error", VStr "Not in card exchange phase")]), st)
  else if bool_decide (trumper_seat st ≠ Some seat)
  then Some ((false, [("error", VStr "Only the trumper can skip exchange")]), st)
  else
    let st := set_exchange_done true st in
    let st := set_phase PLAYING st in
    st ← _set_first_player st;
    Some ((true, [("exchange_skipped", VBool true); ("next_phase", VStr "PLAYING")]), st).

Definition reveal_trump (st : GameState) (requesting_seat : option Z)
    : option ((bool * string) * GameState) :=
  if trump_revealed st then Some ((false, "Trump is already revealed"), st)
  else match trump_suit st with
  | None => Some ((false, "Trump has not been selected yet"), st)
  | Some _ =>
      let st := set_trump_revealed true st in
      match trump_card st with
      | Some tc =>
          ts ← trumper_seat st;
          st ← hand_extend ts [tc] st;
          Some ((true, ""), st)
      | None => Some ((true, ""), st)
      end
  end.

(** ** tricks.py *)

Definition get_calling_suit (st : GameState) : option Suit :=
  (fun tc => Card.suit (TrickCard.card tc)) <$> head (current_trick st).

Definition get_valid_cards (st : GameState) (seat : Z) : option (list Card) :=
  player ← get_player_by_seat st seat;
  let hand := Player.hand player in
  match hand with
  | [] => Some []
  | _ =>
      match get_calling_suit st with
      | None => Some hand
      | Some calling_suit =>
          let same_suit := filter (fun c => Card.suit c = calling_suit) hand in
          match same_suit with
          | [] => Some hand
          | _ => Some same_suit
          end
      end
  end.

Definition validate_play (st : GameState) (seat : Z) (card : Card)
    (wants_to_cut : bool) : option (bool * string) :=
  if bool_decide (phase st ≠ PLAYING) then Some (false, "Not in playing phase")
  else if bool_decide (turn_seat st ≠ Some seat) then Some (false, "Not your turn")
  else
    player ← get_player_by_seat st seat;
    if bool_decide (card ∉ Player.hand player)
    then Some (false, "You don't have that card")
    else
      valid ← get_valid_cards st seat;
      if bool_decide (card ∉ valid) then Some (false, "You must follow suit")
      else
        match get_calling_suit st with
        | Some calling_suit =>
            if bool_decide (Card.suit card ≠ calling_suit)
               && wants_to_cut
               && bool_decide (Some (Card.suit card) = trump_suit st)
            then
              if bool_decide (Some seat = trumper_seat st) then
                if negb (trump_revealed st)
                then Some (false, "Trumper must reveal trump before cutting")
                else Some (true, "")
              else
                if negb (trump_revealed st)
                then Some (false, "Trump must be revealed before cutting")
                else Some (true, "")
            else Some (true, "")
        | None => Some (true, "")
        end.

(** One iteration of the draw loop of [_draw_cards_2p]. *)
Fixpoint _draw_loop (seats : list Z) (st : GameState) (draws : list Value)
    : option (list Value * GameState) :=
  match seats with
  | [] => Some (draws, st)
  | seat :: rest =>
      match center_pile st with
      | [] => Some (draws, st)
      | card :: pile =>
          let st := set_center_pile pile st in
          st ← hand_extend seat [card] st;
          _draw_loop rest st
            (draws ++ [VDict [("seat", VInt seat); ("card", VStr (Card.id card))]])
      end
  end.

Definition _draw_cards_2p (st : GameState) (trick_winner_seat : Z)
    : option (list Value * GameState) :=
  nxt ← next_seat st trick_winner_seat;
  _draw_loop [trick_winner_seat; nxt] st [].

(** The winner scan of [_resolve_trick]: a later card replaces the running
    winner when it beats it. *)
Definition trick_winner (st : GameState) (calling_suit : Suit)
    (first : TrickCard) (others : list TrickCard) : TrickCard :=
  foldl (fun winner_tc tc =>
           if Card.beats (TrickCard.card tc) (TrickCard.card winner_tc)
                (trump_suit st) (trump_revealed st) calling_suit
           then tc else winner_tc)
        first others.

Definition _resolve_trick (st : GameState) : option (Dict * GameState) :=
  first ← head (current_trick st);
  let calling_suit := Card.suit (TrickCard.card first) in
  let winner_tc := trick_winner st calling_suit first (tail (current_trick st)) in
  let winner_seat := TrickCard.seat winner_tc in
  let trick_cards := map TrickCard.card (current_trick st) in
  let trick_points := sum_points trick_cards in
  let won := default [] (tricks_won st !! winner_seat) in
  let st := set_tricks_won (<[winner_seat := won ++ trick_cards]> (tricks_won st)) st in
  let st := set_current_trick [] st in
  let st := set_trick_number (trick_number st + 1) st in
  let result : Dict :=
    [("trick_won", VBool true); ("winner_seat", VInt winner_seat);
     ("trick_points", VInt trick_points)] in
  '(result, st) ←
    (if bool_decide (mode st = 2) && bool_decide (center_pile st ≠ []) then
       '(draws, st) ← _draw_cards_2p st winner_seat;
       Some (dict_set "draws" (VList draws) result, st)
     else Some (result, st));
  let total_tricks := 8 in
  hands_empty_2p ←
    (if bool_decide (mode st = 2) then
       q0 ← players st !! 0%nat;
       p0 ← get_player_by_seat st (Player.seat q0);
       q1 ← players st !! 1%nat;
       p1 ← get_player_by_seat st (Player.seat q1);
       Some (bool_decide (Player.hand p0 = []) && bool_decide (Player.hand p1 = []))
     else Some false);
  if (hands_empty_2p : bool) then Some (dict_set "game_over" (VBool true) result, st)
  else if bool_decide (trick_number st > total_tricks) && bool_decide (mode st ≠ 2)
  then
    '(result, st) ←
      (if negb (trump_revealed st) then
         '(_, st) ← reveal_trump st (trumper_seat st);
         Some (dict_set "trump_revealed_final" (VBool true) result, st)
       else Some (result, st));
    Some (dict_set "game_over" (VBool true) result, st)
  else
    let all_empty := forallb (fun p => bool_decide (length (Player.hand p) = 0%nat))
                             (players st) in
    if all_empty then Some (dict_set "game_over" (VBool true) result, st)
    else
      let st := set_turn_seat (Some winner_seat) st in
      let st := set_lead_seat (Some winner_seat) st in
      Some (dict_set "next_turn" (VInt winner_seat) result, st).

Definition play_card (st : GameState) (seat : Z) (card : Card)
    : option (Dict * GameState) :=
  st ← hand_remove seat card st;
  let is_cut :=
    match get_calling_suit st with
    | Some calling_suit =>
        bool_decide (Card.suit card ≠ calling_suit)
        && trump_revealed st
        && bool_decide (Some (Card.suit card) = trump_suit st)
    | None => false
    end in
  let trick_card := TrickCard.mk seat card in
  let st := set_current_trick (current_trick st ++ [trick_card]) st in
  let result : Dict :=
    [("card_played", VStr (Card.id card)); ("seat", VInt seat);
     ("is_cut", VBool is_cut)] in
  if bool_decide (length (current_trick st) = length (players st)) then
    '(trick_result, st) ← _resolve_trick st;
    Some (dict_update result trick_result, st)
  else
    nxt ← next_seat st seat;
    let st := set_turn_seat (Some nxt) st in
    Some (dict_set "next_turn" (opt_int (turn_seat st)) result, st).

(** The card [auto_play] picks; [r1] and [r2] are the outcomes of the two
    [random.choice] calls. *)
Definition auto_play_pick (st : GameState) (valid : list Card) (r1 r2 : nat)
    : option Card :=
  card ← random_choice r1 valid;
  match get_calling_suit st with
  | Some calling_suit =>
      if bool_decide (Card.suit card ≠ calling_suit) && negb (trump_revealed st)
      then
        let non_trump := filter (fun c => Some (Card.suit c) ≠ trump_suit st) valid in
        match non_trump with
        | [] => Some card
        | _ => random_choice r2 non_trump
        end
      else Some card
  | None => Some card
  end.

Definition auto_play (st : GameState) (seat : Z) (r1 r2 : nat)
    : option (Dict * GameState) :=
  valid ← get_valid_cards st seat;
  match valid with
  | [] => Some ([("error", VStr "No valid cards to play")], st)
  | _ =>
      card ← auto_play_pick st valid r1 r2;
      play_card st seat card
  end.

(** The [for seat, cards in state.tricks_won.items()] loops visit every
    entry once; the sums they build do not depend on the order. *)
Definition calculate_team_points (st : GameState) : Z * Z :=
  let trumper_team := get_trumper_team_seats st in
  let '(trumper_points, opposing_points) :=
    foldr (fun '(seat, cards) '(tp, op) =>
             let points := sum_points cards in
             if bool_decide (seat ∈ trumper_team) then (tp + points, op)
             else (tp, op + points))
          (0, 0) (map_to_list (tricks_won st)) in
  let opposing_points :=
    if bool_decide (mode st = 3) && exchange_done st
       && bool_decide (center_pile st ≠ [])
    then opposing_points + sum_points (center_pile st)
    else opposing_points in
  let trumper_points :=
    match trump_card st with
    | Some tc => if negb (trump_revealed st) then trumper_points + Card.points tc
                 else trumper_points
    | None => trumper_points
    end in
  (trumper_points, opposing_points).

Definition count_suit (ts : Suit) (cards : list Card) : Z :=
  Z.of_nat (length (filter (fun c => Card.suit c = ts) cards)).

Definition check_spoilt_trump (st : GameState) : bool :=
  match trump_suit st with
  | None => false
  | Some ts =>
      let trumper_team := remove_dups (get_trumper_team_seats st) in
      let in_tricks :=
        foldr (fun '(seat, cards) acc =>
                 if bool_decide (seat ∈ trumper_team)
                 then acc + count_suit ts cards else acc)
              0 (map_to_list (tricks_won st)) in
      let concealed :=
        match trump_card st with
        | Some _ => if negb (trump_revealed st) then 1 else 0
        | None => 0
        end in
      let in_hands :=
        foldr (fun seat acc =>
                 match get_player_by_seat st seat with
                 | Some player => acc + count_suit ts (Player.hand player)
                 | None => acc
                 end)
              0 trumper_team in
      bool_decide (in_tricks + concealed + in_hands = 8)
  end.

(** ** game.py *)

(** [range(n)] *)
Definition py_range (n : Z) : list Z := map Z.of_nat (seq 0 (Z.to_nat n)).

(** A fresh [GameState(game_code=..., mode=..., phase=..., created_at=...)]
    with the dataclass defaults for every other field. *)
Definition new_game_state (game_code : string) (mode : Z) (created_at : option string)
    : GameState :=
  mkGameState game_code mode WAITING [] 0 [] [] [] None None None None None
    false false [] ∅ None None 0 None ∅ 0 created_at None.

(** [create_game]; the generated code, the uuid of the creator and the
    clock reading are arguments.  A mode outside 2, 3, 4 raises. *)
Definition create_game (mode : Z) (creator_name : string)
    (game_code player_id created_at : string) : option (GameState * Player) :=
  if bool_decide (mode ∉ [2; 3; 4]) then None
  else
    let st := new_game_state game_code mode (Some created_at) in
    let st := set_scores (foldl (fun sc i => <[i := 0]> sc) (scores st) (py_range mode)) st in
    let player := Player.mk player_id creator_name 0 None [] in
    let st := set_players (players st ++ [player]) st in
    Some (st, player).

Definition join_game (st : GameState) (player_name player_id : string)
    : option ((bool * (string + Player)) * GameState) :=
  if bool_decide (phase st ≠ WAITING)
  then Some ((false, inl "Game has already started"), st)
  else if bool_decide (Z.of_nat (length (players st)) >= mode st)
  then Some ((false, inl "Game is full"), st)
  else
    let taken_seats := map Player.seat (players st) in
    seat ← find (fun i => bool_decide (i ∉ taken_seats)) (py_range (mode st));
    let player := Player.mk player_id player_name seat None [] in
    let st := set_players (players st ++ [player]) st in
    Some ((true, inr player), st).

(** [start_game]; [r] is the outcome of [random.choice] for the dealer and
    [shuffled] the shuffled deck. *)
Definition start_game (st : GameState) (r : nat) (shuffled : list Card)
    : option ((bool * string) * GameState) :=
  if bool_decide (phase st ≠ WAITING)
  then Some ((false, "Game already started"), st)
  else if bool_decide (Z.of_nat (length (players st)) ≠ mode st)
  then Some ((false, "Need " +:+ py_str (mode st) +:+ " players, have "
                       +:+ py_str (Z.of_nat (length (players st)))), st)
  else
    dealer ← random_choice r (map Player.seat (players st));
    let st := set_dealer_seat dealer st in
    let st := set_phase DEALING st in
    st ← deal shuffled st;
    st ← start_bidding st;
    Some ((true, ""), st).

Definition handle_bid (st : GameState) (seat : Z) (amount : option Z)
    : option ((bool * Dict) * GameState) :=
  let '(valid, err) := validate_bid st seat amount in
  if negb valid then Some ((false, [("error", VStr err)]), st)
  else
    '(result, st) ← place_bid st seat amount;
    Some ((true, result), st).

Definition handle_trump_selection (st : GameState) (seat : Z)
    (suit_str card_id : string) : option ((bool * Dict) * GameState) :=
  match Suit_of_value suit_str, Card.from_id card_id with
  | Some suit, Some card =>
      '(valid, err) ← validate_trump_selection st seat suit card;
      if negb valid then Some ((false, [("error", VStr err)]), st)
      else
        '(result, st) ← select_trump st seat suit card;
        Some ((true, result), st)
  | _, _ => Some ((false, [("error", VStr "Invalid suit or card")]), st)
  end.

Definition handle_card_exchange (st : GameState) (seat : Z)
    (card_ids : list string) : option ((bool * Dict) * GameState) :=
  match mapM Card.from_id card_ids with
  | Some cards =>
      '(valid, err) ← validate_card_exchange st seat cards;
      if negb valid then Some ((false, [("error", VStr err)]), st)
      else
        '(result, st) ← exchange_cards st seat cards;
        Some ((true, result), st)
  | None => Some ((false, [("error", VStr "Invalid card")]), st)
  end.

Definition handle_skip_exchange (st : GameState) (seat : Z)
    : option ((bool * Dict) * GameState) :=
  '((success, result), st) ← skip_exchange st seat;
  if negb success then Some ((false, result), st)
  else Some ((true, result), st).

Definition _score_game (st : GameState) : option (Dict * GameState) :=
  let st := set_phase SCORING st in
  if check_spoilt_trump st then
    Some ([("spoilt", VBool true); ("trumper_points", VInt 0);
           ("opposing_points", VInt 0);
           ("scores", VIntDict (map (fun kv => (kv.1, VInt kv.2))
                                    (map_to_list (scores st))))], st)
  else
    let points := calculate_team_points st in
    cb ← current_bid st;
    bid_amount ← Bid.amount cb;
    let trumper_points := points.1 in
    let '(win_points, lose_points) := get_scoring_points bid_amount in
    let trumper_won := bool_decide (trumper_points >= bid_amount) in
    let trumper_team := get_trumper_team_seats st in
    let opposing_team := get_opposing_team_seats st in
    let award (pts : Z) (sc : gmap Z Z) (seat : Z) : gmap Z Z :=
      <[seat := default 0 (sc !! seat) + pts]> sc in
    let st :=
      if trumper_won
      then set_scores (foldl (award win_points) (scores st) trumper_team) st
      else set_scores (foldl (award lose_points) (scores st) opposing_team) st in
    let st := set_games_played (games_played st + 1) st in
    Some ([("trumper_won", VBool trumper_won);
           ("trumper_points", VInt trumper_points);
           ("opposing_points", VInt points.2);
           ("bid", VInt bid_amount);
           ("points_awarded", VInt (if trumper_won then win_points else lose_points));
           ("scores", VIntDict (map (fun kv => (kv.1, VInt kv.2))
                                    (map_to_list (scores st))))], st).

(** The tail shared by [handle_play_card] and [handle_timeout]:
    [if result.get("game_over"): result.update(_score_game(state))]. *)
Definition score_if_over (result : Dict) (st : GameState)
    : option (Dict * GameState) :=
  if truthy (dict_get_default "game_over" result) then
    '(scoring, st) ← _score_game st;
    Some (dict_update result scoring, st)
  else Some (result, st).

Definition handle_play_card (st : GameState) (seat : Z) (card_id : string)
    : option ((bool * Dict) * GameState) :=
  match Card.from_id card_id with
  | None => Some ((false, [("error", VStr "Invalid card")]), st)
  | Some card =>
      let wants_to_cut :=
        match get_calling_suit st with
        | Some calling_suit =>
            bool_decide (Card.suit card ≠ calling_suit)
            && bool_decide (Some (Card.suit card) = trump_suit st)
            && trump_revealed st
        | None => false
        end in
      '(valid, err) ← validate_play st seat card wants_to_cut;
      if negb valid then Some ((false, [("error", VStr err)]), st)
      else
        '(result, st) ← play_card st seat card;
        '(result, st) ← score_if_over result st;
        Some ((true, result), st)
  end.

(** The success payload of [handle_reveal_trump];
    [state.trump_suit.value] raises on [None]. *)
Definition reveal_payload (st : GameState) : option Dict :=
  ts ← trump_suit st;
  Some [("trump_revealed", VBool true); ("suit", VStr (Suit_value ts));
        ("trump_card", opt_str (Card.id <$> trump_card st))].

(** [handle_ask_trump]: game.py imports [get_calling_suit] inside
    [handle_play_card] only, so the name is not bound here and the call that
    follows the three guards raises NameError; nothing after it runs. *)
Definition handle_ask_trump (st : GameState) (seat : Z)
    : option ((bool * Dict) * GameState) :=
  if trump_revealed st
  then Some ((false, [("error", VStr "Trump is already revealed")]), st)
  else if bool_decide (Some seat = trumper_seat st)
  then Some ((false, [("error", VStr "You are the trumper — use reveal_trump instead")]), st)
  else if bool_decide (phase st ≠ PLAYING)
  then Some ((false, [("error", VStr "Not in playing phase")]), st)
  else None.

Definition handle_reveal_trump (st : GameState) (seat : Z)
    : option ((bool * Dict) * GameState) :=
  if bool_decide (Some seat ≠ trumper_seat st)
  then Some ((false, [("error", VStr "Only the trumper can reveal trump")]), st)
  else if bool_decide (phase st ≠ PLAYING)
  then Some ((false, [("error", VStr "Not in playing phase")]), st)
  else
    '((success, err), st) ← reveal_trump st (Some seat);
    if negb success then Some ((false, [("error", VStr err)]), st)
    else
      payload ← reveal_payload st;
      Some ((true, payload), st).

Definition handle_timeout (st : GameState) (seat : Z) (r1 r2 : nat)
    : option ((bool * Dict) * GameState) :=
  if bool_decide (turn_seat st ≠ Some seat)
  then Some ((false, [("error", VStr "Not this player's turn")]), st)
  else
    '(result, st) ← auto_play st seat r1 r2;
    '(result, st) ← score_if_over result st;
    Some ((true, dict_set "timeout" (VBool true) result), st).

(** The block of [next_game] between the phase test and the deal: the
    dealer moves one seat clockwise and the per-game fields are cleared. *)
Definition next_game_reset (st : GameState) : option GameState :=
  dealer ← next_seat st (dealer_seat st);
  let st := set_dealer_seat dealer st in
  let st := set_bids [] st in
  let st := set_current_bid None st in
  let st := set_bid_turn_seat None st in
  let st := set_trumper_seat None st in
  let st := set_trump_suit None st in
  let st := set_trump_card None st in
  let st := set_trump_revealed false st in
  let st := set_exchange_done false st in
  let st := set_current_trick [] st in
  let st := set_tricks_won ∅ st in
  let st := set_turn_seat None st in
  let st := set_turn_deadline None st in
  let st := set_trick_number 0 st in
  let st := set_lead_seat None st in
  Some (set_center_pile [] st).

Definition next_game (st : GameState) (shuffled : list Card)
    : option ((bool * string) * GameState) :=
  if bool_decide (phase st ≠ SCORING)
  then Some ((false, "Current game not finished"), st)
  else
    st ← next_game_reset st;
    let st := set_phase DEALING st in
    st ← deal shuffled st;
    st ← start_bidding st;
    Some ((true, ""), st).

Definition card_ids (cards : list Card) : Value := VList (map (fun c => VStr (Card.id c)) cards).

Definition get_player_view (st : GameState) (seat : Z) : option Dict :=
  let player := get_player_by_seat st seat in
  let view : Dict :=
    [("game_code", VStr (game_code st));
     ("mode", VInt (mode st));
     ("phase", VStr (GamePhase_value (phase st)));
     ("players", VList (map (fun p => VDict (Player.to_public_dict p)) (players st)));
     ("dealer_seat", VInt (dealer_seat st));
     ("your_seat", VInt seat);
     ("your_hand", match player with
                   | Some p => card_ids (Player.hand p)
                   | None => VList []
                   end);
     ("bids", VList (map (fun b => VDict (Bid.to_dict b)) (bids st)));
     ("current_bid", match current_bid st with
                     | Some b => VDict (Bid.to_dict b)
                     | None => VNone
                     end);
     ("trumper_seat", opt_int (trumper_seat st));
     ("trump_revealed", VBool (trump_revealed st));
     ("current_trick", VList (map (fun tc => VDict (TrickCard.to_dict tc)) (current_trick st)));
     ("turn_seat", opt_int (turn_seat st));
     ("trick_number", VInt (trick_number st));
     ("scores", VIntDict (map (fun kv => (kv.1, VInt kv.2)) (map_to_list (scores st))));
     ("games_played", VInt (games_played st))] in
  let trump_info (view : Dict) : Dict :=
    let view := dict_set "trump_suit" (opt_str (Suit_value <$> trump_suit st)) view in
    dict_set "trump_card" (opt_str (Card.id <$> trump_card st)) view in
  let view :=
    if trump_revealed st then trump_info view
    else if bool_decide (Some seat = trumper_seat st) then trump_info view
    else view in
  view ←
    (if bool_decide (turn_seat st = Some seat) && bool_decide (phase st = PLAYING)
     then valid ← get_valid_cards st seat;
          Some (dict_set "valid_cards" (card_ids valid) view)
     else Some view);
  let view :=
    if bool_decide (phase st = BIDDING)
    then dict_set "bid_turn_seat" (opt_int (bid_turn_seat st)) view
    else view in
  let trumper_team := get_trumper_team_seats st in
  let team_tricks_points : Dict :=
    foldl (fun acc '(s, cards) =>
             let team_key := if bool_decide (s ∈ trumper_team)
                             then "trumper" else "opposing" in
             let current := match dict_get team_key acc with
                            | Some (VInt n) => n
                            | _ => 0
                            end in
             dict_set team_key (VInt (current + sum_points cards)) acc)
          [] (map_to_list (tricks_won st)) in
  let view := dict_set "team_tricks_points" (VDict team_tricks_points) view in
  let view :=
    if bool_decide (mode st ∈ [2; 3])
    then dict_set "center_pile_count" (VInt (Z.of_nat (length (center_pile st)))) view
    else view in
  Some view.

(** ** _serialization.py *)

(** [int(v)] *)
Definition py_int (v : Value) : option Z :=
  match v with
  | VInt z => Some z
  | VBool b => Some (if b then 1 else 0)
  | VStr s => py_int_of_str s
  | _ => None
  end.

(** Readers for the fields the dataclasses type as [str], [Optional[str]],
    [Optional[int]] and lists; a value of another shape is outside the
    record types and is rejected. *)
Definition as_str (v : Value) : option string :=
  match v with VStr s => Some s | _ => None end.

Definition as_opt_str (v : Value) : option (option string) :=
  match v with VNone => Some None | VStr s => Some (Some s) | _ => None end.

Definition as_opt_int (v : Value) : option (option Z) :=
  match v with VNone => Some None | VInt z => Some (Some z) | _ => None end.

Definition as_list (v : Value) : option (list Value) :=
  match v with VList l => Some l | _ => None end.

Definition as_dict (v : Value) : option Dict :=
  match v with VDict d => Some d | _ => None end.

(** [int(item[k]) if item.get(k) is not None else None] *)
Definition opt_seat_of (k : string) (item : Dict) : option (option Z) :=
  match dict_get_default k item with
  | VNone => Some None
  | v => Some <$> py_int v
  end.

(** [[Card.from_id(cid) for cid in v]] *)
Definition cards_of (v : Value) : option (list Card) :=
  l ← as_list v; mapM (fun cid => as_str cid ≫= Card.from_id) l.

(** A dict comprehension over [(k, v)] pairs: a later pair with the same key
    replaces an earlier one. *)
Definition dict_of_pairs {A} (l : list (Z * A)) : gmap Z A :=
  foldl (fun m kv => <[kv.1 := kv.2]> m) ∅ l.

Definition _serialize_player (player : Player) : Dict :=
  [("player_id", VStr (Player.player_id player));
   ("name", VStr (Player.name player));
   ("seat", VInt (Player.seat player));
   ("connection_id", opt_str (Player.connection_id player));
   ("hand", card_ids (Player.hand player))].

Definition serialize_game_state (st : GameState) : Dict :=
  [("game_code", VStr (game_code st));
   ("mode", VInt (mode st));
   ("phase", VStr (GamePhase_value (phase st)));
   ("players", VList (map (fun p => VDict (_serialize_player p)) (players st)));
   ("dealer_seat", VInt (dealer_seat st));
   ("deck", card_ids (deck st));
   ("center_pile", card_ids (center_pile st));
   ("bids", VList (map (fun b => VDict (Bid.to_dict b)) (bids st)));
   ("current_bid", match current_bid st with
                   | Some b => VDict (Bid.to_dict b)
                   | None => VNone
                   end);
   ("bid_turn_seat", opt_int (bid_turn_seat st));
   ("trumper_seat", opt_int (trumper_seat st));
   ("trump_suit", opt_str (Suit_value <$> trump_suit st));
   ("trump_card", opt_str (Card.id <$> trump_card st));
   ("trump_revealed", VBool (trump_revealed st));
   ("exchange_done", VBool (exchange_done st));
   ("current_trick", VList (map (fun tc => VDict (TrickCard.to_dict tc)) (current_trick st)));
   ("tricks_won", VDict (map (fun kv => (py_str kv.1, card_ids kv.2))
                             (map_to_list (tricks_won st))));
   ("turn_seat", opt_int (turn_seat st));
   ("turn_deadline", opt_str (turn_deadline st));
   ("trick_number", VInt (trick_number st));
   ("lead_seat", opt_int (lead_seat st));
   ("scores", VDict (map (fun kv => (py_str kv.1, VInt kv.2))
                         (map_to_list (scores st))));
   ("games_played", VInt (games_played st));
   ("created_at", opt_str (created_at st))].

Definition deserialize_player (v : Value) : option Player :=
  p_data ← as_dict v;
  player_id ← dict_get "player_id" p_data ≫= as_str;
  name ← dict_get "name" p_data ≫= as_str;
  seat ← dict_get "seat" p_data ≫= py_int;
  connection_id ← as_opt_str (dict_get_default "connection_id" p_data);
  hand ← cards_of (default (VList []) (dict_get "hand" p_data));
  Some (Player.mk player_id name seat connection_id hand).

Definition deserialize_bid (v : Value) : option Bid :=
  b ← as_dict v;
  seat ← dict_get "seat" b ≫= py_int;
  amount ← dict_get "amount" b ≫= as_opt_int;
  Some (Bid.mk seat amount).

Definition deserialize_trick_card (v : Value) : option TrickCard :=
  tc ← as_dict v;
  seat ← dict_get "seat" tc ≫= py_int;
  card_id ← dict_get "card" tc ≫= as_str;
  card ← Card.from_id card_id;
  Some (TrickCard.mk seat card).

Definition deserialize_game_state (item : Dict) : option GameState :=
  game_code ← dict_get "game_code" item ≫= as_str;
  mode ← dict_get "mode" item ≫= py_int;
  phase_str ← dict_get "phase" item ≫= as_str;
  phase ← GamePhase_of_value phase_str;
  dealer_seat ← dict_get "dealer_seat" item ≫= py_int;
  let trump_revealed := truthy (default (VBool false) (dict_get "trump_revealed" item)) in
  let exchange_done := truthy (default (VBool false) (dict_get "exchange_done" item)) in
  trick_number ← py_int (default (VInt 0) (dict_get "trick_number" item));
  games_played ← py_int (default (VInt 0) (dict_get "games_played" item));
  created_at ← as_opt_str (dict_get_default "created_at" item);
  let st := new_game_state game_code mode created_at in
  let st := set_phase phase st in
  let st := set_dealer_seat dealer_seat st in
  let st := set_trump_revealed trump_revealed st in
  let st := set_exchange_done exchange_done st in
  let st := set_trick_number trick_number st in
  let st := set_games_played games_played st in
  (* Players *)
  ps ← as_list (default (VList []) (dict_get "players" item)) ≫= mapM deserialize_player;
  let st := set_players (players st ++ ps) st in
  (* Deck & center pile *)
  dk ← cards_of (default (VList []) (dict_get "deck" item));
  let st := set_deck dk st in
  cp ← cards_of (default (VList []) (dict_get "center_pile" item));
  let st := set_center_pile cp st in
  (* Bids *)
  bs ← as_list (default (VList []) (dict_get "bids" item)) ≫= mapM deserialize_bid;
  let st := set_bids bs st in
  st ← (if truthy (dict_get_default "current_bid" item) then
          cb ← dict_get "current_bid" item ≫= deserialize_bid;
          Some (set_current_bid (Some cb) st)
        else Some st);
  bts ← opt_seat_of "bid_turn_seat" item;
  let st := set_bid_turn_seat bts st in
  (* Trump *)
  ts ← opt_seat_of "trumper_seat" item;
  let st := set_trumper_seat ts st in
  tsuit ← (if truthy (dict_get_default "trump_suit" item)
           then s ← dict_get "trump_suit" item ≫= as_str;
                Some <$> Suit_of_value s
           else Some None);
  let st := set_trump_suit tsuit st in
  tcard ← (if truthy (dict_get_default "trump_card" item)
           then s ← dict_get "trump_card" item ≫= as_str;
                Some <$> Card.from_id s
           else Some None);
  let st := set_trump_card tcard st in
  (* Trick *)
  ct ← as_list (default (VList []) (dict_get "current_trick" item))
         ≫= mapM deserialize_trick_card;
  let st := set_current_trick ct st in
  tw ← as_dict (default (VDict []) (dict_get "tricks_won" item))
         ≫= mapM (fun kv => seat ← py_int_of_str kv.1;
                            cards ← cards_of kv.2;
                            Some (seat, cards));
  let st := set_tricks_won (dict_of_pairs tw) st in
  tus ← opt_seat_of "turn_seat" item;
  let st := set_turn_seat tus st in
  td ← as_opt_str (dict_get_default "turn_deadline" item);
  let st := set_turn_deadline td st in
  ls ← opt_seat_of "lead_seat" item;
  let st := set_lead_seat ls st in
  (* Scores *)
  sc ← as_dict (default (VDict []) (dict_get "scores" item))
         ≫= mapM (fun kv => k ← py_int_of_str kv.1;
                            v ← py_int kv.2;
                            Some (k, v));
  let st := set_scores (dict_of_pairs sc) st in
  Some st.

(** ** handlers/websocket.py: connecting and disconnecting

    [_on_connect] and [_on_disconnect] load the game, set or clear the
    [connection_id] of the player that [get_player_by_id] finds, and save the
    game.  The game they load is the argument and the game they save is the
    result; the connections table and the messages are left out.  The value
    beside the game is the status code. *)

(** [state.get_player_by_id(player_id).connection_id = c]: the first player
    with that id is updated in place; [None] when there is no such player. *)
Fixpoint update_connection (pid : string) (c : option string) (ps : list Player)
    : option (list Player) :=
  match ps with
  | [] => None
  | p :: ps' =>
      if String.eqb (Player.player_id p) pid
      then Some (Player.set_connection_id c p :: ps')
      else (p ::.) <$> update_connection pid c ps'
  end.

Definition _on_connect (st : GameState) (player_id connection_id : string)
    : Z * GameState :=
  if String.eqb player_id "" then (400, st)
  else match update_connection player_id (Some connection_id) (players st) with
       | None => (403, st)
       | Some ps => (200, set_players ps st)
       end.

(** [player_id] is the id the connections table holds for the connection. *)
Definition _on_disconnect (st : GameState) (player_id : string) : Z * GameState :=
  match update_connection player_id None (players st) with
  | None => (200, st)
  | Some ps => (200, set_players ps st)
  end.

(** ** The action layer

    One constructor per operation of the dispatcher table; the string and
    list arguments are those of the client message, the random outcomes are
    those consumed by the operation.  [apply_action] routes an action to its
    handler as [_on_message] of [handlers/websocket.py] does, and wraps the
    [(bool, str)] results of [join_game], [start_game] and [next_game] in an
    error dictionary. *)

Inductive Action :=
  | AJoin (player_name player_id : string)
  | AStart (r : nat) (shuffled : list Card)
  | ABid (seat : Z) (amount : option Z)
  | ASelectTrump (seat : Z) (suit_str card_id : string)
  | AExchange (seat : Z) (card_ids : list string)
  | ASkipExchange (seat : Z)
  | APlayCard (seat : Z) (card_id : string)
  | AAskTrump (seat : Z)
  | ARevealTrump (seat : Z)
  | ATimeout (seat : Z) (r1 r2 : nat)
  | ANextGame (shuffled : list Card)
  | AConnect (player_id connection_id : string)
  | ADisconnect (player_id : string).

Definition wrap_msg (r : option ((bool * string) * GameState))
    : option ((bool * Dict) * GameState) :=
  '((ok, msg), st) ← r;
  Some ((ok, if (ok : bool) then [] else [("error", VStr msg)]), st).

Definition apply_action (a : Action) (st : GameState)
    : option ((bool * Dict) * GameState) :=
  match a with
  | AJoin player_name player_id =>
      '((ok, r), st) ← join_game st player_name player_id;
      Some ((ok, match r with inl msg => [("error", VStr msg)] | inr _ => [] end), st)
  | AStart r shuffled => wrap_msg (start_game st r shuffled)
  | ABid seat amount => handle_bid st seat amount
  | ASelectTrump seat suit_str card_id => handle_trump_selection st seat suit_str card_id
  | AExchange seat card_ids => handle_card_exchange st seat card_ids
  | ASkipExchange seat => handle_skip_exchange st seat
  | APlayCard seat card_id => handle_play_card st seat card_id
  | AAskTrump seat => handle_ask_trump st seat
  | ARevealTrump seat => handle_reveal_trump st seat
  | ATimeout seat r1 r2 => handle_timeout st seat r1 r2
  | ANextGame shuffled => wrap_msg (next_game st shuffled)
  | AConnect player_id connection_id =>
      let '(code, st) := _on_connect st player_id connection_id in
      Some ((bool_decide (code = 200), [("statusCode", VInt code)]), st)
  | ADisconnect player_id =>
      let '(code, st) := _on_disconnect st player_id in
      Some ((bool_decide (code = 200), [("statusCode", VInt code)]), st)
  end.

(** The decks an action may consume are shuffles of the 32 cards. *)
Definition action_ok (a : Action) : Prop :=
  match a with
  | AStart _ shuffled | ANextGame shuffled => shuffled ≡ₚ create_deck
  | _ => True
  end.

(** States of a game: created by [create_game], then any sequence of
    operations that return (with success or with an error), players
    connecting and disconnecting in between. *)
Inductive reachable : GameState → Prop :=
  | reachable_create mode creator_name game_code player_id created_at st p :
      create_game mode creator_name game_code player_id created_at = Some (st, p) →
      reachable st
  | reachable_step a st ok result st' :
      reachable st →
      action_ok a →
      apply_action a st = Some ((ok, result), st') →
      reachable st'.

(** * Statements and sample games *)

(** ** Sample states *)

(** A four-seat game in its first trick: seat 1 has led the jack of spades,
    seat 2 is to play and holds no spade, hearts is the concealed trump. *)
Definition sample_players : list Player :=
  [Player.mk "p0" "Asha" 0 None [Card.mk SPADES ACE; Card.mk CLUBS KING];
   Player.mk "p1" "Binu" 1 None [Card.mk CLUBS SEVEN];
   Player.mk "p2" "Chitra" 2 None [Card.mk HEARTS JACK; Card.mk DIAMONDS SEVEN];
   Player.mk "p3" "Dev" 3 None [Card.mk SPADES NINE; Card.mk DIAMONDS ACE]].

Definition sample_playing : GameState :=
  mkGameState "ABC123" 4 PLAYING sample_players 0 [] []
    [Bid.mk 1 None; Bid.mk 2 None; Bid.mk 3 None; Bid.mk 0 (Some 160)]
    (Some (Bid.mk 0 (Some 160))) (Some 0) (Some 0) (Some HEARTS)
    (Some (Card.mk HEARTS SEVEN)) false false
    [TrickCard.mk 1 (Card.mk SPADES JACK)] ∅ (Some 2) None 1 (Some 1)
    (<[0 := 0]> (<[1 := 0]> (<[2 := 0]> (<[3 := 0]> ∅)))) 0
    (Some "2024-01-01T00:00:00+00:00") None.

(** ** C1 as the specification states it: a concealed-trump play by a seat
    void in the calling suit is answered with an error and no change. *)
Definition concealed_cut_rejected (st : GameState) (seat : Z) (card : Card) : Prop :=
  ∃ err, handle_play_card st seat (Card.id card)
         = Some ((false, [("error", VStr err)]), st).

(** ** Seating *)

(** All seats of the game are taken: the players sit at 0 .. mode-1, in the
    order in which [create_game] and [join_game] seat them. *)
Definition seats_filled (st : GameState) : Prop :=
  mode st ∈ [2; 3; 4] ∧ map Player.seat (players st) = py_range (mode st).

Definition hand_sizes (n : nat) (st : GameState) : Prop :=
  Forall (fun p => length (Player.hand p) = n) (players st).

(** A four-seat table before the first deal, and the same table after a
    scored game. *)
Definition sample_seated : GameState :=
  mkGameState "ABC123" 4 WAITING
    [Player.mk "p0" "Asha" 0 None []; Player.mk "p1" "Binu" 1 None [];
     Player.mk "p2" "Chitra" 2 None []; Player.mk "p3" "Dev" 3 None []]
    0 [] [] [] None None None None None false false [] ∅ None None 0 None
    (<[0 := 0]> (<[1 := 0]> (<[2 := 0]> (<[3 := 0]> ∅)))) 0
    (Some "2024-01-01T00:00:00+00:00") None.

Definition sample_scored : GameState :=
  mkGameState "ABC123" 4 SCORING
    [Player.mk "p0" "Asha" 0 (Some "conn-0") []; Player.mk "p1" "Binu" 1 None [];
     Player.mk "p2" "Chitra" 2 None []; Player.mk "p3" "Dev" 3 None []]
    3 [] []
    [Bid.mk 0 None; Bid.mk 1 (Some 160); Bid.mk 2 None; Bid.mk 3 None]
    (Some (Bid.mk 1 (Some 160))) (Some 3) (Some 1) (Some CLUBS)
    (Some (Card.mk CLUBS NINE)) true false []
    (<[1 := create_deck]> ∅) (Some 2) (Some "2024-01-01T00:10:00+00:00") 9 (Some 1)
    (<[0 := 0]> (<[1 := 5]> (<[2 := 0]> (<[3 := 5]> ∅)))) 1
    (Some "2024-01-01T00:00:00+00:00") None.

(** A table in [BIDDING] right after [start_bidding], dealer at seat 2. *)
Definition sample_bidding : GameState :=
  set_bid_turn_seat (Some 3) (set_dealer_seat 2 (set_phase BIDDING sample_seated)).

(** ** Bidding rounds *)

(** [n] passes in a row, each by the seat whose turn it is to bid. *)
Fixpoint pass_round (n : nat) (st : GameState) : option GameState :=
  match n with
  | O => Some st
  | S n' =>
      seat ← bid_turn_seat st;
      '((ok, _), st') ← handle_bid st seat None;
      if (ok : bool) then pass_round n' st' else None
  end.

(** ** Where the cards are *)

Definition hands (ps : list Player) : list Card := concat (map Player.hand ps).

Definition won_cards (tw : gmap Z (list Card)) : list Card :=
  concat (map snd (map_to_list tw)).

(** The trump card while it lies face down. *)
Definition concealed_trump (st : GameState) : list Card :=
  if trump_revealed st then [] else option_list (trump_card st).

(** The union of invariant 1: hands, center pile, trick piles, the trick in
    progress and the unrevealed trump card. *)
Definition all_cards (st : GameState) : list Card :=
  hands (players st) ++ center_pile st ++ won_cards (tricks_won st)
  ++ map TrickCard.card (current_trick st) ++ concealed_trump st.

Definition card_count (c : Card) (l : list Card) : nat := count_occ Card_eq_dec l c.

(** Every card is in the union exactly once. *)
Definition conserved (st : GameState) : Prop :=
  ∀ c, card_count c (all_cards st) = 1%nat.

(** What holds of every state of a game.  Before the first deal nothing
    holds a card; from the deal on the table is full and the cards are
    conserved; the trump slot is empty until the trumper fills it, and its
    card is of the trump suit. *)
Record game_inv (st : GameState) : Prop := {
  inv_ttl : ttl st = None;
  inv_mode : mode st ∈ [2; 3; 4];
  inv_waiting :
    phase st = WAITING →
    (Z.of_nat (length (players st)) ≤ mode st)
    ∧ map Player.seat (players st) = py_range (Z.of_nat (length (players st)))
    ∧ hands (players st) = [] ∧ center_pile st = [] ∧ tricks_won st = ∅
    ∧ current_trick st = [] ∧ trump_card st = None ∧ turn_seat st = None;
  inv_started :
    phase st ≠ WAITING →
    Z.of_nat (length (players st)) = mode st ∧ conserved st;
  inv_no_trump :
    phase st ∈ [WAITING; DEALING; BIDDING; TRUMP_SELECTION] → trump_card st = None;
  inv_trump_suit :
    ∀ c, trump_card st = Some c → trump_suit st = Some (Card.suit c)
}.

(** An operation that only moves cards between containers (or moves none),
    keeps the trump slot, and leaves the phase or enters a later one. *)
Definition card_move (st st' : GameState) : Prop :=
  ttl st' = ttl st
  ∧ mode st' = mode st
  ∧ length (players st') = length (players st)
  ∧ trump_card st' = trump_card st
  ∧ trump_suit st' = trump_suit st
  ∧ (phase st' = phase st ∨ phase st' ∈ [CARD_EXCHANGE; PLAYING; SCORING])
  ∧ ∀ c, card_count c (all_cards st') = card_count c (all_cards st).

Arguments card_count : simpl never.
Arguments hands : simpl never.
Arguments won_cards : simpl never.
Arguments all_cards : simpl never.

(** An operation that touches no card container. *)
Definition same_cards (st st' : GameState) : Prop :=
  ttl st' = ttl st ∧ mode st' = mode st ∧ players st' = players st
  ∧ center_pile st' = center_pile st ∧ tricks_won st' = tricks_won st
  ∧ current_trick st' = current_trick st ∧ trump_card st' = trump_card st
  ∧ trump_revealed st' = trump_revealed st ∧ trump_suit st' = trump_suit st.

(** ** A sample game *)

(** Running a list of actions, whatever each one returns. *)
Fixpoint run_actions (acts : list Action) (st : GameState) : option GameState :=
  match acts with
  | [] => Some st
  | a :: rest => '(_, st') ← apply_action a st; run_actions rest st'
  end.

(** A shuffle that deals the eight hearts to seats 0 and 2 when seat 0
    deals at a four-seat table. *)
Definition sample_shuffle : list Card :=
  slice create_deck 8 12 ++ slice create_deck 0 4 ++ slice create_deck 12 16
  ++ slice create_deck 4 8 ++ drop 16 create_deck.

(** Four players sit down, seat 0 deals, everybody passes, and the dealer,
    forced to 150, lays the jack of hearts face down. *)
Definition sample_actions : list Action :=
  [AJoin "Binu" "p1"; AJoin "Chitra" "p2"; AJoin "Dev" "p3";
   AStart 0 sample_shuffle;
   ABid 1 None; ABid 2 None; ABid 3 None; ABid 0 None;
   ASelectTrump 0 "hearts" "J_hearts"].

Definition sample_created : GameState :=
  Eval vm_compute in
    default sample_seated
      (fst <$> create_game 4 "Asha" "ABC123" "p0" "2024-01-01T00:00:00+00:00").

Definition sample_game : GameState :=
  Eval vm_compute in default sample_seated (run_actions sample_actions sample_created).

(** The sample game goes on: the player at seat 1 connects and leads the
    seven of diamonds, so that seat 2, which holds hearts and clubs only, is
    to play with the trump (hearts) still face down... *)
Definition sample_led_actions : list Action :=
  sample_actions ++ [AConnect "p1" "conn-1"; APlayCard 1 "7_diamonds"].

Definition sample_led : GameState :=
  Eval vm_compute in
    default sample_seated (run_actions sample_led_actions sample_created).

(** ... and the first trick is played out: seat 3 takes it with the ten of
    diamonds. *)
Definition sample_trick_actions : list Action :=
  sample_led_actions
  ++ [APlayCard 2 "7_hearts"; APlayCard 3 "10_diamonds"; APlayCard 0 "10_spades"].

Definition sample_after_trick : GameState :=
  Eval vm_compute in
    default sample_seated (run_actions sample_trick_actions sample_created).

(** ** The cards of the trumper's team (spoilt trump)

    The trick piles of the team's seats, the trump card while face down, and
    the hands of the team's seats. *)
Definition hand_at (st : GameState) (seat : Z) : list Card :=
  match get_player_by_seat st seat with
  | Some player => Player.hand player
  | None => []
  end.

Definition trumper_possession (st : GameState) : list Card :=
  let team := remove_dups (get_trumper_team_seats st) in
  concat (map snd (filter (fun kv => kv.1 ∈ team) (map_to_list (tricks_won st))))
  ++ concealed_trump st
  ++ concat (map (hand_at st) team).

(** The table of [sample_scored] after [next_game] on an unshuffled deck. *)
Definition sample_next : GameState :=
  Eval vm_compute in
    default sample_scored (snd <$> next_game sample_scored create_deck).

(** ** Decimal numerals *)

(** The number a decimal numeral stands for, continuing from [acc]. *)
Fixpoint uint_value (d : Decimal.uint) (acc : Z) : Z :=
  match d with
  | Decimal.Nil => acc
  | Decimal.D0 d => uint_value d (10 * acc + 0)
  | Decimal.D1 d => uint_value d (10 * acc + 1)
  | Decimal.D2 d => uint_value d (10 * acc + 2)
  | Decimal.D3 d => uint_value d (10 * acc + 3)
  | Decimal.D4 d => uint_value d (10 * acc + 4)
  | Decimal.D5 d => uint_value d (10 * acc + 5)
  | Decimal.D6 d => uint_value d (10 * acc + 6)
  | Decimal.D7 d => uint_value d (10 * acc + 7)
  | Decimal.D8 d => uint_value d (10 * acc + 8)
  | Decimal.D9 d => uint_value d (10 * acc + 9)
  end.
(** ** Further sample states *)

(** [sample_playing] once seats 2, 3 and 0 have followed with the seven of
    diamonds, the nine of spades and the ace of spades: a complete trick that
    is about to be resolved. *)
Definition sample_full_trick : GameState :=
  mkGameState "ABC123" 4 PLAYING
    [Player.mk "p0" "Asha" 0 None [Card.mk CLUBS KING];
     Player.mk "p1" "Binu" 1 None [Card.mk CLUBS SEVEN];
     Player.mk "p2" "Chitra" 2 None [Card.mk HEARTS JACK];
     Player.mk "p3" "Dev" 3 None [Card.mk DIAMONDS ACE]]
    0 [] []
    [Bid.mk 1 None; Bid.mk 2 None; Bid.mk 3 None; Bid.mk 0 (Some 160)]
    (Some (Bid.mk 0 (Some 160))) (Some 0) (Some 0) (Some HEARTS)
    (Some (Card.mk HEARTS SEVEN)) false false
    [TrickCard.mk 1 (Card.mk SPADES JACK); TrickCard.mk 2 (Card.mk DIAMONDS SEVEN);
     TrickCard.mk 3 (Card.mk SPADES NINE); TrickCard.mk 0 (Card.mk SPADES ACE)]
    ∅ (Some 0) None 1 (Some 1)
    (<[0 := 0]> (<[1 := 0]> (<[2 := 0]> (<[3 := 0]> ∅)))) 0
    (Some "2024-01-01T00:00:00+00:00") None.

Definition sample_resolved : Dict * GameState :=
  Eval vm_compute in
    default ([], sample_full_trick) (_resolve_trick sample_full_trick).

(** [sample_bidding] after seat 3 has opened with 160: seat 0 is to bid. *)
Definition sample_bid_160 : GameState :=
  Eval vm_compute in
    default sample_bidding (snd <$> handle_bid sample_bidding 3 (Some 160)).

(** [sample_playing] after the trumper (seat 0) has revealed the trump. *)
Definition sample_revealed : (bool * Dict) * GameState :=
  Eval vm_compute in
    default ((false, []), sample_playing) (handle_reveal_trump sample_playing 0).

(** A three-seat game: seat 0 deals an unshuffled deck, everybody passes and
    the dealer, forced to 150, lays the jack of clubs face down; the game
    waits for the card exchange. *)
Definition sample3_created : GameState :=
  Eval vm_compute in
    default sample_seated
      (fst <$> create_game 3 "Asha" "XYZ789" "p0" "2024-01-01T00:00:00+00:00").

Definition sample3_actions : list Action :=
  [AJoin "Binu" "p1"; AJoin "Chitra" "p2"; AStart 0 create_deck;
   ABid 1 None; ABid 2 None; ABid 0 None;
   ASelectTrump 0 "clubs" "J_clubs"].

Definition sample_exchange : GameState :=
  Eval vm_compute in
    default sample_seated (run_actions sample3_actions sample3_created).

(** The end of a game the trumper's team (seats 1 and 3, bid 160) has lost:
    seat 0 has taken every trick. *)
Definition sample_lost : GameState :=
  set_tricks_won (<[0 := create_deck]> ∅) (set_phase PLAYING sample_scored).

Definition sample_lost_scored : Dict * GameState :=
  Eval vm_compute in default ([], sample_lost) (_score_game sample_lost).

(** ** The table and the bidding round *)

(** What an operation on cards leaves alone: the table, the dealer and the
    outcome of the bidding. *)
Definition round_of (st : GameState) :=
  (mode st, map Player.seat (players st), dealer_seat st, bids st,
   current_bid st, trumper_seat st, bid_turn_seat st).

(** [cb], with amount [a], is a bid of the round that every other bid is
    strictly below. *)
Definition highest_bid (st : GameState) (cb : Bid) (a : Z) : Prop :=
  cb ∈ bids st ∧ Bid.amount cb = Some a
  ∧ 150 ≤ a ≤ 304 ∧ (a = 304 ∨ a mod 10 = 0)
  ∧ 0 ≤ Bid.seat cb < mode st
  ∧ ∀ b x, b ∈ bids st → Bid.amount b = Some x → b = cb ∨ x < a.

(** What holds of the table and of the bidding in every state of a game:
    the seats are numbered in joining order and the dealer sits at the
    table; nobody is to play before the playing phase; while the bidding
    lasts no seat has bid twice, the seat to bid has not bid yet and the
    current bid is the highest; afterwards the trumper is the seat of the
    highest bid. *)
Record round_inv (st : GameState) : Prop := {
  rnd_seats :
    map Player.seat (players st) = py_range (Z.of_nat (length (players st)));
  rnd_dealer : phase st ≠ WAITING → 0 ≤ dealer_seat st < mode st;
  rnd_idle :
    phase st ∈ [WAITING; DEALING; BIDDING; TRUMP_SELECTION; CARD_EXCHANGE] →
    turn_seat st = None;
  rnd_bidding :
    phase st = BIDDING →
    NoDup (map Bid.seat (bids st))
    ∧ (∃ s, bid_turn_seat st = Some s ∧ 0 ≤ s < mode st
            ∧ s ∉ map Bid.seat (bids st))
    ∧ match current_bid st with
      | None => bid_amounts (bids st) = []
      | Some cb => ∃ a, highest_bid st cb a
      end;
  rnd_trumper :
    phase st ∈ [TRUMP_SELECTION; CARD_EXCHANGE; PLAYING; SCORING] →
    ∃ cb a, current_bid st = Some cb ∧ highest_bid st cb a
            ∧ trumper_seat st = Some (Bid.seat cb)
}.

(** The four-seat sample game while the bidding lasts: seat 0 has dealt,
    seat 1 has opened with 160 and seat 2 is to bid. *)
Definition sample_round_actions : list Action :=
  [AJoin "Binu" "p1"; AJoin "Chitra" "p2"; AJoin "Dev" "p3";
   AStart 0 sample_shuffle; ABid 1 (Some 160)].

Definition sample_round : GameState :=
  Eval vm_compute in
    default sample_seated (run_actions sample_round_actions sample_created).

(** ** The trick in progress *)

(** Every card of the trick in progress was played from a seat of the
    table. *)
Definition trick_seated (st : GameState) : Prop :=
  ∀ tc, tc ∈ current_trick st →
        TrickCard.seat tc ∈ map Player.seat (players st).


(** ** The hands while a trick is played *)

(** From [st] to [st'] every seat keeps its cards, in place, and may have
    picked up more behind them. *)
Definition hands_extended (st st' : GameState) : Prop :=
  ∀ seat p, get_player_by_seat st seat = Some p →
    ∃ extra, get_player_by_seat st' seat
             = Some (Player.set_hand (Player.hand p ++ extra) p).
(** * Properties *)

(** ** Dictionaries *)

Lemma dict_get_set k k' v d :
  dict_get k (dict_set k' v d) = if String.eqb k k' then Some v else dict_get k d.
Proof.
  induction d as [|[k0 v0] d IH]; simpl.
  - done.
  - destruct (String.eqb k' k0) eqn:E0; simpl.
    + apply String.eqb_eq in E0 as ->. by destruct (String.eqb k k0).
    + rewrite IH. destruct (String.eqb k k0) eqn:E1, (String.eqb k k') eqn:E2; try done.
      apply String.eqb_eq in E1 as ->. apply String.eqb_eq in E2 as ->.
      by rewrite String.eqb_refl in E0.
Qed.

Lemma dict_has_set k k' v d :
  dict_has k (dict_set k' v d) = String.eqb k k' || dict_has k d.
Proof. unfold dict_has. rewrite dict_get_set. by destruct (String.eqb k k'). Qed.

(** ** Card identifiers *)

Lemma Card_from_id_id (c : Card) : Card.from_id (Card.id c) = Some c.
Proof. by destruct c as [[] []]. Qed.

Lemma Suit_of_value_value (s : Suit) : Suit_of_value (Suit_value s) = Some s.
Proof. by destruct s. Qed.

Lemma GamePhase_of_value_value (p : GamePhase) :
  GamePhase_of_value (GamePhase_value p) = Some p.
Proof. by destruct p. Qed.

(** ** Returned errors leave the game unchanged *)

Lemma reveal_trump_error st seat msg st' :
  reveal_trump st seat = Some ((false, msg), st') → st' = st.
Proof.
  unfold reveal_trump. intros H.
  repeat (case_match; simplify_option_eq); done.
Qed.

Lemma skip_exchange_error st seat result st' :
  skip_exchange st seat = Some ((false, result), st') → st' = st.
Proof.
  unfold skip_exchange. intros H.
  repeat (case_match; simplify_option_eq); done.
Qed.

Lemma apply_action_error a st result st' :
  apply_action a st = Some ((false, result), st') → st' = st.
Proof.
  destruct a; simpl; intros H.
  - unfold join_game in H. repeat (case_match; simplify_option_eq); done.
  - unfold wrap_msg, start_game in H. repeat (case_match; simplify_option_eq); done.
  - unfold handle_bid in H. repeat (case_match; simplify_option_eq); done.
  - unfold handle_trump_selection in H. repeat (case_match; simplify_option_eq); done.
  - unfold handle_card_exchange in H. repeat (case_match; simplify_option_eq); done.
  - unfold handle_skip_exchange in H.
    destruct (skip_exchange st seat) as [[[[] r0] s0]|] eqn:E; simplify_eq/=.
    by apply skip_exchange_error in E.
  - unfold handle_play_card in H. repeat (case_match; simplify_option_eq); done.
  - unfold handle_ask_trump in H.
    repeat (case_match; simplify_eq/=; try done).
  - unfold handle_reveal_trump in H.
    repeat (case_match; simplify_eq/=; try done).
    destruct (reveal_trump st (Some seat)) as [[[[] m0] s0]|] eqn:E; simplify_eq/=.
    + destruct (reveal_payload s0); simplify_eq/=.
    + by apply reveal_trump_error in E.
  - unfold handle_timeout in H. repeat (case_match; simplify_option_eq); done.
  - unfold wrap_msg, next_game in H. repeat (case_match; simplify_option_eq); done.
  - unfold _on_connect in H. repeat (case_match; simplify_eq/=; try done).
  - unfold _on_disconnect in H. repeat (case_match; simplify_eq/=; try done).
Qed.

(** C5: whenever one of the action handlers ([handle_bid] for bid and pass,
    [handle_trump_selection], [handle_card_exchange], [handle_skip_exchange],
    [handle_play_card], [handle_ask_trump], [handle_reveal_trump], and the
    other operations routed by [apply_action]) returns an error, the game
    state after the call is the state before it. *)
Theorem handler_error_leaves_game_unchanged a st result st' :
  apply_action a st = Some ((false, result), st') → st' = st.
Proof. apply apply_action_error. Qed.

Lemma handler_error_leaves_game_unchanged_witness :
  apply_action (APlayCard 2 "7_spades") sample_playing
    = Some ((false, [("error", VStr "You don't have that card")]), sample_playing)
  ∧ sample_playing = sample_playing.
Proof.
  split; [reflexivity|].
  apply (handler_error_leaves_game_unchanged (APlayCard 2 "7_spades") sample_playing
           [("error", VStr "You don't have that card")] sample_playing).
  reflexivity.
Defined.

(** ** Playing a concealed trump *)

Lemma filter_none {A} (P : A → Prop) `{∀ x, Decision (P x)} (l : list A) :
  (∀ x, x ∈ l → ¬ P x) → filter P l = [].
Proof.
  intros Hl. destruct (filter P l) as [|x k] eqn:E; [done|].
  assert (x ∈ filter P l) as [Hx Hin]%list_elem_of_filter
    by (rewrite E; apply elem_of_cons; by left).
  by destruct (Hl x Hin).
Qed.

Lemma get_valid_cards_void st seat p cs :
  get_player_by_seat st seat = Some p →
  get_calling_suit st = Some cs →
  (∀ c, c ∈ Player.hand p → Card.suit c ≠ cs) →
  get_valid_cards st seat = Some (Player.hand p).
Proof.
  intros Hp Hcs Hvoid. unfold get_valid_cards. rewrite Hp, Hcs. simpl.
  destruct (Player.hand p) as [|c h] eqn:Hh; [done|].
  rewrite <- Hh in *.
  assert (filter (λ c, Card.suit c = cs) (Player.hand p) = []) as ->; [|done].
  apply filter_none. intros x Hx. by apply Hvoid.
Qed.

(** ** The [is_cut] flag of a concealed-trump play *)

Lemma dict_get_update_absent k d e :
  dict_get k e = None → dict_get k (dict_update d e) = dict_get k d.
Proof.
  unfold dict_update. revert d. induction e as [|[k' v'] e IH]; intros d He; [done|].
  simpl in *. destruct (String.eqb k k') eqn:E; [done|].
  rewrite IH by done. by rewrite dict_get_set, E.
Qed.

Lemma _resolve_trick_no_is_cut st r st' :
  _resolve_trick st = Some (r, st') →
  dict_get "is_cut" r = None ∧ dict_get "card_played" r = None.
Proof.
  unfold _resolve_trick. intros H.
  apply bind_Some in H as (first & _ & H). cbv zeta in H.
  apply bind_Some in H as ([result2 st2] & Hdraw & H). cbv beta iota in H.
  assert (Hr2 : dict_get "is_cut" result2 = None
                ∧ dict_get "card_played" result2 = None).
  { destruct (_ && _) in Hdraw.
    - apply bind_Some in Hdraw as ([draws st3] & _ & Hdraw).
      by injection Hdraw as <- _.
    - by injection Hdraw as <- _. }
  clear Hdraw. destruct Hr2 as [Hr2 Hr2'].
  apply bind_Some in H as (he & _ & H). cbv beta in H.
  destruct he.
  { injection H as <- _. by rewrite !dict_get_set. }
  destruct (_ && _) in H.
  { apply bind_Some in H as ([result3 st3] & Hrev & H). injection H as <- _.
    rewrite !dict_get_set. cbn [String.eqb Ascii.eqb Bool.eqb].
    destruct (negb _) in Hrev.
    - apply bind_Some in Hrev as ([rr st4] & _ & Hrev). injection Hrev as <- _.
      by rewrite !dict_get_set.
    - by injection Hrev as <- _. }
  destruct (forallb _ _) in H.
  { injection H as <- _. by rewrite !dict_get_set. }
  injection H as <- _. by rewrite !dict_get_set.
Qed.

Lemma _score_game_no_is_cut st r st' :
  _score_game st = Some (r, st') →
  dict_get "is_cut" r = None ∧ dict_get "card_played" r = None.
Proof.
  unfold _score_game. cbv zeta. intros H.
  destruct (check_spoilt_trump _) in H.
  { by injection H as <- _. }
  apply bind_Some in H as (cb & _ & H).
  apply bind_Some in H as (bid_amount & _ & H).
  destruct (get_scoring_points bid_amount) as [win_points lose_points].
  by injection H as <- _.
Qed.

Lemma play_card_concealed_is_cut st seat card r st' :
  trump_revealed st = false →
  play_card st seat card = Some (r, st') →
  dict_get "is_cut" r = Some (VBool false)
  ∧ dict_get "card_played" r = Some (VStr (Card.id card)).
Proof.
  intros Hrev. unfold play_card. intros H.
  apply bind_Some in H as (st1 & Hrm & H). cbv zeta in H.
  unfold hand_remove in Hrm. apply bind_Some in Hrm as (ps & _ & Hrm).
  injection Hrm as <-.
  change (trump_revealed (set_players ps st)) with (trump_revealed st) in H.
  rewrite Hrev in H.
  assert (Hcut : match get_calling_suit (set_players ps st) with
                 | Some calling_suit =>
                     bool_decide (Card.suit card ≠ calling_suit) && false
                     && bool_decide (Some (Card.suit card) = trump_suit (set_players ps st))
                 | None => false
                 end = false).
  { destruct (get_calling_suit _); [|done]. by rewrite andb_false_r. }
  rewrite Hcut in H. clear Hcut.
  destruct (bool_decide _) in H.
  - apply bind_Some in H as ([tr st3] & Hres & H). injection H as <- _.
    apply _resolve_trick_no_is_cut in Hres as [Hc Hp].
    by rewrite !dict_get_update_absent.
  - apply bind_Some in H as (nxt & _ & H). injection H as <- _.
    split; reflexivity.
Qed.

Lemma score_if_over_keeps result st r st' :
  score_if_over result st = Some (r, st') →
  dict_get "is_cut" r = dict_get "is_cut" result
  ∧ dict_get "card_played" r = dict_get "card_played" result.
Proof.
  unfold score_if_over. intros H. destruct (truthy _) in H.
  - apply bind_Some in H as ([sc st1] & Hs & H). injection H as <- _.
    apply _score_game_no_is_cut in Hs as [Hc Hp].
    by rewrite !dict_get_update_absent.
  - by injection H as <- _.
Qed.

(** C1 (counterexample): in [sample_playing] seat 2 is void in the calling
    suit and submits the jack of hearts while hearts is the concealed trump;
    the play is accepted, the card leaves the hand and joins the trick. *)
Lemma concealed_cut_not_rejected :
  phase sample_playing = PLAYING
  ∧ turn_seat sample_playing = Some 2
  ∧ get_calling_suit sample_playing = Some SPADES
  ∧ (∃ p, get_player_by_seat sample_playing 2 = Some p
          ∧ ∀ c, c ∈ Player.hand p → Card.suit c ≠ SPADES)
  ∧ trump_suit sample_playing = Some (Card.suit (Card.mk HEARTS JACK))
  ∧ trump_revealed sample_playing = false
  ∧ ¬ concealed_cut_rejected sample_playing 2 (Card.mk HEARTS JACK)
  ∧ ∃ result st',
      handle_play_card sample_playing 2 (Card.id (Card.mk HEARTS JACK))
        = Some ((true, result), st')
      ∧ current_trick st' = [TrickCard.mk 1 (Card.mk SPADES JACK);
                             TrickCard.mk 2 (Card.mk HEARTS JACK)]
      ∧ (Player.hand <$> get_player_by_seat st' 2) = Some [Card.mk DIAMONDS SEVEN].
Proof.
  repeat split; try reflexivity.
  - eexists; split; [reflexivity|]. simpl. intros c Hc.
    repeat (apply elem_of_cons in Hc as [->|Hc]; [done|]).
    by apply elem_of_nil in Hc.
  - intros [err Herr]. vm_compute in Herr. discriminate.
  - eexists _, _. split; [vm_compute; reflexivity|]. split; reflexivity.
Qed.

(** ** The per-seat view *)

(** C7: the view of a seat has the keys [trump_suit] and [trump_card] if and
    only if trump is revealed or the viewer is the trumper; so a seat that is
    not the trumper sees neither while trump is concealed. *)
Theorem view_trump_fields_iff st seat view :
  get_player_view st seat = Some view →
  (dict_has "trump_suit" view = true
     ↔ trump_revealed st = true ∨ trumper_seat st = Some seat)
  ∧ (dict_has "trump_card" view = true
     ↔ trump_revealed st = true ∨ trumper_seat st = Some seat)
  ∧ (trump_revealed st = false → trumper_seat st ≠ Some seat →
     dict_get "trump_suit" view = None ∧ dict_get "trump_card" view = None).
Proof.
  unfold get_player_view. intros Hview.
  destruct (trump_revealed st) eqn:Hrev;
    [|destruct (bool_decide (Some seat = trumper_seat st)) eqn:Htr];
    (destruct (bool_decide (turn_seat st = Some seat) && bool_decide (phase st = PLAYING));
     [destruct (get_valid_cards st seat) as [valid|]; [|done]|]);
    destruct (bool_decide (phase st = BIDDING));
    destruct (bool_decide (mode st ∈ [2; 3]));
    simpl in Hview; injection Hview as <-;
    try apply bool_decide_eq_true_1 in Htr;
    try apply bool_decide_eq_false_1 in Htr;
    unfold dict_has; rewrite ?dict_get_set; simpl;
    (split; [|split]); try (split; intros; by eauto);
    try (intros ? ?; congruence);
    try (split; [done|]; intros [?|?]; congruence).
Qed.

Lemma view_trump_fields_iff_witness :
  ∃ view, get_player_view sample_playing 2 = Some view
  ∧ (dict_has "trump_suit" view = true
       ↔ trump_revealed sample_playing = true ∨ trumper_seat sample_playing = Some 2)
  ∧ (dict_has "trump_card" view = true
       ↔ trump_revealed sample_playing = true ∨ trumper_seat sample_playing = Some 2)
  ∧ (trump_revealed sample_playing = false → trumper_seat sample_playing ≠ Some 2 →
     dict_get "trump_suit" view = None ∧ dict_get "trump_card" view = None).
Proof.
  eexists. split; [reflexivity|].
  apply (view_trump_fields_iff sample_playing 2). reflexivity.
Defined.

(** ** Auto-play *)

Lemma random_choice_elem {A} (r : nat) (l : list A) :
  l ≠ [] → ∃ x, random_choice r l = Some x ∧ x ∈ l.
Proof.
  intros Hl. unfold random_choice.
  assert (Hlt : (r mod length l < length l)%nat).
  { apply Nat.mod_upper_bound. by destruct l. }
  apply lookup_lt_is_Some_2 in Hlt as [x Hx].
  exists x. split; [done|]. by eapply list_elem_of_lookup_2.
Qed.

Lemma get_valid_cards_follow st seat valid cs c :
  get_valid_cards st seat = Some valid →
  get_calling_suit st = Some cs →
  c ∈ valid → Card.suit c = cs →
  ∀ c', c' ∈ valid → Card.suit c' = cs.
Proof.
  unfold get_valid_cards. intros Hv Hcs Hc Hsuit c' Hc'.
  destruct (get_player_by_seat st seat) as [p|]; [|done]. simpl in Hv.
  rewrite Hcs in Hv.
  destruct (Player.hand p) as [|h0 hs] eqn:Hh.
  { injection Hv as <-. by apply elem_of_nil in Hc. }
  rewrite <- Hh in Hv.
  destruct (filter (λ c, Card.suit c = cs) (Player.hand p)) as [|x k] eqn:Hf.
  - injection Hv as <-.
    by destruct (filter_nil_not_elem_of (λ c, Card.suit c = cs) _ c Hf Hsuit).
  - injection Hv as <-. rewrite <- Hf in Hc'.
    by apply list_elem_of_filter in Hc' as [? _].
Qed.

(** C8: with trump concealed, a calling suit led and a legal card outside the
    trump suit, the card [auto_play] plays is outside the trump suit for every
    outcome [r1], [r2] of the random choices. *)
Theorem auto_play_never_plays_concealed_trump st seat valid cs r1 r2 :
  phase st = PLAYING →
  trump_revealed st = false →
  get_calling_suit st = Some cs →
  get_valid_cards st seat = Some valid →
  (∃ c, c ∈ valid ∧ Some (Card.suit c) ≠ trump_suit st) →
  ∃ card,
    auto_play_pick st valid r1 r2 = Some card
    ∧ card ∈ valid
    ∧ Some (Card.suit card) ≠ trump_suit st
    ∧ auto_play st seat r1 r2 = play_card st seat card.
Proof.
  intros _ Hrev Hcs Hvalid (c0 & Hc0 & Hnt).
  assert (Hne : valid ≠ []) by (intros ->; by apply elem_of_nil in Hc0).
  destruct (random_choice_elem r1 valid Hne) as (card & Hr1 & Hcard).
  assert (Hpick : ∃ card', auto_play_pick st valid r1 r2 = Some card'
                           ∧ card' ∈ valid ∧ Some (Card.suit card') ≠ trump_suit st).
  { unfold auto_play_pick. rewrite Hr1, Hcs, Hrev. simpl.
    case_bool_decide as Hsuit; simpl.
    - destruct (filter (λ c, Some (Card.suit c) ≠ trump_suit st) valid) as [|x k] eqn:Hf.
      + by destruct (filter_nil_not_elem_of
                       (λ c, Some (Card.suit c) ≠ trump_suit st) _ c0 Hf Hnt).
      + rewrite <- Hf.
        destruct (random_choice_elem r2 (filter (λ c, Some (Card.suit c) ≠ trump_suit st) valid))
          as (card' & Hr2 & Hcard'); [by rewrite Hf|].
        exists card'. apply list_elem_of_filter in Hcard' as [? ?]. done.
    - exists card. split; [done|]. split; [done|].
      assert (Card.suit card = cs) as Hs by (by destruct (decide (Card.suit card = cs))).
      rewrite Hs.
      rewrite <- (get_valid_cards_follow st seat valid cs card Hvalid Hcs Hcard Hs c0 Hc0).
      done. }
  destruct Hpick as (card' & Hp & Hin & Hnt').
  exists card'. repeat split; try done.
  unfold auto_play. rewrite Hvalid. simpl. rewrite Hp. simpl.
  by destruct valid.
Qed.

Lemma auto_play_never_plays_concealed_trump_witness :
  ∃ card,
    auto_play_pick sample_playing
      [Card.mk HEARTS JACK; Card.mk DIAMONDS SEVEN] 0 5 = Some card
    ∧ card ∈ [Card.mk HEARTS JACK; Card.mk DIAMONDS SEVEN]
    ∧ Some (Card.suit card) ≠ trump_suit sample_playing
    ∧ auto_play sample_playing 2 0 5 = play_card sample_playing 2 card.
Proof.
  apply (auto_play_never_plays_concealed_trump sample_playing 2
           [Card.mk HEARTS JACK; Card.mk DIAMONDS SEVEN] SPADES 0 5);
    try reflexivity.
  exists (Card.mk DIAMONDS SEVEN). split; [|done].
  apply elem_of_cons; right. apply elem_of_cons; by left.
Defined.

(** ** Dealing *)

(** Symbolic execution on a game with all seats taken: the record, the list
    of players and every player are opened, so that the seats are numerals
    and the code of the model evaluates. *)
Ltac open_state st :=
  destruct st as [gc md ph ps dl dk cp bs cb bts tps tsu tcd trv exd ctr tw
                  tus tdl tno lds sc gpl cat tt].

Ltac open_players ps :=
  repeat (destruct ps as [|[? ? ? ? ?] ps]; simplify_eq/=).

Ltac open_seats st :=
  match goal with
  | H : seats_filled st |- _ =>
      open_state st; destruct H as [Hmode Hseats]; simpl in Hmode, Hseats;
      repeat (apply elem_of_cons in Hmode as [->|Hmode]);
      [| | |by apply elem_of_nil in Hmode];
      [change (py_range 2) with [0; 1] in *
      |change (py_range 3) with [0; 1; 2] in *
      |change (py_range 4) with [0; 1; 2; 3] in *];
      match goal with Hs : map Player.seat ?ps = _ |- _ => open_players ps end
  end.

Ltac open_dealer H :=
  simpl in H; repeat (apply elem_of_cons in H as [->|H]);
  [..|by apply elem_of_nil in H].

Ltac open_deck shuffled H :=
  do 32 (destruct shuffled as [|? shuffled]; [discriminate H|]);
  (destruct shuffled; [clear H|discriminate H]).

(** The sizes [deal] leaves, by running it on every table of 2, 3 or 4 seats
    and every dealer. *)
Lemma deal_sizes st shuffled :
  seats_filled st →
  dealer_seat st ∈ py_range (mode st) →
  length shuffled = 32%nat →
  ∃ st' nxt p,
    deal shuffled st = Some st'
    ∧ deck st' = []
    ∧ next_seat st (dealer_seat st) = Some nxt
    ∧ get_player_by_seat st' nxt = Some p
    ∧ take 4 (Player.hand p) = take 4 shuffled
    ∧ (mode st = 4 → hand_sizes 8 st' ∧ center_pile st' = [])
    ∧ (mode st = 3 → hand_sizes 10 st' ∧ length (center_pile st') = 2%nat)
    ∧ (mode st = 2 → hand_sizes 10 st' ∧ length (center_pile st') = 12%nat).
Proof.
  intros Hfilled Hdealer Hlen.
  open_seats st; open_dealer Hdealer; open_deck shuffled Hlen;
    (eexists _, _, _; split; [vm_compute; reflexivity|]);
    (split; [reflexivity|]); (split; [vm_compute; reflexivity|]);
    (split; [vm_compute; reflexivity|]); (split; [reflexivity|]);
    repeat split; try discriminate; try reflexivity;
    unfold hand_sizes; simpl; by repeat constructor.
Qed.


(** ** Bidding *)

(** C6: when bidding opens (no bid yet, first turn left of the dealer) and
    every seated player passes in turn, every pass is accepted and the last
    one concludes the bidding: a bid of 150 is appended for the dealer, it is
    the current bid, the dealer is the trumper and the phase is
    [TRUMP_SELECTION]. *)
Theorem all_pass_forces_dealer_bid st :
  seats_filled st →
  dealer_seat st ∈ py_range (mode st) →
  phase st = BIDDING →
  bids st = [] →
  current_bid st = None →
  bid_turn_seat st = next_seat st (dealer_seat st) →
  ∃ st' passes,
    pass_round (length (players st)) st = Some st'
    ∧ phase st' = TRUMP_SELECTION
    ∧ current_bid st' = Some (Bid.mk (dealer_seat st) (Some 150))
    ∧ trumper_seat st' = Some (dealer_seat st)
    ∧ bids st' = passes ++ [Bid.mk (dealer_seat st) (Some MIN_BID)]
    ∧ length passes = length (players st)
    ∧ Forall (fun b => Bid.amount b = None) passes.
Proof.
  intros Hfilled Hdealer Hphase Hbids Hcb Hturn.
  open_seats st; open_dealer Hdealer;
    vm_compute in Hturn; subst;
    (eexists _, _; split; [vm_compute; reflexivity|]);
    repeat split; try reflexivity;
    lazymatch goal with
    | |- bids _ = _ => simpl;
        lazymatch goal with
        | |- ?l = _ => instantiate (1 := removelast l); reflexivity
        end
    | |- _ => idtac
    end;
    simpl; try reflexivity; by repeat constructor.
Qed.

Lemma all_pass_forces_dealer_bid_witness :
  ∃ st' passes,
    pass_round (length (players sample_bidding)) sample_bidding = Some st'
    ∧ phase st' = TRUMP_SELECTION
    ∧ current_bid st' = Some (Bid.mk (dealer_seat sample_bidding) (Some 150))
    ∧ trumper_seat st' = Some (dealer_seat sample_bidding)
    ∧ bids st' = passes ++ [Bid.mk (dealer_seat sample_bidding) (Some MIN_BID)]
    ∧ length passes = length (players sample_bidding)
    ∧ Forall (fun b => Bid.amount b = None) passes.
Proof.
  apply (all_pass_forces_dealer_bid sample_bidding); try reflexivity.
  - split; [|reflexivity]. simpl. by repeat constructor.
  - simpl. by repeat constructor.
Defined.

(** ** Counting cards *)

Lemma card_count_app c l k :
  card_count c (l ++ k) = (card_count c l + card_count c k)%nat.
Proof. apply count_occ_app. Qed.

Lemma card_count_nil c : card_count c [] = 0%nat.
Proof. done. Qed.

Lemma hands_cons p ps : hands (p :: ps) = Player.hand p ++ hands ps.
Proof. done. Qed.

Lemma hands_app ps qs : hands (ps ++ qs) = hands ps ++ hands qs.
Proof. unfold hands. by rewrite map_app, concat_app. Qed.

Lemma all_cards_count c st :
  card_count c (all_cards st)
  = (card_count c (hands (players st)) + card_count c (center_pile st)
     + card_count c (won_cards (tricks_won st))
     + card_count c (map TrickCard.card (current_trick st))
     + card_count c (concealed_trump st))%nat.
Proof. unfold all_cards. rewrite !card_count_app. lia. Qed.

Lemma list_remove_first_count x l l' c :
  list_remove_first x l = Some l' →
  (card_count c l' + card_count c [x] = card_count c l)%nat.
Proof.
  revert l'. induction l as [|y l IH]; intros l' H; simpl in H; [done|].
  case_bool_decide as Hy.
  - injection H as <-. subst y. change (x :: l) with ([x] ++ l).
    rewrite card_count_app. lia.
  - destruct (list_remove_first x l) as [k|] eqn:E; [|done].
    injection H as <-. specialize (IH k eq_refl).
    change (y :: k) with ([y] ++ k). change (y :: l) with ([y] ++ l).
    rewrite !card_count_app. lia.
Qed.

Lemma update_hand_length seat g ps ps' :
  update_hand seat g ps = Some ps' → length ps' = length ps.
Proof.
  revert ps'. induction ps as [|p ps IH]; intros ps' H; simpl in H; [done|].
  case_bool_decide.
  - destruct (g (Player.hand p)); simplify_eq/=. done.
  - destruct (update_hand seat g ps) as [qs|]; simplify_eq/=.
    f_equal. by apply IH.
Qed.

Lemma update_hand_unhanded seat g ps ps' :
  update_hand seat g ps = Some ps' →
  map (Player.set_hand []) ps' = map (Player.set_hand []) ps.
Proof.
  revert ps'. induction ps as [|p ps IH]; intros ps' H; simpl in H; [done|].
  case_bool_decide.
  - destruct (g (Player.hand p)); simplify_eq/=. done.
  - destruct (update_hand seat g ps) as [qs|]; simplify_eq/=.
    f_equal. by apply IH.
Qed.

(** A change [g] of one hand that trades [a] copies of [c] for [b] trades
    as many in the hands together. *)
Lemma update_hand_count seat g ps ps' c (a b : nat) :
  update_hand seat g ps = Some ps' →
  (∀ h h', g h = Some h' → (card_count c h' + a = card_count c h + b)%nat) →
  (card_count c (hands ps') + a = card_count c (hands ps) + b)%nat.
Proof.
  intros H Hg. revert ps' H.
  induction ps as [|p ps IH]; intros ps' H; simpl in H; [done|].
  case_bool_decide.
  - destruct (g (Player.hand p)) as [h'|] eqn:E; simplify_eq/=.
    rewrite !hands_cons, !card_count_app. simpl.
    specialize (Hg _ _ E). lia.
  - destruct (update_hand seat g ps) as [qs|]; simplify_eq/=.
    rewrite !hands_cons, !card_count_app. specialize (IH qs eq_refl). lia.
Qed.

Lemma hand_extend_spec seat cs st st' :
  hand_extend seat cs st = Some st' →
  ∃ ps, st' = set_players ps st
        ∧ length ps = length (players st)
        ∧ map (Player.set_hand []) ps = map (Player.set_hand []) (players st)
        ∧ ∀ c, card_count c (hands ps)
               = (card_count c (hands (players st)) + card_count c cs)%nat.
Proof.
  unfold hand_extend. intros H.
  destruct (update_hand _ _ (players st)) as [ps|] eqn:E; simplify_eq/=.
  exists ps. repeat split.
  - by eapply update_hand_length.
  - by eapply update_hand_unhanded.
  - intros c. pose proof (update_hand_count _ _ _ _ c 0 (card_count c cs) E) as Hc.
    rewrite Nat.add_0_r in Hc. apply Hc.
    intros h h' [= <-]. rewrite card_count_app. lia.
Qed.

Lemma hand_remove_spec seat card st st' :
  hand_remove seat card st = Some st' →
  ∃ ps, st' = set_players ps st
        ∧ length ps = length (players st)
        ∧ map (Player.set_hand []) ps = map (Player.set_hand []) (players st)
        ∧ ∀ c, (card_count c (hands ps) + card_count c [card]
                = card_count c (hands (players st)))%nat.
Proof.
  unfold hand_remove. intros H.
  destruct (update_hand _ _ (players st)) as [ps|] eqn:E; simplify_eq/=.
  exists ps. repeat split.
  - by eapply update_hand_length.
  - by eapply update_hand_unhanded.
  - intros c. pose proof (update_hand_count _ _ _ _ c (card_count c [card]) 0 E) as Hc.
    rewrite Nat.add_0_r in Hc. apply Hc.
    intros h h' Hr. apply (list_remove_first_count _ _ _ c) in Hr. lia.
Qed.

(** The trick piles after [tricks_won[k].extend(cs)]. *)
Lemma won_cards_extend (tw : gmap Z (list Card)) k cs c :
  card_count c (won_cards (<[k := default [] (tw !! k) ++ cs]> tw))
  = (card_count c (won_cards tw) + card_count c cs)%nat.
Proof.
  unfold won_cards.
  assert (Hperm : ∀ l1 l2 : list (Z * list Card), l1 ≡ₚ l2 →
            card_count c (concat (map snd l1)) = card_count c (concat (map snd l2))).
  { intros l1 l2 Hl. unfold card_count.
    apply Permutation_count_occ. by rewrite Hl. }
  destruct (tw !! k) as [old|] eqn:E; simpl.
  - rewrite <- (insert_delete_eq tw k (old ++ cs)).
    rewrite (Hperm _ _ (map_to_list_insert _ _ _ (lookup_delete_eq tw k))).
    rewrite <- (Hperm _ _ (map_to_list_delete _ _ _ E)).
    simpl. rewrite !card_count_app. lia.
  - rewrite (Hperm _ _ (map_to_list_insert _ _ _ E)).
    simpl. rewrite !card_count_app. lia.
Qed.
(** ** Dealing conserves the deck *)

Lemma slice_split {A} (l : list A) (a b c : nat) :
  (a ≤ b)%nat → (b ≤ c)%nat → slice l a c = slice l a b ++ slice l b c.
Proof.
  intros Hab Hbc. unfold slice.
  replace (c - a)%nat with ((b - a) + (c - b))%nat by lia.
  rewrite <- take_take_drop, drop_drop.
  by replace (a + (b - a))%nat with b by lia.
Qed.

Lemma slice_from_0 {A} (l : list A) (b : nat) : slice l 0 b = take b l.
Proof. unfold slice. by rewrite Nat.sub_0_r, drop_0. Qed.

Lemma deal_batch_spec dk b order st idx st' idx' :
  deal_batch dk b order st idx = Some (st', idx') →
  idx' = (idx + b * length order)%nat
  ∧ ∃ ps, st' = set_players ps st
          ∧ length ps = length (players st)
          ∧ map (Player.set_hand []) ps = map (Player.set_hand []) (players st)
          ∧ ∀ c, card_count c (hands ps)
                 = (card_count c (hands (players st))
                    + card_count c (slice dk idx idx'))%nat.
Proof.
  revert st idx. induction order as [|seat order IH]; intros st idx H; simpl in H.
  - injection H as <- <-. split; [simpl; lia|]. exists (players st).
    repeat split; [by destruct st|].
    intros c. unfold slice. rewrite Nat.sub_diag. simpl. rewrite ?card_count_nil. lia.
  - destruct (hand_extend seat _ st) as [st1|] eqn:E; [|done]. simpl in H.
    apply hand_extend_spec in E as (ps1 & -> & Hlen1 & Hun1 & Hc1).
    apply IH in H as (-> & ps & -> & Hlen & Hun & Hc). simpl in *.
    split; [lia|]. exists ps. repeat split; try congruence.
    intros c. rewrite Hc, Hc1.
    rewrite (slice_split dk idx (idx + b) (idx + b + b * length order)) by lia.
    rewrite card_count_app. lia.
Qed.

Lemma deal_rounds_spec dk batches order st idx st' idx' :
  deal_rounds dk batches order st idx = Some (st', idx') →
  idx' = (idx + foldr Nat.add 0 batches * length order)%nat
  ∧ ∃ ps, st' = set_players ps st
          ∧ length ps = length (players st)
          ∧ map (Player.set_hand []) ps = map (Player.set_hand []) (players st)
          ∧ ∀ c, card_count c (hands ps)
                 = (card_count c (hands (players st))
                    + card_count c (slice dk idx idx'))%nat.
Proof.
  revert st idx. induction batches as [|b batches IH]; intros st idx H; simpl in H.
  - injection H as <- <-. split; [simpl; lia|]. exists (players st).
    repeat split; [by destruct st|].
    intros c. unfold slice. rewrite Nat.sub_diag. simpl. rewrite ?card_count_nil. lia.
  - destruct (deal_batch dk b order st idx) as [[st1 idx1]|] eqn:E; [|done]. simpl in H.
    apply deal_batch_spec in E as (-> & ps1 & -> & Hlen1 & Hun1 & Hc1).
    apply IH in H as (-> & ps & -> & Hlen & Hun & Hc). simpl in *.
    split; [lia|]. exists ps. repeat split; try congruence.
    intros c. rewrite Hc, Hc1.
    rewrite (slice_split dk idx (idx + b * length order)
               (idx + b * length order + foldr Nat.add 0%nat batches * length order)) by lia.
    rewrite card_count_app. lia.
Qed.

Lemma hands_cleared ps : hands (map (Player.set_hand []) ps) = [].
Proof. induction ps as [|p ps IH]; [done|]. by rewrite map_cons, hands_cons, IH. Qed.

Lemma mapM_length {A B} (f : A → option B) l k :
  mapM f l = Some k → length k = length l.
Proof. intros H. apply mapM_Some in H. by apply Forall2_length in H. Qed.

(** [deal] writes the players (same table, new hands), the center pile and
    the deck; with a full table the hands and the center pile hold the
    shuffled deck. *)
Lemma deal_spec shuffled st st' :
  deal shuffled st = Some st' →
  ∃ ps cp,
    st' = set_deck [] (set_center_pile cp (set_players ps st))
    ∧ length ps = length (players st)
    ∧ map (Player.set_hand []) ps = map (Player.set_hand []) (players st)
    ∧ (cp = [] ∨ ∃ k, cp = drop k shuffled)
    ∧ (mode st ∈ [2; 3; 4] →
       Z.of_nat (length (players st)) = mode st →
       length shuffled = 32%nat →
       ∀ c, (card_count c (hands ps) + card_count c cp)%nat = card_count c shuffled).
Proof.
  unfold deal. intros H.
  destruct (index_of _ _) as [dealer_idx|]; [|done]. cbn -[deal_rounds] in H.
  destruct (mapM _ _) as [deal_order|] eqn:Hord; [|done]. cbn -[deal_rounds] in H.
  apply mapM_length in Hord. rewrite length_seq in Hord.
  repeat case_bool_decide.
  - destruct (deal_rounds _ _ _ _ _) as [[st1 idx1]|] eqn:E; [|done].
    simpl in H. injection H as <-.
    apply deal_rounds_spec in E as (-> & ps & -> & Hlen & Hun & Hc). simpl in *.
    rewrite length_map in Hlen. rewrite map_map in Hun. simpl in Hun.
    exists ps, (drop (10 * length deal_order) shuffled).
    repeat split; try done; [by eauto|].
    intros _ _ _ c. rewrite Hc, hands_cleared, slice_from_0, card_count_nil.
    rewrite <- (take_drop (10 * length deal_order) shuffled) at 3.
    rewrite card_count_app. simpl. lia.
  - destruct (deal_rounds _ _ _ _ _) as [[st1 idx1]|] eqn:E; [|done].
    simpl in H. injection H as <-.
    apply deal_rounds_spec in E as (-> & ps & -> & Hlen & Hun & Hc). simpl in *.
    rewrite length_map in Hlen. rewrite map_map in Hun. simpl in Hun.
    exists ps, (drop (10 * length deal_order) shuffled).
    repeat split; try done; [by eauto|].
    intros _ _ _ c. rewrite Hc, hands_cleared, slice_from_0, card_count_nil.
    rewrite <- (take_drop (10 * length deal_order) shuffled) at 3.
    rewrite card_count_app. simpl. lia.
  - destruct (deal_rounds _ _ _ _ _) as [[st1 idx1]|] eqn:E; [|done].
    simpl in H. injection H as <-.
    apply deal_rounds_spec in E as (-> & ps & -> & Hlen & Hun & Hc). simpl in *.
    rewrite length_map in Hlen. rewrite map_map in Hun. simpl in Hun.
    exists ps, []. repeat split; try done; [by eauto|].
    intros _ Hn Hl c. rewrite Hc, hands_cleared, slice_from_0, !card_count_nil.
    rewrite take_ge by lia. lia.
  - injection H as <-. exists (map (Player.set_hand []) (players st)), [].
    repeat split; try done.
    + by rewrite length_map.
    + rewrite map_map. done.
    + by eauto.
    + intros Hm. exfalso.
      repeat (apply elem_of_cons in Hm as [?|Hm]; [done|]). by apply elem_of_nil in Hm.
Qed.

(** C9: with all seats taken, [deal] hands the shuffled deck out from the
    seat clockwise of the dealer (that seat's hand opens with the first four
    cards): 8 cards a hand and no center pile in mode 4, 10 cards a hand and
    2 in the center in mode 3, 10 cards a hand and 12 in the center in mode 2;
    the [deck] field ends empty, and the hands together with the center pile
    hold exactly the cards of the shuffled deck, each as often as the deck
    does. *)
Theorem deal_hand_sizes st shuffled :
  seats_filled st →
  dealer_seat st ∈ py_range (mode st) →
  length shuffled = 32%nat →
  ∃ st' nxt p,
    deal shuffled st = Some st'
    ∧ deck st' = []
    ∧ next_seat st (dealer_seat st) = Some nxt
    ∧ get_player_by_seat st' nxt = Some p
    ∧ take 4 (Player.hand p) = take 4 shuffled
    ∧ (mode st = 4 → hand_sizes 8 st' ∧ center_pile st' = [])
    ∧ (mode st = 3 → hand_sizes 10 st' ∧ length (center_pile st') = 2%nat)
    ∧ (mode st = 2 → hand_sizes 10 st' ∧ length (center_pile st') = 12%nat)
    ∧ concat (map Player.hand (players st')) ++ center_pile st' ≡ₚ shuffled.
Proof.
  intros Hfilled Hdealer Hlen.
  destruct (deal_sizes st shuffled Hfilled Hdealer Hlen)
    as (st' & nxt & p & Hdeal & Hdeck & Hnxt & Hp & Hfirst & H4 & H3 & H2).
  exists st', nxt, p. repeat (split; [done|]).
  destruct Hfilled as [Hmode Hseats].
  assert (Hn : Z.of_nat (length (players st)) = mode st).
  { apply (f_equal length) in Hseats. unfold py_range in Hseats.
    rewrite !length_map, length_seq in Hseats.
    assert (0 ≤ mode st); [|lia].
    repeat (apply elem_of_cons in Hmode as [->|Hmode]); try lia.
    by apply elem_of_nil in Hmode. }
  apply deal_spec in Hdeal as (ps & cp & -> & _ & _ & _ & Hc).
  specialize (Hc Hmode Hn Hlen). simpl.
  apply (Permutation_count_occ Card_eq_dec). intros c.
  specialize (Hc c). unfold card_count, hands in Hc.
  by rewrite count_occ_app.
Qed.

Lemma deal_hand_sizes_witness :
  ∃ st' nxt p,
    deal create_deck sample_seated = Some st'
    ∧ deck st' = []
    ∧ next_seat sample_seated (dealer_seat sample_seated) = Some nxt
    ∧ get_player_by_seat st' nxt = Some p
    ∧ take 4 (Player.hand p) = take 4 create_deck
    ∧ (mode sample_seated = 4 → hand_sizes 8 st' ∧ center_pile st' = [])
    ∧ (mode sample_seated = 3 → hand_sizes 10 st' ∧ length (center_pile st') = 2%nat)
    ∧ (mode sample_seated = 2 → hand_sizes 10 st' ∧ length (center_pile st') = 12%nat)
    ∧ concat (map Player.hand (players st')) ++ center_pile st' ≡ₚ create_deck.
Proof.
  apply (deal_hand_sizes sample_seated create_deck).
  - split; [|reflexivity]. simpl. by repeat constructor.
  - simpl. by repeat constructor.
  - reflexivity.
Defined.

(** ** The invariant of a game *)

Lemma create_deck_count c : card_count c create_deck = 1%nat.
Proof. destruct c as [[] []]; vm_compute; reflexivity. Qed.

Lemma conserved_iff_Permutation st : conserved st ↔ all_cards st ≡ₚ create_deck.
Proof.
  unfold conserved. split.
  - intros H. apply (Permutation_count_occ Card_eq_dec). intros c.
    fold (card_count c (all_cards st)). fold (card_count c create_deck).
    by rewrite H, create_deck_count.
  - intros H c. rewrite <- (create_deck_count c). unfold card_count.
    by apply Permutation_count_occ.
Qed.

Lemma shuffled_count shuffled c :
  shuffled ≡ₚ create_deck → card_count c shuffled = 1%nat.
Proof.
  intros H. rewrite <- (create_deck_count c). unfold card_count.
  by apply Permutation_count_occ.
Qed.

Lemma shuffled_length shuffled : shuffled ≡ₚ create_deck → length shuffled = 32%nat.
Proof. intros H. by rewrite H. Qed.

Lemma card_move_refl st : card_move st st.
Proof. unfold card_move. naive_solver. Qed.

Lemma card_move_trans st1 st2 st3 :
  card_move st1 st2 → card_move st2 st3 → card_move st1 st3.
Proof.
  unfold card_move.
  intros (? & ? & ? & ? & ? & Hp1 & Hc1) (? & ? & ? & ? & ? & Hp2 & Hc2).
  split; [congruence|]. split; [congruence|]. split; [congruence|].
  split; [congruence|]. split; [congruence|]. split.
  - destruct Hp2 as [Hp2|Hp2]; [|by right].
    rewrite Hp2. done.
  - intros c. by rewrite Hc2, Hc1.
Qed.

Lemma not_early_phase (ph : GamePhase) :
  ph ∈ [CARD_EXCHANGE; PLAYING; SCORING] →
  ph ≠ WAITING ∧ ph ∉ [WAITING; DEALING; BIDDING; TRUMP_SELECTION].
Proof.
  intros H. repeat (apply elem_of_cons in H as [->|H]);
    try (split; [done|]; intros H';
         repeat (apply elem_of_cons in H' as [?|H']; [done|]);
         by apply elem_of_nil in H').
  by apply elem_of_nil in H.
Qed.

Lemma card_move_inv st st' :
  game_inv st → phase st ≠ WAITING → card_move st st' → game_inv st'.
Proof.
  intros [Httl Hmode Hwait Hstart Hnt Hsuit] Hph
         (Ht & Hm & Hl & Htc & Hts & Hp & Hc).
  destruct (Hstart Hph) as [Hn Hcons].
  assert (Hph' : phase st' ≠ WAITING).
  { destruct Hp as [->|Hp]; [done|]. by apply not_early_phase in Hp as [? _]. }
  split.
  - congruence.
  - by rewrite Hm.
  - done.
  - intros _. split; [congruence|]. intros c. by rewrite Hc.
  - intros He. rewrite Htc. apply Hnt.
    destruct Hp as [<-|Hp]; [done|]. by apply not_early_phase in Hp as [_ ?].
  - intros c. rewrite Htc, Hts. apply Hsuit.
Qed.

(** *** Seating *)

Lemma py_range_S (n : nat) :
  py_range (Z.of_nat (S n)) = py_range (Z.of_nat n) ++ [Z.of_nat n].
Proof.
  unfold py_range. rewrite !Nat2Z.id, seq_S, map_app. done.
Qed.

Lemma elem_of_py_range (n : nat) (i : Z) :
  i ∈ py_range (Z.of_nat n) ↔ 0 ≤ i < Z.of_nat n.
Proof.
  unfold py_range. rewrite Nat2Z.id, list_elem_of_fmap. split.
  - intros (k & -> & Hk). apply elem_of_seq in Hk. lia.
  - intros Hi. exists (Z.to_nat i). split; [lia|]. apply elem_of_seq. lia.
Qed.

Lemma find_free_seat (k m : nat) :
  (k < m)%nat →
  find (fun i => bool_decide (i ∉ py_range (Z.of_nat k))) (py_range (Z.of_nat m))
  = Some (Z.of_nat k).
Proof.
  intros Hkm.
  change (py_range (Z.of_nat m)) with (map Z.of_nat (seq 0 (Z.to_nat (Z.of_nat m)))).
  rewrite (Nat2Z.id m).
  replace m with (k + (m - k))%nat by lia.
  rewrite seq_app, map_app.
  assert (Hpre : ∀ l, Forall (λ i, i ∈ py_range (Z.of_nat k)) l →
            ∀ r, find (fun i => bool_decide (i ∉ py_range (Z.of_nat k))) (l ++ r)
                 = find (fun i => bool_decide (i ∉ py_range (Z.of_nat k))) r).
  { intros l Hl r. induction Hl as [|x l Hx Hl IH]; [done|]. simpl.
    by rewrite bool_decide_eq_false_2 by (by intros ?). }
  rewrite Hpre.
  - destruct (m - k)%nat as [|d] eqn:E; [lia|]. simpl.
    rewrite bool_decide_eq_true_2; [done|].
    rewrite elem_of_py_range. lia.
  - apply Forall_forall. intros i Hi. apply list_elem_of_fmap in Hi as (j & -> & Hj).
    apply elem_of_seq in Hj. apply elem_of_py_range. lia.
Qed.

Lemma join_game_inv st player_name player_id r st' :
  game_inv st →
  join_game st player_name player_id = Some ((true, r), st') →
  game_inv st'.
Proof.
  intros [Httl Hmode Hwait Hstart Hnt Hsuit]. unfold join_game. intros H.
  case_bool_decide as Hph; [done|].
  case_bool_decide as Hfull; [done|].
  destruct (Hwait Hph) as (Hle & Hseats & Hh & Hcp & Htw & Hct & Htc & Htu).
  rewrite Hseats in H.
  assert (Hm : py_range (mode st) = py_range (Z.of_nat (Z.to_nat (mode st))))
    by (rewrite Z2Nat.id; [done|lia]).
  rewrite Hm, (find_free_seat (length (players st)) (Z.to_nat (mode st))) in H by lia.
  simpl in H. injection H as _ <-.
  split; simpl; try done.
  - intros _. rewrite length_app, map_app, hands_app, Hh. simpl.
    rewrite Nat.add_1_r, py_range_S, Hseats. repeat split; try done. lia.
Qed.
(** *** Operations that move no card *)

Lemma same_cards_refl st : same_cards st st.
Proof. by repeat split. Qed.

Lemma same_cards_all_cards st st' : same_cards st st' → all_cards st' = all_cards st.
Proof.
  intros (_ & _ & Hp & Hc & Hw & Ht & Htc & Htr & _).
  unfold all_cards, concealed_trump. by rewrite Hp, Hc, Hw, Ht, Htc, Htr.
Qed.

Lemma same_cards_move st st' :
  same_cards st st' →
  phase st' = phase st ∨ phase st' ∈ [CARD_EXCHANGE; PLAYING; SCORING] →
  card_move st st'.
Proof.
  intros Hs Hp. pose proof (same_cards_all_cards _ _ Hs) as Ha.
  destruct Hs as (? & ? & Hps & _ & _ & _ & ? & _ & ?).
  repeat split; try done; [by rewrite Hps|]. intros c. by rewrite Ha.
Qed.

Lemma start_bidding_spec st st' :
  start_bidding st = Some st' →
  ∃ nxt, st' = set_bid_turn_seat (Some nxt)
                 (set_current_bid None (set_bids [] (set_phase BIDDING st))).
Proof.
  unfold start_bidding. intros H.
  destruct (next_seat _ _) as [nxt|]; [|done]. injection H as <-. by exists nxt.
Qed.

Lemma _set_first_player_spec st st' :
  _set_first_player st = Some st' →
  ∃ first, st' = set_trick_number 1 (set_lead_seat first (set_turn_seat first st)).
Proof.
  unfold _set_first_player. intros H.
  destruct (match current_bid st with Some _ => _ | None => _ end) as [first|];
    [|done].
  injection H as <-. by exists first.
Qed.

Lemma _conclude_bidding_same st :
  same_cards st (_conclude_bidding st).2
  ∧ phase (_conclude_bidding st).2 = TRUMP_SELECTION.
Proof. unfold _conclude_bidding. destruct (current_bid st); by repeat split. Qed.

Lemma _advance_bidding_loop_same n st current r st' :
  _advance_bidding_loop n st current = Some (r, st') →
  same_cards st st' ∧ (phase st' = phase st ∨ phase st' = TRUMP_SELECTION).
Proof.
  revert current. induction n as [|n IH]; intros current H; simpl in H.
  - injection H as H. pose proof (_conclude_bidding_same st) as [Hs Hp].
    destruct (_conclude_bidding st) as [r0 st0]. simplify_eq/=. eauto.
  - destruct current as [cur|]; [|done]. simpl in H.
    destruct (next_seat st cur) as [nxt|]; [|done]. simpl in H.
    destruct (_player_has_bid st nxt); [by eapply IH|].
    injection H as _ <-. split; [by repeat split|by left].
Qed.

Lemma place_bid_same st seat amount r st' :
  place_bid st seat amount = Some (r, st') →
  same_cards st st' ∧ (phase st' = phase st ∨ phase st' = TRUMP_SELECTION).
Proof.
  unfold place_bid, _advance_bidding. intros H.
  apply _advance_bidding_loop_same in H as [Hs Hp].
  destruct amount; simpl in *; (split; [|done]);
    destruct Hs as (? & ? & ? & ? & ? & ? & ? & ? & ?); by repeat split.
Qed.

Lemma validate_bid_phase st seat amount msg :
  validate_bid st seat amount = (true, msg) → phase st = BIDDING.
Proof.
  unfold validate_bid. intros H. case_bool_decide as Hph; [done|].
  by destruct (decide (phase st = BIDDING)).
Qed.

Lemma handle_bid_inv st seat amount r st' :
  game_inv st →
  handle_bid st seat amount = Some ((true, r), st') →
  game_inv st'.
Proof.
  intros [Httl Hmode Hwait Hstart Hnt Hsuit]. unfold handle_bid. intros H.
  destruct (validate_bid st seat amount) as [[] err] eqn:Hv; [|done]. simpl in H.
  apply validate_bid_phase in Hv.
  destruct (place_bid st seat amount) as [[r0 st0]|] eqn:Hp; [|done].
  simpl in H. injection H as _ <-.
  apply place_bid_same in Hp as [Hs Hp].
  pose proof (same_cards_all_cards _ _ Hs) as Ha.
  destruct Hs as (Ht & Hm & Hps & _ & _ & _ & Htc & _ & Hts).
  assert (Hne : phase st ≠ WAITING) by (by rewrite Hv).
  destruct (Hstart Hne) as [Hn Hcons].
  assert (Hnone : trump_card st = None).
  { apply Hnt. rewrite Hv. by repeat constructor. }
  split.
  - congruence.
  - by rewrite Hm.
  - intros Hw. destruct Hp as [Hp|Hp]; rewrite Hp in Hw; [by rewrite Hv in Hw|done].
  - intros _. rewrite Hps, Hm. split; [done|]. intros c. by rewrite Ha.
  - intros _. by rewrite Htc.
  - intros c. rewrite Htc, Hnone. done.
Qed.

(** *** A fresh deal *)

Lemma won_cards_empty : won_cards ∅ = [].
Proof. unfold won_cards. by rewrite map_to_list_empty. Qed.

Lemma fresh_deal_inv shuffled st st1 st' :
  ttl st = None → mode st ∈ [2; 3; 4] →
  Z.of_nat (length (players st)) = mode st →
  tricks_won st = ∅ → current_trick st = [] → trump_card st = None →
  shuffled ≡ₚ create_deck →
  deal shuffled st = Some st1 →
  start_bidding st1 = Some st' →
  game_inv st'.
Proof.
  intros Httl Hmode Hn Htw Hct Htc Hsh Hdeal Hbid.
  apply deal_spec in Hdeal as (ps & cp & -> & Hlen & Hun & _ & Hc).
  apply start_bidding_spec in Hbid as (nxt & ->).
  specialize (Hc Hmode Hn (shuffled_length _ Hsh)).
  split; simpl; try done.
  - intros _. split; [by rewrite Hlen|].
    intros c. rewrite all_cards_count. unfold concealed_trump. simpl.
    rewrite Htw, Hct, Htc, won_cards_empty. simpl.
    destruct (trump_revealed st); simpl; rewrite ?card_count_nil;
      specialize (Hc c); rewrite (shuffled_count _ c Hsh) in Hc; lia.
  - intros c. by rewrite Htc.
Qed.

Lemma start_game_inv st r shuffled msg st' :
  game_inv st →
  shuffled ≡ₚ create_deck →
  start_game st r shuffled = Some ((true, msg), st') →
  game_inv st'.
Proof.
  intros [Httl Hmode Hwait Hstart Hnt Hsuit] Hsh. unfold start_game. intros H.
  case_bool_decide as Hph; [done|].
  case_bool_decide as Hfull; [done|].
  destruct (Hwait Hph) as (Hle & Hseats & Hh & Hcp & Htw & Hct & Htc & Htu).
  destruct (random_choice _ _) as [dealer|]; [|done]. simpl in H.
  destruct (deal _ _) as [st1|] eqn:Hdeal; [|done]. simpl in H.
  destruct (start_bidding st1) as [st2|] eqn:Hbid; [|done]. simpl in H.
  injection H as _ <-.
  by eapply (fresh_deal_inv shuffled _ st1 st2); [..|exact Hdeal|exact Hbid].
Qed.

Lemma next_game_reset_spec st mid :
  next_game_reset st = Some mid →
  ttl mid = ttl st ∧ mode mid = mode st ∧ players mid = players st
  ∧ tricks_won mid = ∅ ∧ current_trick mid = [] ∧ trump_card mid = None.
Proof.
  unfold next_game_reset. intros H.
  apply bind_Some in H as (dealer & _ & H). injection H as <-. by repeat split.
Qed.

Lemma next_game_inv st shuffled msg st' :
  game_inv st →
  shuffled ≡ₚ create_deck →
  next_game st shuffled = Some ((true, msg), st') →
  game_inv st'.
Proof.
  intros [Httl Hmode Hwait Hstart Hnt Hsuit] Hsh. unfold next_game. intros H.
  case_bool_decide as Hph; [done|].
  assert (Hne : phase st ≠ WAITING) by (by rewrite Hph).
  destruct (Hstart Hne) as [Hn _].
  apply bind_Some in H as (mid & Hreset & H).
  apply bind_Some in H as (st1 & Hdeal & H).
  apply bind_Some in H as (st2 & Hbid & H).
  injection H as _ <-.
  apply next_game_reset_spec in Hreset as (Et & Em & Ep & Ew & Ec & Etc).
  eapply (fresh_deal_inv shuffled (set_phase DEALING mid) st1 st2);
    simpl; try done; congruence.
Qed.
(** *** Trump selection, exchange and reveal *)

Lemma validate_trump_selection_ok st seat suit card msg :
  validate_trump_selection st seat suit card = Some (true, msg) →
  phase st = TRUMP_SELECTION ∧ Card.suit card = suit.
Proof.
  unfold validate_trump_selection. intros H.
  case_bool_decide as Hph; [done|].
  case_bool_decide; [done|].
  case_bool_decide as Hs; [done|].
  split.
  - by destruct (decide (phase st = TRUMP_SELECTION)).
  - by destruct (decide (Card.suit card = suit)).
Qed.

Lemma card_count_singleton c x :
  card_count c [x] = if decide (x = c) then 1%nat else 0%nat.
Proof.
  unfold card_count. simpl. destruct (Card_eq_dec x c), (decide (x = c)); done.
Qed.

Lemma select_trump_inv st seat suit card r st' :
  game_inv st →
  phase st = TRUMP_SELECTION → Card.suit card = suit →
  select_trump st seat suit card = Some (r, st') →
  game_inv st'.
Proof.
  intros [Httl Hmode Hwait Hstart Hnt Hsuit] Hph Hcs. unfold select_trump. intros H.
  assert (Hne : phase st ≠ WAITING) by (by rewrite Hph).
  destruct (Hstart Hne) as [Hn Hcons].
  assert (Hnone : trump_card st = None).
  { apply Hnt. rewrite Hph. by repeat constructor. }
  apply bind_Some in H as (st1 & Hrm & H).
  apply hand_remove_spec in Hrm as (ps & -> & Hlen & _ & Hc).
  assert (Hcount : ∀ s0 : GameState,
            players s0 = ps → center_pile s0 = center_pile st →
            tricks_won s0 = tricks_won st → current_trick s0 = current_trick st →
            trump_card s0 = Some card → trump_revealed s0 = false →
            conserved s0).
  { intros s0 E1 E2 E3 E4 E5 E6 c. specialize (Hcons c). specialize (Hc c).
    rewrite all_cards_count in *. unfold concealed_trump in *.
    rewrite E1, E2, E3, E4, E5, E6. rewrite Hnone in Hcons. simpl in *.
    destruct (trump_revealed st); simpl in *; rewrite ?card_count_nil in *; lia. }
  case_bool_decide.
  - injection H as _ <-. split; simpl; try done.
    + intros _. split; [by rewrite Hlen|]. by apply Hcount.
    + intros He. repeat (apply elem_of_cons in He as [?|He]; [done|]).
      by apply elem_of_nil in He.
    + intros c [= <-]. by rewrite Hcs.
  - apply bind_Some in H as (st2 & Hfp & H). injection H as _ <-.
    apply _set_first_player_spec in Hfp as (first & ->).
    split; simpl; try done.
    + intros _. split; [by rewrite Hlen|]. by apply Hcount.
    + intros He. repeat (apply elem_of_cons in He as [?|He]; [done|]).
      by apply elem_of_nil in He.
    + intros c [= <-]. by rewrite Hcs.
Qed.

Lemma handle_trump_selection_inv st seat suit_str card_id r st' :
  game_inv st →
  handle_trump_selection st seat suit_str card_id = Some ((true, r), st') →
  game_inv st'.
Proof.
  intros Hinv. unfold handle_trump_selection. intros H.
  destruct (Suit_of_value suit_str) as [suit|]; [|done].
  destruct (Card.from_id card_id) as [card|]; [|done].
  apply bind_Some in H as ([valid err] & Hv & H).
  destruct valid; [|done]. simpl in H.
  apply validate_trump_selection_ok in Hv as [Hph Hs].
  apply bind_Some in H as ([r0 st0] & Hsel & H).
  injection H as _ <-. by eapply select_trump_inv.
Qed.

Lemma hand_remove_all_spec seat cards st st' :
  hand_remove_all seat cards st = Some st' →
  ∃ ps, st' = set_players ps st
        ∧ length ps = length (players st)
        ∧ ∀ c, (card_count c (hands ps) + card_count c cards
                = card_count c (hands (players st)))%nat.
Proof.
  revert st. induction cards as [|card cards IH]; intros st H; simpl in H.
  - injection H as <-. exists (players st). repeat split; [by destruct st|].
    intros c. rewrite card_count_nil. lia.
  - apply bind_Some in H as (st1 & Hrm & H).
    apply hand_remove_spec in Hrm as (ps1 & -> & Hlen1 & _ & Hc1).
    apply IH in H as (ps & -> & Hlen & Hc). simpl in *.
    exists ps. repeat split; [congruence|].
    intros c. specialize (Hc c). specialize (Hc1 c).
    change (card :: cards) with ([card] ++ cards). rewrite card_count_app. lia.
Qed.

Lemma exchange_cards_move st seat cards r st' :
  exchange_cards st seat cards = Some (r, st') → card_move st st'.
Proof.
  unfold exchange_cards. intros H.
  apply bind_Some in H as (pl & _ & H).
  apply bind_Some in H as (st1 & Hrm & H).
  apply hand_remove_all_spec in Hrm as (ps1 & -> & Hlen1 & Hc1).
  apply bind_Some in H as (st2 & Hex & H).
  apply hand_extend_spec in Hex as (ps2 & -> & Hlen2 & _ & Hc2). simpl in *.
  apply bind_Some in H as (st3 & Hfp & H). injection H as _ <-.
  apply _set_first_player_spec in Hfp as (first & ->).
  unfold card_move. simpl. repeat split; try congruence.
  - right. by repeat constructor.
  - intros c. rewrite !all_cards_count. unfold concealed_trump. simpl.
    specialize (Hc1 c). specialize (Hc2 c). lia.
Qed.

Lemma skip_exchange_move st seat r st' :
  skip_exchange st seat = Some ((true, r), st') → card_move st st'.
Proof.
  unfold skip_exchange. intros H.
  case_bool_decide; [done|]. case_bool_decide; [done|].
  apply bind_Some in H as (st3 & Hfp & H). injection H as _ <-.
  apply _set_first_player_spec in Hfp as (first & ->).
  apply same_cards_move; [by repeat split|]. right. simpl. by repeat constructor.
Qed.

Lemma reveal_trump_move st seat r st' :
  reveal_trump st seat = Some (r, st') → card_move st st'.
Proof.
  unfold reveal_trump. intros H.
  destruct (trump_revealed st) eqn:Hrev.
  { injection H as _ <-. apply card_move_refl. }
  destruct (trump_suit st) as [ts|] eqn:Hts.
  2:{ injection H as _ <-. apply card_move_refl. }
  cbn -[hand_extend] in H. destruct (trump_card st) as [tc|] eqn:Htc.
  - apply bind_Some in H as (tseat & _ & H).
    apply bind_Some in H as (st1 & Hex & H). injection H as _ <-.
    apply hand_extend_spec in Hex as (ps & -> & Hlen & _ & Hc). simpl in *.
    unfold card_move. simpl. repeat split; try congruence; [by left|].
    intros c. rewrite !all_cards_count. unfold concealed_trump. simpl.
    rewrite Hrev, Htc. simpl. specialize (Hc c). rewrite card_count_nil. lia.
  - injection H as _ <-. unfold card_move. simpl.
    repeat split; try congruence; [by left|].
    intros c. rewrite !all_cards_count. unfold concealed_trump. simpl.
    rewrite Hrev, Htc. done.
Qed.
(** *** Playing a card and resolving a trick *)

Lemma _draw_loop_move seats st draws d st' :
  _draw_loop seats st draws = Some (d, st') → card_move st st'.
Proof.
  revert st draws. induction seats as [|seat seats IH]; intros st draws H; simpl in H.
  { injection H as _ <-. apply card_move_refl. }
  destruct (center_pile st) as [|card pile] eqn:Hcp.
  { injection H as _ <-. apply card_move_refl. }
  apply bind_Some in H as (st1 & Hex & H).
  apply hand_extend_spec in Hex as (ps & -> & Hlen & _ & Hc). simpl in *.
  apply IH in H. eapply card_move_trans; [|exact H].
  unfold card_move. simpl. repeat split; try congruence; [by left|].
  intros c. rewrite !all_cards_count. unfold concealed_trump. simpl.
  rewrite Hcp. change (card :: pile) with ([card] ++ pile).
  rewrite card_count_app. specialize (Hc c). lia.
Qed.

Lemma _draw_cards_2p_move st seat d st' :
  _draw_cards_2p st seat = Some (d, st') → card_move st st'.
Proof.
  unfold _draw_cards_2p. intros H.
  apply bind_Some in H as (nxt & _ & H). by eapply _draw_loop_move.
Qed.

Lemma _resolve_trick_move st r st' :
  _resolve_trick st = Some (r, st') → card_move st st'.
Proof.
  unfold _resolve_trick. intros H.
  apply bind_Some in H as (first & Hhead & H). cbv zeta in H.
  remember (set_trick_number _ (set_current_trick [] (set_tricks_won _ st)))
    as st1 eqn:E1 in H.
  assert (Hm1 : card_move st st1).
  { subst st1. unfold card_move. simpl. repeat split; try done; [by left|].
    intros c. rewrite !all_cards_count. unfold concealed_trump. simpl.
    rewrite won_cards_extend, card_count_nil. lia. }
  clear E1.
  apply bind_Some in H as ([result2 st2] & Hdraw & H). cbv beta iota in H.
  assert (Hm2 : card_move st1 st2).
  { destruct (_ && _) in Hdraw.
    - apply bind_Some in Hdraw as ([draws st3] & Hd & Hdraw).
      injection Hdraw as _ <-. by eapply _draw_cards_2p_move.
    - injection Hdraw as _ <-. apply card_move_refl. }
  eapply card_move_trans; [exact Hm1|]. eapply card_move_trans; [exact Hm2|].
  clear Hm1 Hm2 Hdraw Hhead.
  apply bind_Some in H as (he & _ & H). cbv beta in H.
  destruct he.
  { injection H as _ <-. apply card_move_refl. }
  destruct (_ && _) in H.
  { apply bind_Some in H as ([result3 st3] & Hrev & H). injection H as _ <-.
    destruct (negb _) in Hrev.
    - apply bind_Some in Hrev as ([rr st4] & Hr & Hrev). injection Hrev as _ <-.
      by eapply reveal_trump_move.
    - injection Hrev as _ <-. apply card_move_refl. }
  destruct (forallb _ _) in H.
  { injection H as _ <-. apply card_move_refl. }
  injection H as _ <-. apply same_cards_move; [by repeat split|by left].
Qed.

Lemma play_card_move st seat card r st' :
  play_card st seat card = Some (r, st') → card_move st st'.
Proof.
  unfold play_card. intros H.
  apply bind_Some in H as (st1 & Hrm & H). cbv zeta in H.
  apply hand_remove_spec in Hrm as (ps & -> & Hlen & _ & Hc).
  remember (set_current_trick _ (set_players ps st)) as st2 eqn:E2 in H.
  assert (Hm : card_move st st2).
  { subst st2. unfold card_move. simpl. repeat split; try done; [by left|].
    intros c. rewrite !all_cards_count. unfold concealed_trump. simpl.
    rewrite map_app, card_count_app. simpl. specialize (Hc c). lia. }
  clear E2. eapply card_move_trans; [exact Hm|].
  destruct (bool_decide _) in H.
  - apply bind_Some in H as ([tr st3] & Hres & H). injection H as _ <-.
    by eapply _resolve_trick_move.
  - apply bind_Some in H as (nxt & _ & H). injection H as _ <-.
    apply same_cards_move; [by repeat split|by left].
Qed.

Lemma _score_game_move st r st' :
  _score_game st = Some (r, st') → card_move st st'.
Proof.
  unfold _score_game. cbv zeta. intros H.
  destruct (check_spoilt_trump _) in H.
  { injection H as _ <-. apply same_cards_move; [by repeat split|].
    right. simpl. by repeat constructor. }
  apply bind_Some in H as (cb & _ & H).
  apply bind_Some in H as (bid_amount & _ & H).
  destruct (get_scoring_points bid_amount) as [win_points lose_points].
  injection H as _ <-.
  destruct (bool_decide _);
    (apply same_cards_move; [by repeat split|right; simpl; by repeat constructor]).
Qed.

Lemma score_if_over_move result st r st' :
  score_if_over result st = Some (r, st') → card_move st st'.
Proof.
  unfold score_if_over. intros H. destruct (truthy _) in H.
  - apply bind_Some in H as ([sc st1] & Hs & H). injection H as _ <-.
    by eapply _score_game_move.
  - injection H as _ <-. apply card_move_refl.
Qed.

Lemma validate_play_phase st seat card w msg :
  validate_play st seat card w = Some (true, msg) → phase st = PLAYING.
Proof.
  unfold validate_play. intros H. case_bool_decide as Hph; [done|].
  by destruct (decide (phase st = PLAYING)).
Qed.

Lemma handle_play_card_inv st seat card_id r st' :
  game_inv st →
  handle_play_card st seat card_id = Some ((true, r), st') →
  game_inv st'.
Proof.
  intros Hinv. unfold handle_play_card. intros H.
  destruct (Card.from_id card_id) as [card|]; [|done]. cbv zeta in H.
  apply bind_Some in H as ([valid err] & Hv & H).
  destruct valid; [|done]. cbn [negb] in H.
  apply validate_play_phase in Hv.
  apply bind_Some in H as ([r1 st1] & Hplay & H).
  apply bind_Some in H as ([r2 st2] & Hscore & H). injection H as _ <-.
  apply (card_move_inv st); [done|by rewrite Hv|].
  eapply card_move_trans; [by eapply play_card_move|by eapply score_if_over_move].
Qed.

Lemma handle_timeout_inv st seat r1 r2 r st' :
  game_inv st →
  handle_timeout st seat r1 r2 = Some ((true, r), st') →
  game_inv st'.
Proof.
  intros Hinv. unfold handle_timeout. intros H.
  case_bool_decide as Hturn; [done|].
  apply bind_Some in H as ([ra st1] & Hplay & H).
  apply bind_Some in H as ([rb st2] & Hscore & H). injection H as _ <-.
  apply (card_move_inv st); [done| |].
  - intros Hw. destruct (inv_waiting st Hinv Hw) as (_ & _ & _ & _ & _ & _ & _ & Htu).
    by rewrite Htu in Hturn.
  - eapply card_move_trans; [|by eapply score_if_over_move].
    unfold auto_play in Hplay.
    apply bind_Some in Hplay as (valid & _ & Hplay).
    destruct valid as [|v0 vs].
    + injection Hplay as _ <-. apply card_move_refl.
    + apply bind_Some in Hplay as (card & _ & Hplay). by eapply play_card_move.
Qed.

Lemma handle_ask_trump_inv st seat r st' :
  game_inv st →
  handle_ask_trump st seat = Some ((true, r), st') →
  game_inv st'.
Proof.
  intros Hinv. unfold handle_ask_trump. intros H.
  destruct (trump_revealed st); [done|].
  case_bool_decide; [done|].
  by case_bool_decide.
Qed.

Lemma handle_reveal_trump_inv st seat r st' :
  game_inv st →
  handle_reveal_trump st seat = Some ((true, r), st') →
  game_inv st'.
Proof.
  intros Hinv. unfold handle_reveal_trump. intros H.
  case_bool_decide; [done|].
  case_bool_decide as Hph; [done|].
  apply bind_Some in H as ([[ok err] st1] & Hrev & H).
  destruct ok; [|done]. cbn [negb] in H.
  apply bind_Some in H as (payload & _ & H). injection H as _ <-.
  apply (card_move_inv st); [done|by rewrite Hph|by eapply reveal_trump_move].
Qed.

Lemma validate_card_exchange_phase st seat cards msg :
  validate_card_exchange st seat cards = Some (true, msg) → phase st = CARD_EXCHANGE.
Proof.
  unfold validate_card_exchange. intros H. case_bool_decide as Hph; [done|].
  by destruct (decide (phase st = CARD_EXCHANGE)).
Qed.

Lemma handle_card_exchange_inv st seat card_ids r st' :
  game_inv st →
  handle_card_exchange st seat card_ids = Some ((true, r), st') →
  game_inv st'.
Proof.
  intros Hinv. unfold handle_card_exchange. intros H.
  destruct (mapM Card.from_id card_ids) as [cards|]; [|done].
  apply bind_Some in H as ([valid err] & Hv & H).
  destruct valid; [|done]. cbn [negb] in H.
  apply validate_card_exchange_phase in Hv.
  apply bind_Some in H as ([r1 st1] & Hex & H). injection H as _ <-.
  apply (card_move_inv st); [done|by rewrite Hv|by eapply exchange_cards_move].
Qed.

Lemma handle_skip_exchange_inv st seat r st' :
  game_inv st →
  handle_skip_exchange st seat = Some ((true, r), st') →
  game_inv st'.
Proof.
  intros Hinv. unfold handle_skip_exchange. intros H.
  apply bind_Some in H as ([[ok r1] st1] & Hskip & H).
  destruct ok; [|done]. injection H as _ <-.
  apply (card_move_inv st); [done| |by eapply skip_exchange_move].
  unfold skip_exchange in Hskip. case_bool_decide as Hph; [done|].
  intros Hw. by rewrite Hw in Hph.
Qed.

(** *** Every state of a game satisfies the invariant *)

Lemma create_game_inv mode creator_name game_code player_id created_at st p :
  create_game mode creator_name game_code player_id created_at = Some (st, p) →
  game_inv st.
Proof.
  unfold create_game. intros H. case_bool_decide as Hm; [done|].
  injection H as <- _. split; simpl; try done.
  intros _. repeat split.
  repeat (apply elem_of_cons in Hm as [->|Hm]); try lia. by apply elem_of_nil in Hm.
Qed.

(** *** Connecting and disconnecting *)

Lemma update_connection_spec pid c ps ps' :
  update_connection pid c ps = Some ps' →
  map (Player.set_connection_id None) ps' = map (Player.set_connection_id None) ps.
Proof.
  revert ps'. induction ps as [|p ps IH]; intros ps' H; simpl in H; [done|].
  destruct (String.eqb _ _).
  - by injection H as <-.
  - apply fmap_Some in H as (qs & Hqs & ->). simpl. f_equal. by apply IH.
Qed.

Lemma unconnected_same ps qs :
  map (Player.set_connection_id None) ps = map (Player.set_connection_id None) qs →
  length ps = length qs
  ∧ map Player.seat ps = map Player.seat qs
  ∧ map Player.hand ps = map Player.hand qs.
Proof.
  intros H. split; [|split].
  - apply (f_equal length) in H. by rewrite !length_map in H.
  - apply (f_equal (map Player.seat)) in H. by rewrite !map_map in H.
  - apply (f_equal (map Player.hand)) in H. by rewrite !map_map in H.
Qed.

Lemma connection_inv st ps :
  map (Player.set_connection_id None) ps
  = map (Player.set_connection_id None) (players st) →
  game_inv st → game_inv (set_players ps st).
Proof.
  intros Hps [Httl Hmode Hwait Hstart Hnt Hsuit].
  apply unconnected_same in Hps as (Hlen & Hseat & Hhand).
  assert (Hh : hands ps = hands (players st)) by (unfold hands; by rewrite Hhand).
  assert (Ha : all_cards (set_players ps st) = all_cards st)
    by (unfold all_cards; simpl; by rewrite Hh).
  split; simpl; try done.
  - intros Hw. rewrite Hlen, Hseat, Hh. by apply Hwait.
  - intros Hph. rewrite Hlen. destruct (Hstart Hph) as [Hn Hc].
    split; [done|]. unfold conserved. by rewrite Ha.
Qed.

Lemma _on_connect_inv st pid c code st' :
  game_inv st → _on_connect st pid c = (code, st') → game_inv st'.
Proof.
  intros Hinv. unfold _on_connect. destruct (String.eqb pid "").
  { by intros [= _ <-]. }
  destruct (update_connection _ _ _) as [ps|] eqn:E; intros [= _ <-]; [|done].
  apply connection_inv; [|done]. by eapply update_connection_spec.
Qed.

Lemma _on_disconnect_inv st pid code st' :
  game_inv st → _on_disconnect st pid = (code, st') → game_inv st'.
Proof.
  intros Hinv. unfold _on_disconnect.
  destruct (update_connection _ _ _) as [ps|] eqn:E; intros [= _ <-]; [|done].
  apply connection_inv; [|done]. by eapply update_connection_spec.
Qed.

Lemma apply_action_inv a st ok result st' :
  game_inv st → action_ok a →
  apply_action a st = Some ((ok, result), st') →
  game_inv st'.
Proof.
  intros Hinv Hok H. destruct ok.
  2:{ apply apply_action_error in H. by subst. }
  destruct a; simpl in H, Hok.
  - apply bind_Some in H as ([[ok r] st1] & Hj & H). injection H as -> _ <-.
    by eapply join_game_inv.
  - unfold wrap_msg in H. apply bind_Some in H as ([[ok msg] st1] & Hs & H).
    injection H as -> _ <-. by eapply start_game_inv.
  - by eapply handle_bid_inv.
  - by eapply handle_trump_selection_inv.
  - by eapply handle_card_exchange_inv.
  - by eapply handle_skip_exchange_inv.
  - by eapply handle_play_card_inv.
  - by eapply handle_ask_trump_inv.
  - by eapply handle_reveal_trump_inv.
  - by eapply handle_timeout_inv.
  - unfold wrap_msg in H. apply bind_Some in H as ([[ok msg] st1] & Hs & H).
    injection H as -> _ <-. by eapply next_game_inv.
  - destruct (_on_connect st player_id connection_id) as [code st1] eqn:E.
    injection H as _ _ <-. by eapply _on_connect_inv.
  - destruct (_on_disconnect st player_id) as [code st1] eqn:E.
    injection H as _ _ <-. by eapply _on_disconnect_inv.
Qed.

Lemma reachable_inv st : reachable st → game_inv st.
Proof.
  induction 1 as [? ? ? ? ? st p Hc|a st ok result st' _ IH Hok Hstep].
  - by eapply create_game_inv.
  - by eapply apply_action_inv.
Qed.
(** ** Card and points conservation *)

Lemma sum_points_Permutation l k : l ≡ₚ k → sum_points l = sum_points k.
Proof.
  induction 1 as [|x l k _ IH|x y l|l k m _ IH1 _ IH2]; simpl; lia.
Qed.

Lemma run_actions_reachable acts st st' :
  reachable st → Forall action_ok acts →
  run_actions acts st = Some st' → reachable st'.
Proof.
  intros Hr Hok. revert st Hr. induction Hok as [|a acts Ha _ IH]; intros st Hr H.
  - by injection H as <-.
  - simpl in H. apply bind_Some in H as ([[ok r] st1] & Hstep & H).
    apply (IH st1); [|done]. by eapply reachable_step.
Qed.

Lemma sample_shuffle_Permutation : sample_shuffle ≡ₚ create_deck.
Proof.
  apply (Permutation_count_occ Card_eq_dec).
  intros [[] []]; vm_compute; reflexivity.
Qed.

Lemma sample_game_reachable : reachable sample_game.
Proof.
  apply (run_actions_reachable sample_actions sample_created).
  - by eapply (reachable_create 4 "Asha" "ABC123" "p0" "2024-01-01T00:00:00+00:00").
  - repeat constructor. apply sample_shuffle_Permutation.
  - by vm_compute.
Qed.

Lemma sample_led_reachable : reachable sample_led.
Proof.
  apply (run_actions_reachable sample_led_actions sample_created).
  - by eapply (reachable_create 4 "Asha" "ABC123" "p0" "2024-01-01T00:00:00+00:00").
  - repeat constructor. apply sample_shuffle_Permutation.
  - vm_compute; reflexivity.
Qed.

Lemma sample_after_trick_reachable : reachable sample_after_trick.
Proof.
  apply (run_actions_reachable sample_trick_actions sample_created).
  - by eapply (reachable_create 4 "Asha" "ABC123" "p0" "2024-01-01T00:00:00+00:00").
  - repeat constructor. apply sample_shuffle_Permutation.
  - vm_compute; reflexivity.
Qed.

(** C2: in every state of a game from the first deal on, the hands, the
    center pile, the trick piles, the trick in progress and the unrevealed
    trump card together are the 32-card deck, each card exactly once, and
    their points add up to 304. *)
Theorem cards_and_points_conserved st :
  reachable st →
  phase st ≠ WAITING →
  all_cards st ≡ₚ create_deck
  ∧ (∀ c, card_count c (all_cards st) = 1%nat)
  ∧ NoDup (all_cards st)
  ∧ sum_points (all_cards st) = 304.
Proof.
  intros Hr Hph. apply reachable_inv in Hr.
  destruct (inv_started st Hr Hph) as [_ Hcons].
  pose proof (proj1 (conserved_iff_Permutation st) Hcons) as Hperm.
  split; [done|]. split; [done|]. split.
  - rewrite Hperm. apply NoDup_ListNoDup, (NoDup_count_occ Card_eq_dec).
    intros c. fold (card_count c create_deck). by rewrite create_deck_count.
  - by rewrite (sum_points_Permutation _ _ Hperm).
Qed.

Lemma cards_and_points_conserved_witness :
  all_cards sample_game ≡ₚ create_deck
  ∧ (∀ c, card_count c (all_cards sample_game) = 1%nat)
  ∧ NoDup (all_cards sample_game)
  ∧ sum_points (all_cards sample_game) = 304.
Proof.
  apply (cards_and_points_conserved sample_game).
  - apply sample_game_reachable.
  - discriminate.
Defined.
(** ** The next game *)

Lemma unhanded_public ps qs :
  map (Player.set_hand []) ps = map (Player.set_hand []) qs →
  map Player.to_public_dict ps = map Player.to_public_dict qs
  ∧ map Player.connection_id ps = map Player.connection_id qs.
Proof.
  intros H.
  assert (Hpub : ∀ l, map Player.to_public_dict l
                      = map Player.to_public_dict (map (Player.set_hand []) l)).
  { intros l. rewrite map_map. reflexivity. }
  assert (Hconn : ∀ l, map Player.connection_id l
                       = map Player.connection_id (map (Player.set_hand []) l)).
  { intros l. rewrite map_map. reflexivity. }
  by rewrite (Hpub ps), (Hpub qs), (Hconn ps), (Hconn qs), H.
Qed.

(** C10: a successful [next_game] starts from [SCORING]; it leaves the game
    code, the mode, every player's id, name and seat, the cumulative scores
    and [games_played] as they were; the per-game fields are cleared before
    the deal ([next_game_reset]), and after the deal and [start_bidding]
    they are still clear, except [bid_turn_seat], which is the seat left of
    the new dealer, and [center_pile], which holds what the deal left. *)
Theorem next_game_frame st shuffled msg st' :
  next_game st shuffled = Some ((true, msg), st') →
  phase st = SCORING
  ∧ (∃ mid,
       next_game_reset st = Some mid
       ∧ (deal shuffled (set_phase DEALING mid) ≫= start_bidding) = Some st'
       ∧ bids mid = [] ∧ current_bid mid = None ∧ bid_turn_seat mid = None
       ∧ trumper_seat mid = None ∧ trump_suit mid = None ∧ trump_card mid = None
       ∧ trump_revealed mid = false ∧ exchange_done mid = false
       ∧ current_trick mid = [] ∧ tricks_won mid = ∅ ∧ turn_seat mid = None
       ∧ turn_deadline mid = None ∧ trick_number mid = 0 ∧ lead_seat mid = None
       ∧ center_pile mid = [])
  ∧ (game_code st' = game_code st ∧ mode st' = mode st
     ∧ map Player.to_public_dict (players st') = map Player.to_public_dict (players st)
     ∧ scores st' = scores st ∧ games_played st' = games_played st)
  ∧ (bids st' = [] ∧ current_bid st' = None
     ∧ trumper_seat st' = None ∧ trump_suit st' = None ∧ trump_card st' = None
     ∧ trump_revealed st' = false ∧ exchange_done st' = false
     ∧ current_trick st' = [] ∧ tricks_won st' = ∅ ∧ turn_seat st' = None
     ∧ turn_deadline st' = None ∧ trick_number st' = 0 ∧ lead_seat st' = None)
  ∧ bid_turn_seat st' = next_seat st' (dealer_seat st')
  ∧ (center_pile st' = [] ∨ ∃ k, center_pile st' = drop k shuffled).
Proof.
  unfold next_game. intros H.
  case_bool_decide as Hph; [done|].
  apply bind_Some in H as (mid & Hreset & H).
  apply bind_Some in H as (st1 & Hdeal & H).
  apply bind_Some in H as (st2 & Hbid & H).
  injection H as _ <-.
  split; [by destruct (decide (phase st = SCORING))|].
  split.
  { exists mid. split; [done|]. split; [by rewrite Hdeal|].
    unfold next_game_reset in Hreset.
    apply bind_Some in Hreset as (dealer & _ & Hreset).
    injection Hreset as <-. by repeat split. }
  assert (Hnext : bid_turn_seat st2 = next_seat st2 (dealer_seat st2)).
  { unfold start_bidding in Hbid.
    apply bind_Some in Hbid as (nxt & Hn & Hbid). injection Hbid as <-.
    simpl. by rewrite <- Hn. }
  apply deal_spec in Hdeal as (ps & cp & -> & Hlen & Hun & Hcp & _).
  apply start_bidding_spec in Hbid as (nxt & ->).
  unfold next_game_reset in Hreset.
  apply bind_Some in Hreset as (dealer & _ & Hreset). injection Hreset as <-.
  simpl in *. apply unhanded_public in Hun as [Hpub _].
  by repeat split.
Qed.

Lemma next_game_frame_witness :
  next_game sample_scored create_deck = Some ((true, ""), sample_next)
  ∧ games_played sample_next = games_played sample_scored
  ∧ scores sample_next = scores sample_scored
  ∧ tricks_won sample_next = ∅.
Proof.
  split; [vm_compute; reflexivity|].
  destruct (next_game_frame sample_scored create_deck "" sample_next)
    as (_ & _ & (_ & _ & _ & Hsc & Hgp) & (_ & _ & _ & _ & _ & _ & _ & _ & Htw & _) & _).
  - vm_compute; reflexivity.
  - by repeat split.
Defined.
(** ** The snapshot codec *)

(** [int] on strings: blanks, a sign and single underscores are accepted,
    as Python does. *)
Lemma py_int_of_str_examples :
  py_int_of_str "  +1_000 " = Some 1000
  ∧ py_int_of_str "-007" = Some (-7)
  ∧ py_int_of_str "0" = Some 0
  ∧ py_int_of_str "" = None
  ∧ py_int_of_str "+" = None
  ∧ py_int_of_str "- 1" = None
  ∧ py_int_of_str "--1" = None
  ∧ py_int_of_str "_1" = None
  ∧ py_int_of_str "1_" = None
  ∧ py_int_of_str "1__0" = None
  ∧ py_int_of_str "12 3" = None.
Proof. repeat split. Qed.

Lemma scan_digits_uint d acc :
  scan_digits (NilEmpty.string_of_uint d) acc (Some true)
  = Some (uint_value d acc, EmptyString).
Proof.
  revert acc. induction d; intros acc; simpl; try done; by rewrite IHd.
Qed.

Lemma uint_value_acc d (acc : positive) :
  uint_value d (Zpos acc) = Zpos (Pos.of_uint_acc d acc).
Proof.
  revert acc. induction d; intros acc; simpl uint_value; simpl Pos.of_uint_acc;
    try done.
  all: rewrite <- IHd; f_equal; lia.
Qed.

Lemma uint_value_0 d : uint_value d 0 = Z.of_N (Pos.of_uint d).
Proof.
  induction d; simpl; try done; by rewrite <- uint_value_acc.
Qed.

Lemma py_int_of_str_uint d :
  d ≠ Decimal.Nil →
  py_int_of_str (NilEmpty.string_of_uint d) = Some (Z.of_N (Pos.of_uint d)).
Proof.
  intros Hd. rewrite <- uint_value_0. unfold py_int_of_str.
  destruct d; [done|..]; simpl; by rewrite scan_digits_uint.
Qed.

Lemma py_int_of_str_neg_uint d :
  d ≠ Decimal.Nil →
  py_int_of_str (String "-" (NilEmpty.string_of_uint d))
  = Some (- Z.of_N (Pos.of_uint d)).
Proof.
  intros Hd. rewrite <- uint_value_0. unfold py_int_of_str.
  destruct d; [done|..]; simpl; by rewrite scan_digits_uint.
Qed.

Lemma py_int_of_str_py_str z : py_int_of_str (py_str z) = Some z.
Proof.
  unfold py_str. destruct z as [|p|p]; [done| |].
  - simpl Z.to_int. simpl NilZero.string_of_int. unfold NilZero.string_of_uint.
    pose proof (DecimalPos.Unsigned.to_uint_nonnil p) as Hn.
    destruct (Pos.to_uint p) eqn:E; [done|..];
      rewrite <- E; rewrite <- E in Hn; rewrite py_int_of_str_uint by done;
      by rewrite DecimalPos.Unsigned.of_to.
  - simpl Z.to_int. simpl NilZero.string_of_int. unfold NilZero.string_of_uint.
    pose proof (DecimalPos.Unsigned.to_uint_nonnil p) as Hn.
    destruct (Pos.to_uint p) eqn:E; [done|..];
      rewrite <- E; rewrite <- E in Hn; rewrite py_int_of_str_neg_uint by done;
      by rewrite DecimalPos.Unsigned.of_to.
Qed.

Lemma mapM_map_inv {A B} (f : B → option A) (g : A → B) (l : list A) :
  (∀ x, f (g x) = Some x) → mapM f (map g l) = Some l.
Proof.
  intros Hfg. induction l as [|x l IH]; [done|].
  simpl. rewrite Hfg. simpl. rewrite IH. done.
Qed.

Lemma cards_of_card_ids l : cards_of (card_ids l) = Some l.
Proof.
  unfold cards_of, card_ids. simpl.
  apply (mapM_map_inv (λ cid, as_str cid ≫= Card.from_id) (λ c, VStr (Card.id c))).
  intros c. simpl. apply Card_from_id_id.
Qed.

Lemma dict_of_pairs_reverse {A} (l : list (Z * A)) :
  dict_of_pairs l = list_to_map (reverse l).
Proof.
  unfold dict_of_pairs, list_to_map. generalize (∅ : gmap Z A).
  induction l as [|x l IH]; intros m0; [done|].
  simpl. rewrite IH, reverse_cons, foldr_app. done.
Qed.

Lemma dict_of_pairs_to_list {A} (m : gmap Z A) : dict_of_pairs (map_to_list m) = m.
Proof.
  rewrite dict_of_pairs_reverse.
  rewrite <- (list_to_map_to_list m) at 2.
  apply list_to_map_proper.
  - rewrite fmap_reverse, reverse_Permutation. apply NoDup_fst_map_to_list.
  - apply reverse_Permutation.
Qed.

Lemma as_opt_str_opt_str o : as_opt_str (opt_str o) = Some o.
Proof. by destruct o. Qed.

Lemma opt_seat_of_opt_int k item o :
  dict_get k item = Some (opt_int o) → opt_seat_of k item = Some o.
Proof.
  unfold opt_seat_of, dict_get_default. intros ->. by destruct o.
Qed.

Lemma deserialize_player_serialize p :
  deserialize_player (VDict (_serialize_player p)) = Some p.
Proof.
  destruct p as [pid n s c h]. unfold deserialize_player, _serialize_player.
  cbn -[cards_of card_ids as_opt_str opt_str].
  rewrite as_opt_str_opt_str. cbn -[cards_of card_ids].
  rewrite cards_of_card_ids. done.
Qed.

Lemma deserialize_bid_to_dict b : deserialize_bid (VDict (Bid.to_dict b)) = Some b.
Proof. destruct b as [s [a|]]; reflexivity. Qed.

Lemma deserialize_trick_card_to_dict tc :
  deserialize_trick_card (VDict (TrickCard.to_dict tc)) = Some tc.
Proof.
  destruct tc as [s c]. unfold deserialize_trick_card, TrickCard.to_dict.
  cbn -[Card.from_id Card.id]. rewrite Card_from_id_id. done.
Qed.

Lemma tricks_won_pairs (l : list (Z * list Card)) :
  mapM (fun kv : string * Value =>
          seat ← py_int_of_str kv.1; cards ← cards_of kv.2; Some (seat, cards))
       (map (fun kv : Z * list Card => (py_str kv.1, card_ids kv.2)) l)
  = Some l.
Proof.
  apply (mapM_map_inv _ (fun kv : Z * list Card => (py_str kv.1, card_ids kv.2))).
  intros [k cards]. cbn -[py_int_of_str py_str cards_of card_ids].
  rewrite py_int_of_str_py_str. cbn -[cards_of card_ids].
  rewrite cards_of_card_ids. done.
Qed.

Lemma scores_pairs (l : list (Z * Z)) :
  mapM (fun kv : string * Value =>
          k ← py_int_of_str kv.1; v ← py_int kv.2; Some (k, v))
       (map (fun kv : Z * Z => (py_str kv.1, VInt kv.2)) l)
  = Some l.
Proof.
  apply (mapM_map_inv _ (fun kv : Z * Z => (py_str kv.1, VInt kv.2))).
  intros [k v]. cbn -[py_int_of_str py_str]. rewrite py_int_of_str_py_str. done.
Qed.

Ltac lookup_serialized st k :=
  let t := constr:(dict_get k (serialize_game_state st)) in
  let v := eval cbv [serialize_game_state dict_get String.eqb Ascii.eqb Bool.eqb] in t in
  change t with v.

Lemma trump_suit_field (o : option Suit) :
  (if truthy (opt_str (Suit_value <$> o))
   then as_str (opt_str (Suit_value <$> o)) ≫= λ s : string, Some <$> Suit_of_value s
   else Some None) = Some o.
Proof. destruct o as [[]|]; reflexivity. Qed.

Lemma trump_card_field (o : option Card) :
  (if truthy (opt_str (Card.id <$> o))
   then as_str (opt_str (Card.id <$> o)) ≫= λ s : string, Some <$> Card.from_id s
   else Some None) = Some o.
Proof. destruct o as [[[] []]|]; reflexivity. Qed.

Lemma serialize_roundtrip st :
  ttl st = None → deserialize_game_state (serialize_game_state st) = Some st.
Proof.
  intros Httl. unfold deserialize_game_state, dict_get_default.
  rewrite (opt_seat_of_opt_int "bid_turn_seat" _ (bid_turn_seat st)) by reflexivity.
  rewrite (opt_seat_of_opt_int "trumper_seat" _ (trumper_seat st)) by reflexivity.
  rewrite (opt_seat_of_opt_int "turn_seat" _ (turn_seat st)) by reflexivity.
  rewrite (opt_seat_of_opt_int "lead_seat" _ (lead_seat st)) by reflexivity.
  lookup_serialized st "game_code". lookup_serialized st "mode".
  lookup_serialized st "phase". lookup_serialized st "dealer_seat".
  lookup_serialized st "trump_revealed". lookup_serialized st "exchange_done".
  lookup_serialized st "trick_number". lookup_serialized st "games_played".
  lookup_serialized st "created_at". lookup_serialized st "players".
  lookup_serialized st "deck". lookup_serialized st "center_pile".
  lookup_serialized st "bids". lookup_serialized st "current_bid".
  lookup_serialized st "trump_suit". lookup_serialized st "trump_card".
  lookup_serialized st "current_trick". lookup_serialized st "tricks_won".
  lookup_serialized st "turn_deadline". lookup_serialized st "scores".
  cbn [mbind option_bind as_str py_int default from_option id as_list as_dict truthy].
  rewrite GamePhase_of_value_value, !as_opt_str_opt_str.
  rewrite (mapM_map_inv deserialize_player (λ p, VDict (_serialize_player p)))
    by apply deserialize_player_serialize.
  rewrite (mapM_map_inv deserialize_bid (λ b, VDict (Bid.to_dict b)))
    by apply deserialize_bid_to_dict.
  rewrite (mapM_map_inv deserialize_trick_card (λ tc, VDict (TrickCard.to_dict tc)))
    by apply deserialize_trick_card_to_dict.
  rewrite !cards_of_card_ids, tricks_won_pairs, scores_pairs.
  cbn [mbind option_bind].
  rewrite !dict_of_pairs_to_list, trump_suit_field, trump_card_field.
  destruct st as [gc md ph ps dl dk cp bs [cb|] bts tps tsu tcd trv exd ctr tw
                  tus tdl tno lds sc gpl cat tt];
    cbn [ttl] in Httl; subst tt.
  - cbn [current_bid truthy Bid.to_dict]. rewrite deserialize_bid_to_dict. reflexivity.
  - reflexivity.
Qed.

(** C4: deserializing the serialized state gives the state back, for every
    state of a game (players connected or not) and, more generally, for every
    state whose [ttl] is unset, the one field the snapshot does not carry:
    seats that were keys of [tricks_won] and [scores] are integers again and
    every card is rebuilt from its identifier. *)
Theorem codec_roundtrip st :
  reachable st ∨ ttl st = None →
  deserialize_game_state (serialize_game_state st) = Some st.
Proof.
  intros [Hr|Httl]; apply serialize_roundtrip; [|done].
  by apply reachable_inv, inv_ttl in Hr.
Qed.

Lemma codec_roundtrip_witness :
  deserialize_game_state (serialize_game_state sample_after_trick)
  = Some sample_after_trick
  ∧ Player.connection_id <$> get_player_by_seat sample_after_trick 1
    = Some (Some "conn-1")
  ∧ tricks_won sample_after_trick !! 3
    = Some [Card.mk DIAMONDS SEVEN; Card.mk HEARTS SEVEN;
            Card.mk DIAMONDS TEN; Card.mk SPADES TEN]
  ∧ deserialize_game_state (serialize_game_state sample_scored) = Some sample_scored.
Proof.
  split; [|split; [|split]].
  - apply (codec_roundtrip sample_after_trick). left.
    apply sample_after_trick_reachable.
  - reflexivity.
  - reflexivity.
  - apply (codec_roundtrip sample_scored). right. reflexivity.
Defined.

(** ** Spoilt trump *)

Lemma count_suit_app ts l k :
  count_suit ts (l ++ k) = count_suit ts l + count_suit ts k.
Proof. unfold count_suit. rewrite filter_app, length_app. lia. Qed.

Lemma in_tricks_count ts (team : list Z) (l : list (Z * list Card)) :
  foldr (fun '(seat, cards) acc =>
           if bool_decide (seat ∈ team) then acc + count_suit ts cards else acc)
        0 l
  = count_suit ts (concat (map snd (filter (fun kv => kv.1 ∈ team) l))).
Proof.
  induction l as [|[seat cards] l IH]; [done|].
  simpl. rewrite IH, filter_cons. simpl.
  case_bool_decide as Hin.
  - rewrite decide_True by done. simpl. rewrite count_suit_app. lia.
  - by rewrite decide_False by done.
Qed.

Lemma in_hands_count ts st (team : list Z) :
  foldr (fun seat acc =>
           match get_player_by_seat st seat with
           | Some player => acc + count_suit ts (Player.hand player)
           | None => acc
           end)
        0 team
  = count_suit ts (concat (map (hand_at st) team)).
Proof.
  unfold hand_at. induction team as [|seat team IH]; [done|].
  cbn [foldr map concat]. rewrite IH, count_suit_app.
  destruct (get_player_by_seat st seat); [lia|].
  change (count_suit ts []) with 0. lia.
Qed.

(** The cards counted for the trumper's team are among the cards of the
    game, copy for copy. *)
Lemma won_team_sublist (team : list Z) (l : list (Z * list Card)) :
  concat (map snd (filter (fun kv => kv.1 ∈ team) l)) ⊆+ concat (map snd l).
Proof.
  induction l as [|[seat cards] l IH]; [done|].
  rewrite filter_cons. simpl. destruct (decide (seat ∈ team)); simpl.
  - by apply submseteq_app.
  - by apply submseteq_inserts_l.
Qed.

Lemma hands_at_submseteq st (team : list Z) :
  NoDup team → concat (map (hand_at st) team) ⊆+ hands (players st).
Proof.
  unfold hand_at, get_player_by_seat. generalize (players st) as ps. clear st.
  intros ps. revert team. induction ps as [|p ps IH]; intros team Hnd.
  { simpl. induction team as [|s team IHt]; [done|].
    simpl. apply IHt. by apply NoDup_cons in Hnd as [_ ?]. }
  rewrite hands_cons.
  assert (Hother : ∀ team', Player.seat p ∉ team' →
            map (λ seat, match find (λ q, bool_decide (Player.seat q = seat)) (p :: ps) with
                         | Some player => Player.hand player | None => [] end) team'
            = map (λ seat, match find (λ q, bool_decide (Player.seat q = seat)) ps with
                           | Some player => Player.hand player | None => [] end) team').
  { intros team' Hnot. apply map_ext_in. intros s Hs%list_elem_of_In. simpl.
    rewrite bool_decide_eq_false_2; [done|]. intros Heq. by subst s. }
  destruct (decide (Player.seat p ∈ team)) as [Hin|Hnot].
  - apply elem_of_Permutation in Hin as [team' Hperm].
    rewrite Hperm in Hnd. apply NoDup_cons in Hnd as [Hnot Hnd'].
    rewrite Hperm. cbn [map concat]. rewrite (Hother team' Hnot). cbn [find].
    rewrite bool_decide_eq_true_2 by done.
    apply submseteq_app; [done|]. by apply IH.
  - rewrite (Hother team Hnot). apply submseteq_inserts_l. by apply IH.
Qed.

Lemma trumper_possession_submseteq st :
  trumper_possession st ⊆+ all_cards st.
Proof.
  unfold trumper_possession, all_cards.
  pose proof (won_team_sublist (remove_dups (get_trumper_team_seats st))
                (map_to_list (tricks_won st))) as H1.
  pose proof (hands_at_submseteq st (remove_dups (get_trumper_team_seats st))
                (NoDup_remove_dups _)) as H2.
  fold (won_cards (tricks_won st)) in H1.
  set (A := concat (map snd (filter _ _))) in *.
  set (H := concat (map (hand_at st) _)) in *.
  transitivity (won_cards (tricks_won st) ++ concealed_trump st ++ hands (players st)).
  - apply submseteq_app; [done|]. by apply submseteq_app.
  - generalize (won_cards (tricks_won st)) (concealed_trump st) (hands (players st))
      (center_pile st) (map TrickCard.card (current_trick st)).
    intros l1 l2 l3 l4 l5. solve_submseteq.
Qed.

Lemma all_cards_NoDup st : game_inv st → NoDup (all_cards st).
Proof.
  intros Hinv. destruct (decide (phase st = WAITING)) as [Hw|Hph].
  - destruct (inv_waiting st Hinv Hw) as (_ & _ & Hh & Hcp & Htw & Hct & Htc & _).
    unfold all_cards, concealed_trump.
    rewrite Hh, Hcp, Htw, Hct, Htc, won_cards_empty. simpl.
    destruct (trump_revealed st); constructor.
  - destruct (inv_started st Hinv Hph) as [_ Hcons].
    apply conserved_iff_Permutation in Hcons. rewrite Hcons.
    apply NoDup_ListNoDup, (NoDup_count_occ Card_eq_dec).
    intros c. fold (card_count c create_deck). by rewrite create_deck_count.
Qed.

Lemma suit_cards_count ts (l : list Card) :
  NoDup l → (∀ r, Card.mk ts r ∈ l) → count_suit ts l = 8.
Proof.
  intros Hnd Hall. unfold count_suit.
  assert (Hperm : filter (λ c, Card.suit c = ts) l ≡ₚ map (Card.mk ts) all_ranks).
  { apply NoDup_Permutation.
    - by apply NoDup_filter.
    - apply NoDup_fmap_2; [by intros r1 r2 [= ->]|].
      apply (bool_decide_unpack _). vm_compute. exact I.
    - intros [s r]. rewrite list_elem_of_filter, list_elem_of_fmap. simpl. split.
      + intros [-> _]. exists r. split; [done|].
        apply (bool_decide_unpack _). destruct r; vm_compute; exact I.
      + intros (r' & [= -> ->] & _). split; [done|]. apply Hall. }
  by rewrite Hperm.
Qed.

Lemma check_spoilt_trump_possession st ts :
  game_inv st →
  trump_suit st = Some ts →
  (∀ r, Card.mk ts r ∈ trumper_possession st) →
  check_spoilt_trump st = true.
Proof.
  intros Hinv Hts Hall. unfold check_spoilt_trump. rewrite Hts.
  cbv zeta. rewrite in_tricks_count, in_hands_count.
  apply bool_decide_eq_true_2.
  assert (Hconc : match trump_card st with
                  | Some _ => if negb (trump_revealed st) then 1 else 0
                  | None => 0
                  end = count_suit ts (concealed_trump st)).
  { unfold concealed_trump. destruct (trump_card st) as [tc|] eqn:Htc.
    - destruct (trump_revealed st); [done|]. simpl.
      pose proof (inv_trump_suit st Hinv tc Htc) as Hs. rewrite Hts in Hs.
      injection Hs as ->. unfold count_suit.
      cbn [option_list negb]. by rewrite filter_cons, decide_True.
    - by destruct (trump_revealed st). }
  rewrite Hconc, <- !count_suit_app, <- app_assoc.
  change (count_suit ts (trumper_possession st) = 8).
  apply suit_cards_count; [|exact Hall].
  pose proof (trumper_possession_submseteq st) as Hsub.
  apply submseteq_Permutation in Hsub as [k Hk].
  pose proof (all_cards_NoDup st Hinv) as Hnd. rewrite Hk in Hnd.
  by apply NoDup_app in Hnd as [? _].
Qed.

(** C3: in every state of a game in which the trumper's team holds all
    eight cards of the trump suit (in its trick piles, as the unrevealed
    trump card, or in its hands), [check_spoilt_trump] detects the spoilt
    game and [_score_game] awards nothing: no cumulative score changes and
    the state only enters [SCORING]. *)
Theorem spoilt_trump_awards_nothing st ts :
  reachable st →
  trump_suit st = Some ts →
  (∀ r, Card.mk ts r ∈ trumper_possession st) →
  check_spoilt_trump st = true
  ∧ ∃ result,
      _score_game st = Some (result, set_phase SCORING st)
      ∧ dict_get "spoilt" result = Some (VBool true)
      ∧ dict_get "trumper_points" result = Some (VInt 0)
      ∧ dict_get "opposing_points" result = Some (VInt 0)
      ∧ scores (set_phase SCORING st) = scores st
      ∧ games_played (set_phase SCORING st) = games_played st.
Proof.
  intros Hr Hts Hall. apply reachable_inv in Hr.
  pose proof (check_spoilt_trump_possession st ts Hr Hts Hall) as Hsp.
  split; [done|]. unfold _score_game. cbv zeta.
  change (check_spoilt_trump (set_phase SCORING st)) with (check_spoilt_trump st).
  rewrite Hsp. eexists. split; [reflexivity|]. by repeat split.
Qed.

Lemma spoilt_trump_awards_nothing_witness :
  check_spoilt_trump sample_game = true
  ∧ ∃ result,
      _score_game sample_game = Some (result, set_phase SCORING sample_game)
      ∧ dict_get "spoilt" result = Some (VBool true)
      ∧ dict_get "trumper_points" result = Some (VInt 0)
      ∧ dict_get "opposing_points" result = Some (VInt 0)
      ∧ scores (set_phase SCORING sample_game) = scores sample_game
      ∧ games_played (set_phase SCORING sample_game) = games_played sample_game.
Proof.
  apply (spoilt_trump_awards_nothing sample_game HEARTS).
  - apply sample_game_reachable.
  - reflexivity.
  - intros r. apply list_elem_of_In. destruct r; vm_compute; tauto.
Defined.
(** * Further properties of the engine *)

(** ** Cards *)

Lemma Card_beats_irrefl a ts rev cs : Card.beats a a ts rev cs = false.
Proof.
  unfold Card.beats.
  destruct rev, ts as [t|]; repeat case_bool_decide; simpl; try done; lia.
Qed.

Lemma Card_beats_asym a b ts rev cs :
  Card.beats a b ts rev cs = true → Card.beats b a ts rev cs = false.
Proof.
  unfold Card.beats.
  destruct rev, ts as [t|]; repeat case_bool_decide; simpl; try done;
    try congruence; try lia.
Qed.

(** X1: [Card.beats] is irreflexive and asymmetric in every trick context:
    no card beats itself, and of two cards at most one beats the other. *)
Theorem beats_asymmetric a b ts rev cs :
  Card.beats a a ts rev cs = false
  ∧ (Card.beats a b ts rev cs = true → Card.beats b a ts rev cs = false).
Proof. split; [apply Card_beats_irrefl | apply Card_beats_asym]. Qed.

Lemma beats_asymmetric_witness :
  Card.beats (Card.mk SPADES JACK) (Card.mk SPADES JACK) (Some HEARTS) true SPADES = false
  ∧ Card.beats (Card.mk SPADES NINE) (Card.mk SPADES JACK) (Some HEARTS) true SPADES = false.
Proof.
  destruct (beats_asymmetric (Card.mk SPADES JACK) (Card.mk SPADES NINE)
              (Some HEARTS) true SPADES) as [Hirr Hasym].
  split; [exact Hirr|]. apply Hasym. reflexivity.
Defined.

Lemma rsplit_underscore_join s l r :
  rsplit_underscore s = Some (l, r) → s = l +:+ "_" +:+ r.
Proof.
  revert l r. induction s as [|ch s IH]; intros l r H; [done|].
  simpl in H. destruct (rsplit_underscore s) as [[l' r']|] eqn:E.
  - injection H as <- <-.
    change (String ch s = String ch (l' +:+ "_" +:+ r')).
    f_equal. by apply IH.
  - destruct (Ascii.eqb_spec ch "_"%char) as [->|]; [|done].
    by injection H as <- <-.
Qed.

Lemma Suit_of_value_inv x s : Suit_of_value x = Some s → x = Suit_value s.
Proof.
  intros H. apply find_some in H as [_ H]. by apply String.eqb_eq in H.
Qed.

Lemma Rank_of_value_inv x r : Rank_of_value x = Some r → x = Rank_value r.
Proof.
  intros H. apply find_some in H as [_ H]. by apply String.eqb_eq in H.
Qed.

(** X2: [Card.from_id] parses exactly the identifiers [Card.id] prints: it
    returns a card if and only if the string is that card's identifier, so
    every other string (no underscore, unknown rank or suit) raises and
    distinct cards have distinct identifiers. *)
Theorem from_id_iff_id s c : Card.from_id s = Some c ↔ s = Card.id c.
Proof.
  split; [|intros ->; apply Card_from_id_id].
  unfold Card.from_id. intros H.
  apply bind_Some in H as ([rank_str suit_str] & Hsplit & H).
  apply bind_Some in H as (su & Hsu & H).
  apply bind_Some in H as (ra & Hra & H). injection H as <-.
  apply rsplit_underscore_join in Hsplit.
  apply Suit_of_value_inv in Hsu. apply Rank_of_value_inv in Hra.
  by subst.
Qed.

(** ** Legal cards *)

Lemma filter_nil_none {A} (P : A → Prop) `{!∀ x, Decision (P x)} (l : list A) x :
  filter P l = [] → x ∈ l → ¬ P x.
Proof.
  intros Hf Hx HP.
  assert (x ∈ filter P l) as Hin by by apply list_elem_of_filter.
  rewrite Hf in Hin. by apply elem_of_nil in Hin.
Qed.

Lemma get_valid_cards_cases st seat p :
  get_player_by_seat st seat = Some p →
  ∃ valid, get_valid_cards st seat = Some valid
    ∧ valid ⊆ Player.hand p
    ∧ (valid = [] → Player.hand p = [])
    ∧ (∀ cs, get_calling_suit st = Some cs →
         (∃ c, c ∈ Player.hand p ∧ Card.suit c = cs) →
         ∀ c, c ∈ valid ↔ c ∈ Player.hand p ∧ Card.suit c = cs)
    ∧ ((get_calling_suit st = None
        ∨ ∃ cs, get_calling_suit st = Some cs
                ∧ ∀ c, c ∈ Player.hand p → Card.suit c ≠ cs) →
       valid = Player.hand p).
Proof.
  intros Hp. unfold get_valid_cards. rewrite Hp. simpl.
  destruct (Player.hand p) as [|c0 h] eqn:Hh.
  { eexists; split; [done|]. split; [done|]. split; [done|]. split; [|done].
    intros cs _ (c & Hc & _). by apply elem_of_nil in Hc. }
  destruct (get_calling_suit st) as [cs|] eqn:Hcs.
  2:{ eexists; split; [done|]. split; [done|]. split; [done|]. split; done. }
  destruct (filter (λ c, Card.suit c = cs) (c0 :: h)) as [|c1 f] eqn:Hf.
  - eexists; split; [done|]. split; [done|]. split; [done|]. split; [|done].
    intros cs' [= <-] (c & Hc & Hs).
    by destruct (filter_nil_none _ _ c Hf Hc).
  - eexists; split; [done|]. rewrite <- Hf.
    split; [|split; [|split]].
    + intros c Hc. by apply list_elem_of_filter in Hc as [_ Hc].
    + by rewrite Hf.
    + intros cs' [= <-] _ c. rewrite list_elem_of_filter. tauto.
    + intros [|(cs' & [= <-] & Hvoid)]; [done|].
      assert (c1 ∈ filter (λ c, Card.suit c = cs) (c0 :: h)) as Hin
        by (rewrite Hf; left).
      apply list_elem_of_filter in Hin as [Hs Hin]. by apply Hvoid in Hin.
Qed.



(** X4: [validate_play] accepts a card exactly when the game is in the
    playing phase, it is the seat's turn, the card is one of the seat's legal
    cards, and the play is not an announced cut (off the led suit, in the
    trump suit) made while the trump is still concealed. *)
Theorem validate_play_accepts_iff st seat card wants_to_cut :
  validate_play st seat card wants_to_cut = Some (true, "")
  ↔ phase st = PLAYING
    ∧ turn_seat st = Some seat
    ∧ (∃ valid, get_valid_cards st seat = Some valid ∧ card ∈ valid)
    ∧ ¬ (wants_to_cut = true ∧ trump_revealed st = false
         ∧ ∃ cs, get_calling_suit st = Some cs ∧ Card.suit card ≠ cs
                 ∧ Some (Card.suit card) = trump_suit st).
Proof.
  unfold validate_play. split.
  - intros H.
    case_bool_decide as Hph; [done|]. try apply dec_stable in Hph.
    case_bool_decide as Hturn; [done|]. try apply dec_stable in Hturn.
    apply bind_Some in H as (p & Hp & H).
    case_bool_decide as Hhand; [done|].
    apply bind_Some in H as (valid & Hvalid & H).
    case_bool_decide as Hin; [done|]. try apply dec_stable in Hin.
    split; [done|]. split; [done|]. split; [by exists valid|].
    intros (-> & Hrev & cs & Hcs & Hoff & Htrump).
    rewrite Hcs, Hrev in H. rewrite !bool_decide_eq_true_2 in H by done.
    simpl in H. by case_bool_decide.
  - intros (Hph & Hturn & (valid & Hvalid & Hin) & Hcut).
    rewrite bool_decide_eq_false_2 by (by intros []).
    rewrite bool_decide_eq_false_2 by (by intros []).
    assert (∃ p, get_player_by_seat st seat = Some p) as [p Hp].
    { unfold get_valid_cards in Hvalid.
      destruct (get_player_by_seat st seat); [eauto|done]. }
    destruct (get_valid_cards_cases st seat p Hp) as (valid' & Hv' & Hsub & _).
    rewrite Hvalid in Hv'. injection Hv' as <-.
    rewrite Hp. simpl. rewrite bool_decide_eq_false_2 by (intros Hn; apply Hn, Hsub, Hin).
    rewrite Hvalid. simpl.
    rewrite bool_decide_eq_false_2 by (by intros []).
    destruct (get_calling_suit st) as [cs|] eqn:Hcs; [|done].
    destruct (bool_decide (Card.suit card ≠ cs)) eqn:Hoff; [|done].
    destruct wants_to_cut; [|done].
    destruct (bool_decide (Some (Card.suit card) = trump_suit st)) eqn:Htr; [|done].
    apply bool_decide_eq_true in Hoff, Htr.
    destruct (trump_revealed st) eqn:Hrev.
    + simpl. by case_bool_decide.
    + destruct Hcut. split; [done|]. split; [done|]. by exists cs.
Qed.

(** X5: [auto_play] always plays one of the seat's legal cards, whatever the
    two random draws are; with no legal card it returns an error and leaves
    the state as it is. *)
Theorem auto_play_plays_legal_card st seat r1 r2 valid :
  get_valid_cards st seat = Some valid →
  (valid = [] →
     auto_play st seat r1 r2 = Some ([("error", VStr "No valid cards to play")], st))
  ∧ (valid ≠ [] →
     ∃ card, card ∈ valid ∧ auto_play st seat r1 r2 = play_card st seat card).
Proof.
  intros Hv. unfold auto_play. rewrite Hv. simpl. split.
  - by intros ->.
  - intros Hne. destruct valid as [|c0 v]; [done|].
    assert (∃ card, auto_play_pick st (c0 :: v) r1 r2 = Some card
                    ∧ card ∈ c0 :: v) as (card & Hpick & Hin).
    { unfold auto_play_pick.
      destruct (random_choice_elem r1 (c0 :: v)) as (c & -> & Hcin); [done|].
      simpl.
      destruct (get_calling_suit st) as [cs|]; [|by exists c].
      destruct (_ && _); [|by exists c].
      destruct (filter _ (c0 :: v)) as [|n0 nt] eqn:Hf; [by exists c|].
      destruct (random_choice_elem r2 (n0 :: nt)) as (c' & -> & Hcin'); [done|].
      exists c'. split; [done|].
      rewrite <- Hf in Hcin'.
      by apply list_elem_of_filter in Hcin' as [_ ?]. }
    exists card. split; [done|]. by rewrite Hpick.
Qed.

Lemma auto_play_plays_legal_card_witness :
  ∃ card, card ∈ [Card.mk HEARTS JACK; Card.mk DIAMONDS SEVEN]
          ∧ auto_play sample_playing 2 0 0 = play_card sample_playing 2 card.
Proof.
  destruct (auto_play_plays_legal_card sample_playing 2 0 0
              [Card.mk HEARTS JACK; Card.mk DIAMONDS SEVEN] eq_refl) as [_ H].
  apply H. discriminate.
Defined.

(** ** The winner of a trick *)

(** A card that is not beaten by the running winner's challenger stays
    unbeaten: [beats] is negatively transitive on winners that are of the led
    suit or of the revealed trump suit. *)
Lemma beats_neg_trans x w t ts rev cs :
  Card.suit w = cs ∨ (rev = true ∧ ts = Some (Card.suit w)) →
  Card.beats x w ts rev cs = false →
  Card.beats t w ts rev cs = true →
  Card.beats x t ts rev cs = false.
Proof.
  unfold Card.beats. intros Hw H1 H2.
  destruct rev, ts as [s|]; simpl in *;
    repeat (case_bool_decide; simpl in *; subst; try done; try lia;
            try (destruct Hw as [?|[? ?]]; congruence)).
Qed.

Lemma beats_winner_suit w t ts rev cs :
  Card.suit w = cs ∨ (rev = true ∧ ts = Some (Card.suit w)) →
  Card.beats t w ts rev cs = true →
  Card.suit t = cs ∨ (rev = true ∧ ts = Some (Card.suit t)).
Proof.
  unfold Card.beats. intros Hw H.
  destruct rev, ts as [s|]; simpl in *;
    repeat (case_bool_decide; simpl in *; subst; try done;
            try (by left); try (by right);
            try (destruct Hw as [?|[? ?]]; congruence)).
  all: destruct Hw as [?|[? ?]]; [left; congruence | try done].
  all: right; split; [done|]; congruence.
Qed.

Lemma trick_winner_scan st cs seen w0 others :
  w0 ∈ seen →
  (Card.suit (TrickCard.card w0) = cs
   ∨ (trump_revealed st = true ∧ trump_suit st = Some (Card.suit (TrickCard.card w0)))) →
  (∀ tc, tc ∈ seen →
     Card.beats (TrickCard.card tc) (TrickCard.card w0)
       (trump_suit st) (trump_revealed st) cs = false) →
  let w := trick_winner st cs w0 others in
  w ∈ seen ++ others
  ∧ (Card.suit (TrickCard.card w) = cs
     ∨ (trump_revealed st = true ∧ trump_suit st = Some (Card.suit (TrickCard.card w))))
  ∧ (∀ tc, tc ∈ seen ++ others →
       Card.beats (TrickCard.card tc) (TrickCard.card w)
         (trump_suit st) (trump_revealed st) cs = false).
Proof.
  revert seen w0. induction others as [|t others IH]; intros seen w0 Hin Hkey Hun.
  { simpl. rewrite app_nil_r. done. }
  unfold trick_winner. simpl. fold (trick_winner st cs).
  replace (seen ++ t :: others) with ((seen ++ [t]) ++ others)
    by by rewrite <- app_assoc.
  destruct (Card.beats (TrickCard.card t) (TrickCard.card w0) _ _ _) eqn:Hb.
  - apply IH.
    + apply elem_of_app. right. left.
    + by eapply beats_winner_suit.
    + intros tc [Htc|Htc%list_elem_of_singleton]%elem_of_app.
      * eapply beats_neg_trans; [exact Hkey|by apply Hun|exact Hb].
      * subst tc. apply Card_beats_irrefl.
  - apply IH.
    + apply elem_of_app. by left.
    + done.
    + intros tc [Htc|Htc%list_elem_of_singleton]%elem_of_app.
      * by apply Hun.
      * by subst tc.
Qed.

Lemma _draw_loop_keeps_tricks seats st draws d st' :
  _draw_loop seats st draws = Some (d, st') →
  tricks_won st' = tricks_won st ∧ current_trick st' = current_trick st
  ∧ trick_number st' = trick_number st.
Proof.
  revert st draws. induction seats as [|seat seats IH]; intros st draws H; simpl in H.
  { by injection H as _ <-. }
  destruct (center_pile st) as [|card pile] eqn:Hcp.
  { by injection H as _ <-. }
  apply bind_Some in H as (st1 & Hex & H).
  apply hand_extend_spec in Hex as (ps & -> & _).
  apply IH in H as (-> & -> & ->). done.
Qed.

Lemma reveal_trump_keeps_tricks st seat r st' :
  reveal_trump st seat = Some (r, st') →
  tricks_won st' = tricks_won st ∧ current_trick st' = current_trick st
  ∧ trick_number st' = trick_number st.
Proof.
  unfold reveal_trump. intros H.
  destruct (trump_revealed st). { by injection H as _ <-. }
  destruct (trump_suit st). 2:{ by injection H as _ <-. }
  cbn -[hand_extend] in H. destruct (trump_card st) as [tc|].
  - apply bind_Some in H as (tseat & _ & H).
    apply bind_Some in H as (st1 & Hex & H). injection H as _ <-.
    by apply hand_extend_spec in Hex as (ps & -> & _).
  - by injection H as _ <-.
Qed.

(** X6: a resolved trick is won by a card of the trick that no card of the
    trick beats.  While the trump is concealed the winning card is of the led
    suit; once it is revealed a trump in the trick makes the winner a trump.
    The winner's seat is reported as "winner_seat", the trick's cards are
    appended to that seat's pile, the trick is cleared and the trick number
    advances by one. *)
Theorem resolve_trick_winner st res st' :
  _resolve_trick st = Some (res, st') →
  ∃ cs w,
    get_calling_suit st = Some cs
    ∧ w ∈ current_trick st
    ∧ dict_get "winner_seat" res = Some (VInt (TrickCard.seat w))
    ∧ (∀ tc, tc ∈ current_trick st →
         Card.beats (TrickCard.card tc) (TrickCard.card w)
           (trump_suit st) (trump_revealed st) cs = false)
    ∧ (trump_revealed st = false → Card.suit (TrickCard.card w) = cs)
    ∧ (trump_revealed st = true →
       ∀ tc, tc ∈ current_trick st →
         trump_suit st = Some (Card.suit (TrickCard.card tc)) →
         trump_suit st = Some (Card.suit (TrickCard.card w)))
    ∧ tricks_won st' !! TrickCard.seat w
      = Some (default [] (tricks_won st !! TrickCard.seat w)
              ++ map TrickCard.card (current_trick st))
    ∧ current_trick st' = []
    ∧ trick_number st' = trick_number st + 1.
Proof.
  unfold _resolve_trick. intros H.
  apply bind_Some in H as (first & Hhead & H). cbv zeta in H.
  destruct (current_trick st) as [|first' others] eqn:Htrick; [done|].
  injection Hhead as ->. simpl tail in H.
  set (cs := Card.suit (TrickCard.card first)) in *.
  destruct (trick_winner_scan st cs [first] first others) as (Hin & Hkey & Hun).
  { left. } { by left. }
  { intros tc ->%list_elem_of_singleton. apply Card_beats_irrefl. }
  set (w := trick_winner st cs first others) in *.
  exists cs, w. split; [unfold get_calling_suit; by rewrite Htrick|].
  split; [exact Hin|].
  remember (set_trick_number _ (set_current_trick [] (set_tricks_won _ st)))
    as st1 eqn:E1 in H.
  apply bind_Some in H as ([result2 st2] & Hdraw & H). cbv beta iota in H.
  assert (Hst2 : tricks_won st2 = tricks_won st1 ∧ current_trick st2 = current_trick st1
                 ∧ trick_number st2 = trick_number st1
                 ∧ dict_get "winner_seat" result2 = Some (VInt (TrickCard.seat w))).
  { destruct (_ && _) in Hdraw.
    - apply bind_Some in Hdraw as ([draws st3] & Hd & Hdraw).
      injection Hdraw as <- <-. unfold _draw_cards_2p in Hd.
      apply bind_Some in Hd as (nxt & _ & Hd).
      apply _draw_loop_keeps_tricks in Hd as (-> & -> & ->). by rewrite ?dict_get_set.
    - by injection Hdraw as <- <-. }
  clear Hdraw. destruct Hst2 as (Htw & Hct & Htn & Hws).
  assert (Hfin : tricks_won st' = tricks_won st1 ∧ current_trick st' = current_trick st1
                 ∧ trick_number st' = trick_number st1
                 ∧ dict_get "winner_seat" res = Some (VInt (TrickCard.seat w))).
  { rewrite <- Htw, <- Hct, <- Htn. clear Htw Hct Htn E1.
    apply bind_Some in H as (he & _ & H). cbv beta in H.
    destruct he.
    { injection H as <- <-. by rewrite ?dict_get_set. }
    destruct (_ && _) in H.
    { apply bind_Some in H as ([result3 st3] & Hrev & H). injection H as <- <-.
      rewrite ?dict_get_set. cbn [String.eqb Ascii.eqb Bool.eqb].
      destruct (negb _) in Hrev.
      - apply bind_Some in Hrev as ([rr st4] & Hr & Hrev). injection Hrev as <- <-.
        apply reveal_trump_keeps_tricks in Hr as (-> & -> & ->).
        by rewrite ?dict_get_set.
      - by injection Hrev as <- <-. }
    destruct (forallb _ _) in H.
    { injection H as <- <-. by rewrite ?dict_get_set. }
    injection H as <- <-. by rewrite ?dict_get_set. }
  destruct Hfin as (-> & -> & -> & ->). subst st1. simpl.
  split; [done|]. split; [exact Hun|].
  split.
  { intros Hrev. destruct Hkey as [?|[? _]]; [done|congruence]. }
  split.
  { intros Hrev tc Htc Hts.
    destruct (decide (trump_suit st = Some (Card.suit (TrickCard.card w))))
      as [|Hnt]; [done|].
    specialize (Hun tc Htc). exfalso. revert Hun.
    unfold Card.beats. rewrite Hrev, Hts.
    rewrite bool_decide_eq_true_2 by done.
    rewrite bool_decide_eq_true_2 by congruence. done. }
  split; [by rewrite lookup_insert_eq|]. done.
Qed.

Lemma resolve_trick_winner_witness :
  _resolve_trick sample_full_trick = Some sample_resolved
  ∧ ∃ cs w,
      get_calling_suit sample_full_trick = Some cs
      ∧ w ∈ current_trick sample_full_trick
      ∧ dict_get "winner_seat" sample_resolved.1 = Some (VInt (TrickCard.seat w))
      ∧ Card.suit (TrickCard.card w) = cs
      ∧ current_trick sample_resolved.2 = [].
Proof.
  split; [vm_compute; reflexivity|].
  destruct (resolve_trick_winner sample_full_trick sample_resolved.1 sample_resolved.2)
    as (cs & w & Hcs & Hin & Hseat & _ & Hsuit & _ & _ & Hct & _).
  - vm_compute; reflexivity.
  - exists cs, w. repeat split; try assumption. apply Hsuit. reflexivity.
Defined.

(** ** Bidding *)

Lemma py_max_ge x l : x <= py_max x l ∧ ∀ y, y ∈ l → y <= py_max x l.
Proof.
  unfold py_max. revert x. induction l as [|a l IH]; intros x; simpl.
  { split; [lia|]. intros y Hy. by apply elem_of_nil in Hy. }
  destruct (IH (Z.max x a)) as [H1 H2]. split; [lia|].
  intros y [->|Hy]%elem_of_cons; [lia|by apply H2].
Qed.

Lemma _highest_bid_amount_ge st b x :
  b ∈ bids st → Bid.amount b = Some x → x <= _highest_bid_amount st.
Proof.
  intros Hb Hx. unfold _highest_bid_amount, bid_amounts.
  assert (x ∈ omap Bid.amount (bids st)) as Hin.
  { apply list_elem_of_omap. by exists b. }
  destruct (omap Bid.amount (bids st)) as [|a l]; [by apply elem_of_nil in Hin|].
  destruct (py_max_ge a l) as [H1 H2].
  apply elem_of_cons in Hin as [->|Hin]; [done|by apply H2].
Qed.

Lemma validate_bid_cases st seat :
  (validate_bid st seat None = (true, "")
   ↔ phase st = BIDDING ∧ bid_turn_seat st = Some seat)
  ∧ ∀ amount, validate_bid st seat (Some amount) = (true, "") →
      phase st = BIDDING ∧ bid_turn_seat st = Some seat
      ∧ 150 <= amount <= 304
      ∧ (amount = 304 ∨ amount mod 10 = 0)
      ∧ ∀ b x, b ∈ bids st → Bid.amount b = Some x → x < amount.
Proof.
  split.
  - unfold validate_bid. split.
    + intros H. repeat case_bool_decide; done.
    + intros [Hph Hturn].
      rewrite bool_decide_eq_false_2 by (by intros []).
      by rewrite bool_decide_eq_false_2 by (by intros []).
  - intros amount H. unfold validate_bid in H. cbv zeta in H.
    case_bool_decide as Hph; [done|].
    case_bool_decide as Hturn; [done|].
    unfold MIN_BID, MAX_BID, BID_STEP in H.
    case_bool_decide as Hmin; [done|].
    case_bool_decide as Hmax; [done|].
    destruct (bool_decide (amount ≠ 304) && bool_decide (amount mod 10 ≠ 0)) eqn:Hstep;
      [done|].
    destruct (bool_decide (_highest_bid_amount st > 0)
              && bool_decide (amount <= _highest_bid_amount st)) eqn:Hhigh; [done|].
    clear H. split; [done|]. split; [done|]. split; [lia|]. split.
    + apply andb_false_iff in Hstep as [Hs|Hs]; apply bool_decide_eq_false in Hs.
      * left. by apply dec_stable.
      * right. by apply dec_stable.
    + intros b x Hb Hx. pose proof (_highest_bid_amount_ge st b x Hb Hx).
      apply andb_false_iff in Hhigh as [Hs|Hs]; apply bool_decide_eq_false in Hs; lia.
Qed.

(** X7: a pass is accepted exactly when the game is in the bidding phase and
    it is the seat's turn; an accepted bid is in addition between 150 and 304,
    a multiple of 10 unless it is 304, and strictly higher than every amount
    bid so far. *)
Theorem validate_bid_accepted st seat :
  (validate_bid st seat None = (true, "")
   ↔ phase st = BIDDING ∧ bid_turn_seat st = Some seat)
  ∧ ∀ amount, validate_bid st seat (Some amount) = (true, "") →
      phase st = BIDDING ∧ bid_turn_seat st = Some seat
      ∧ 150 <= amount <= 304
      ∧ (amount = 304 ∨ amount mod 10 = 0)
      ∧ ∀ b x, b ∈ bids st → Bid.amount b = Some x → x < amount.
Proof. apply validate_bid_cases. Qed.

Lemma validate_bid_accepted_witness :
  validate_bid sample_bid_160 0 (Some 170) = (true, "")
  ∧ bid_turn_seat sample_bid_160 = Some 0
  ∧ ∀ b x, b ∈ bids sample_bid_160 → Bid.amount b = Some x → x < 170.
Proof.
  split; [vm_compute; reflexivity|].
  destruct (validate_bid_accepted sample_bid_160 0) as [_ H].
  destruct (H 170) as (_ & Hturn & _ & _ & Hhigh).
  - vm_compute; reflexivity.
  - split; [exact Hturn | exact Hhigh].
Defined.

(** ** Seats and teams *)

Lemma elem_of_insert_sorted x y l : y ∈ insert_sorted x l ↔ y = x ∨ y ∈ l.
Proof.
  induction l as [|a l IH]; simpl.
  - rewrite list_elem_of_singleton. rewrite elem_of_nil. tauto.
  - destruct (x <=? a).
    + by rewrite elem_of_cons.
    + rewrite !elem_of_cons, IH. tauto.
Qed.

Lemma elem_of_sorted y l : y ∈ sorted l ↔ y ∈ l.
Proof.
  unfold sorted. induction l as [|a l IH]; simpl; [done|].
  rewrite elem_of_insert_sorted, elem_of_cons, IH. done.
Qed.

Lemma index_of_None x l : x ∉ l → index_of x l = None.
Proof.
  induction l as [|a l IH]; simpl; [done|].
  rewrite not_elem_of_cons. intros [Hne Hnin].
  rewrite bool_decide_eq_false_2 by done. by rewrite IH.
Qed.

Lemma next_seat_filled st seat :
  seats_filled st → 0 <= seat < mode st →
  next_seat st seat = Some ((seat + 1) mod mode st).
Proof.
  intros [Hmode Hseats] Hseat. unfold next_seat. rewrite Hseats.
  repeat (apply elem_of_cons in Hmode as [Hm|Hmode]; [rewrite Hm in *; clear Hm|]);
    [| | |by apply elem_of_nil in Hmode].
  - assert (seat = 0 ∨ seat = 1) as [->| ->] by lia; vm_compute; reflexivity.
  - assert (seat = 0 ∨ seat = 1 ∨ seat = 2) as [->|[->| ->]] by lia;
      vm_compute; reflexivity.
  - assert (seat = 0 ∨ seat = 1 ∨ seat = 2 ∨ seat = 3) as [->|[->|[->| ->]]] by lia;
      vm_compute; reflexivity.
Qed.

Lemma next_seat_absent st seat :
  seat ∉ map Player.seat (players st) → next_seat st seat = None.
Proof.
  intros Hnin. unfold next_seat. rewrite index_of_None; [done|].
  by rewrite elem_of_sorted.
Qed.

(** X8: at a full table [next_seat] is the clockwise successor
    [(seat + 1) mod mode] of a seat of the table; for a seat nobody sits at it
    raises, whatever the table. *)
Theorem next_seat_clockwise st seat :
  (seats_filled st → 0 <= seat < mode st →
   next_seat st seat = Some ((seat + 1) mod mode st))
  ∧ (seat ∉ map Player.seat (players st) → next_seat st seat = None).
Proof. split; [apply next_seat_filled | apply next_seat_absent]. Qed.

Lemma next_seat_clockwise_witness :
  next_seat sample_seated 3 = Some 0 ∧ next_seat sample_seated 7 = None.
Proof.
  destruct (next_seat_clockwise sample_seated 3) as [H _].
  destruct (next_seat_clockwise sample_seated 7) as [_ H'].
  split.
  - apply H; [|simpl; lia]. split; [|reflexivity].
    apply (bool_decide_unpack _). vm_compute. exact I.
  - apply H'. apply (bool_decide_unpack _). vm_compute. exact I.
Defined.

(** X9: at a full table with a trumper the trumper's team and the opposing
    team together are exactly the seats of the table, each seat once; the
    trumper is on the trumper's team, which has two seats in a four-player
    game and one seat otherwise. *)
Theorem teams_partition_seats st t :
  seats_filled st → trumper_seat st = Some t → 0 <= t < mode st →
  get_trumper_team_seats st ++ get_opposing_team_seats st ≡ₚ py_range (mode st)
  ∧ t ∈ get_trumper_team_seats st
  ∧ length (get_trumper_team_seats st)
    = if bool_decide (mode st = 4) then 2%nat else 1%nat.
Proof.
  intros [Hmode Hseats] Hts Ht.
  unfold get_opposing_team_seats, get_trumper_team_seats, get_team.
  rewrite Hts, Hseats.
  repeat (apply elem_of_cons in Hmode as [Hm|Hmode]; [rewrite Hm in *; clear Hm|]);
    [| | |by apply elem_of_nil in Hmode].
  - assert (t = 0 ∨ t = 1) as [->| ->] by lia;
      (split; [|split; [|reflexivity]]);
      apply (bool_decide_unpack _); vm_compute; exact I.
  - assert (t = 0 ∨ t = 1 ∨ t = 2) as [->|[->| ->]] by lia;
      (split; [|split; [|reflexivity]]);
      apply (bool_decide_unpack _); vm_compute; exact I.
  - assert (t = 0 ∨ t = 1 ∨ t = 2 ∨ t = 3) as [->|[->|[->| ->]]] by lia;
      (split; [|split; [|reflexivity]]);
      apply (bool_decide_unpack _); vm_compute; exact I.
Qed.

Lemma teams_partition_seats_witness :
  get_trumper_team_seats sample_playing ++ get_opposing_team_seats sample_playing
    ≡ₚ [0; 1; 2; 3]
  ∧ 0 ∈ get_trumper_team_seats sample_playing.
Proof.
  destruct (teams_partition_seats sample_playing 0) as (Hperm & Hin & _).
  - split; [|reflexivity]. apply (bool_decide_unpack _). vm_compute. exact I.
  - reflexivity.
  - simpl. lia.
  - split; [exact Hperm | exact Hin].
Defined.

(** ** The trump card *)

Lemma update_hand_lookup seat g ps ps' :
  update_hand seat g ps = Some ps' →
  ∃ p h', find (λ p, bool_decide (Player.seat p = seat)) ps = Some p
          ∧ g (Player.hand p) = Some h'
          ∧ find (λ p, bool_decide (Player.seat p = seat)) ps'
            = Some (Player.set_hand h' p)
          ∧ ∀ s, s ≠ seat →
              find (λ p, bool_decide (Player.seat p = s)) ps'
              = find (λ p, bool_decide (Player.seat p = s)) ps.
Proof.
  revert ps'. induction ps as [|q ps IH]; intros ps' H; simpl in H; [done|].
  case_bool_decide as Hq.
  - apply bind_Some in H as (h' & Hg & H). injection H as <-.
    exists q, h'. simpl. rewrite !bool_decide_eq_true_2 by done.
    split; [done|]. split; [done|]. split; [done|].
    intros s Hs. by rewrite !bool_decide_eq_false_2 by congruence.
  - apply fmap_Some in H as (qs & Hqs & ->).
    destruct (IH qs Hqs) as (p & h' & Hp & Hg & Hp' & Hother).
    exists p, h'. simpl. rewrite !bool_decide_eq_false_2 by done.
    split; [done|]. split; [done|]. split; [done|].
    intros s Hs. destruct (bool_decide (Player.seat q = s)); [done|].
    by apply Hother.
Qed.

Lemma reveal_trump_success st seat msg st' :
  reveal_trump st seat = Some ((true, msg), st') →
  trump_revealed st = false
  ∧ is_Some (trump_suit st)
  ∧ trump_revealed st' = true
  ∧ trump_suit st' = trump_suit st ∧ trump_card st' = trump_card st
  ∧ trumper_seat st' = trumper_seat st ∧ phase st' = phase st
  ∧ ∀ tc, trump_card st = Some tc →
      ∃ t p0, trumper_seat st = Some t
        ∧ get_player_by_seat st t = Some p0
        ∧ get_player_by_seat st' t
          = Some (Player.set_hand (Player.hand p0 ++ [tc]) p0).
Proof.
  unfold reveal_trump. intros H.
  destruct (trump_revealed st) eqn:Hrev; [done|].
  destruct (trump_suit st) as [ts|] eqn:Hts; [|done].
  cbn -[hand_extend] in H. destruct (trump_card st) as [tc|] eqn:Htc.
  - apply bind_Some in H as (t & Ht & H).
    apply bind_Some in H as (st1 & Hex & H). injection H as _ <-.
    unfold hand_extend in Hex.
    apply bind_Some in Hex as (ps & Hup & Hex). injection Hex as <-.
    apply update_hand_lookup in Hup as (p0 & h' & Hp0 & Hg & Hp' & _).
    injection Hg as <-. simpl in *.
    repeat (split; [done|]). intros tc' [= <-]. by exists t, p0.
  - injection H as _ <-. simpl. by repeat (split; [done|]).
Qed.

(** X10: [handle_reveal_trump] succeeds only for the trumper, in the playing
    phase, while the trump is concealed.  It marks the trump revealed and
    appends the face-down card to the trumper's hand; afterwards every further
    [handle_reveal_trump] or [handle_ask_trump] is answered with an error and
    changes nothing. *)
Theorem reveal_trump_happens_once st seat res st' :
  handle_reveal_trump st seat = Some ((true, res), st') →
  trumper_seat st = Some seat ∧ phase st = PLAYING ∧ trump_revealed st = false
  ∧ trump_revealed st' = true
  ∧ (∀ tc, trump_card st = Some tc →
       ∃ p0, get_player_by_seat st seat = Some p0
         ∧ get_player_by_seat st' seat
           = Some (Player.set_hand (Player.hand p0 ++ [tc]) p0))
  ∧ ∀ s, (∃ e, handle_reveal_trump st' s = Some ((false, e), st'))
         ∧ (∃ e, handle_ask_trump st' s = Some ((false, e), st')).
Proof.
  unfold handle_reveal_trump. intros H.
  case_bool_decide as Hseat; [done|].
  case_bool_decide as Hph; [done|].
  apply bind_Some in H as ([[success err] st1] & Hrev & H).
  destruct success; [|done]. simpl in H.
  apply bind_Some in H as (payload & _ & H). injection H as _ <-.
  apply reveal_trump_success in Hrev
    as (Hr & _ & Hr' & _ & _ & Hts' & Hph' & Hcard).
  split; [done|]. split; [done|]. split; [done|]. split; [done|]. split.
  - intros tc Htc. destruct (Hcard tc Htc) as (t & p0 & Ht & Hp0 & Hp').
    assert (t = seat) as -> by congruence. by exists p0.
  - intros s. split.
    + unfold handle_reveal_trump.
      case_bool_decide; [by eexists|].
      case_bool_decide; [by eexists|].
      unfold reveal_trump. rewrite Hr'. by eexists.
    + unfold handle_ask_trump. rewrite Hr'. by eexists.
Qed.

Lemma reveal_trump_happens_once_witness :
  handle_reveal_trump sample_playing 0 = Some sample_revealed
  ∧ trump_revealed sample_revealed.2 = true
  ∧ ∃ e, handle_ask_trump sample_revealed.2 2 = Some ((false, e), sample_revealed.2).
Proof.
  split; [vm_compute; reflexivity|].
  destruct (reveal_trump_happens_once sample_playing 0
              sample_revealed.1.2 sample_revealed.2)
    as (_ & _ & _ & Hrev & _ & Hagain).
  - vm_compute; reflexivity.
  - split; [exact Hrev|]. apply (Hagain 2).
Defined.

(** X11: [handle_ask_trump] never succeeds.  It returns an error and leaves
    the state as it is when the trump is already revealed, when the seat is
    the trumper, or outside the playing phase.  In the one remaining case,
    a seat other than the trumper asking in the playing phase while the
    trump is concealed, it raises: game.py does not bind [get_calling_suit],
    which the function calls next. *)
Theorem ask_trump_never_succeeds st seat :
  (∀ ok res st', handle_ask_trump st seat = Some ((ok, res), st') →
     ok = false ∧ st' = st ∧ ∃ e, res = [("error", VStr e)])
  ∧ (handle_ask_trump st seat = None
     ↔ trump_revealed st = false ∧ trumper_seat st ≠ Some seat
       ∧ phase st = PLAYING).
Proof.
  unfold handle_ask_trump. split.
  - intros ok res st' H.
    destruct (trump_revealed st); [injection H as <- <- <-; eauto|].
    case_bool_decide; [injection H as <- <- <-; eauto|].
    case_bool_decide; [injection H as <- <- <-; eauto|done].
  - split.
    + intros H. destruct (trump_revealed st); [done|].
      case_bool_decide as Hts; [done|].
      case_bool_decide as Hph; [done|].
      split; [done|]. split; [congruence|].
      by destruct (decide (phase st = PLAYING)).
    + intros (-> & Hts & Hph).
      rewrite bool_decide_eq_false_2 by congruence.
      by rewrite bool_decide_eq_false_2 by (by intros []).
Qed.

Lemma ask_trump_never_succeeds_witness :
  handle_ask_trump sample_playing 2 = None.
Proof.
  destruct (ask_trump_never_succeeds sample_playing 2) as [_ [_ H]].
  apply H. split; [reflexivity|]. split; [discriminate|reflexivity].
Defined.

(** X12: in every state of a game, a trump card that lies face down is set
    aside: it is of the trump suit and it is in no hand, not in the center
    pile, in no trick pile and not in the trick in progress; the game is past
    trump selection. *)
Theorem concealed_trump_card_set_aside st c :
  reachable st → trump_revealed st = false → trump_card st = Some c →
  trump_suit st = Some (Card.suit c)
  ∧ phase st ∈ [CARD_EXCHANGE; PLAYING; SCORING]
  ∧ (∀ p, p ∈ players st → c ∉ Player.hand p)
  ∧ (c ∉ center_pile st)
  ∧ (∀ seat cards, tricks_won st !! seat = Some cards → c ∉ cards)
  ∧ (∀ tc, tc ∈ current_trick st → TrickCard.card tc ≠ c).
Proof.
  intros Hr Hrev Htc. apply reachable_inv in Hr.
  pose proof (all_cards_NoDup st Hr) as Hnd.
  unfold all_cards, concealed_trump in Hnd. rewrite Hrev, Htc in Hnd. simpl in Hnd.
  rewrite !app_assoc in Hnd. apply NoDup_app in Hnd as (_ & Hnot & _).
  assert (Hout : c ∉ (((hands (players st) ++ center_pile st)
                       ++ won_cards (tricks_won st))
                      ++ map TrickCard.card (current_trick st))).
  { intros Hin. apply (Hnot c Hin). left. }
  rewrite !not_elem_of_app in Hout. destruct Hout as [[[Hh Hcp] Hw] Hct].
  split; [by apply (inv_trump_suit st Hr)|]. split.
  { pose proof (inv_no_trump st Hr) as Hno.
    destruct (phase st);
      try (rewrite Hno in Htc; [done|];
           apply (bool_decide_unpack _); vm_compute; exact I);
      apply (bool_decide_unpack _); vm_compute; exact I. }
  split.
  { intros p Hp Hc. apply Hh. unfold hands. apply list_elem_of_In, in_concat.
    exists (Player.hand p). split; [|by apply list_elem_of_In].
    apply list_elem_of_In. by apply (list_elem_of_fmap_2 Player.hand). }
  split; [done|]. split.
  { intros seat cards Hl Hc. apply Hw. unfold won_cards.
    apply list_elem_of_In, in_concat.
    exists cards. split; [|by apply list_elem_of_In].
    apply list_elem_of_In. apply elem_of_map_to_list in Hl.
    by apply (list_elem_of_fmap_2 snd) in Hl. }
  intros tc Htcin <-. apply Hct. by apply (list_elem_of_fmap_2 TrickCard.card).
Qed.

Lemma concealed_trump_card_set_aside_witness :
  trump_suit sample_game = Some HEARTS
  ∧ ∀ p, p ∈ players sample_game → Card.mk HEARTS JACK ∉ Player.hand p.
Proof.
  destruct (concealed_trump_card_set_aside sample_game (Card.mk HEARTS JACK))
    as (Hs & _ & Hh & _).
  - exact sample_game_reachable.
  - reflexivity.
  - reflexivity.
  - split; [exact Hs | exact Hh].
Defined.

(** ** Card exchange and timeouts *)

Lemma update_hand_raises seat g ps p :
  find (λ p, bool_decide (Player.seat p = seat)) ps = Some p →
  g (Player.hand p) = None →
  update_hand seat g ps = None.
Proof.
  induction ps as [|q ps IH]; simpl; [done|].
  case_bool_decide as Hq.
  - intros [= ->] Hg. by rewrite Hg.
  - intros Hp Hg. by rewrite IH.
Qed.

Lemma list_remove_first_absent x l :
  card_count x l = 0%nat → list_remove_first x l = None.
Proof.
  unfold card_count. induction l as [|y l IH]; simpl; [done|].
  destruct (Card_eq_dec y x) as [->|Hne]; [done|].
  intros H. rewrite bool_decide_eq_false_2 by done. by rewrite IH.
Qed.

(** X13: [validate_card_exchange] checks each named card against the hand
    separately, so naming twice a card the trumper holds once passes
    validation; [exchange_cards] then raises on the second removal, and
    [handle_card_exchange] returns no result at all. *)
Theorem exchange_same_card_twice_raises st seat p c :
  phase st = CARD_EXCHANGE → trumper_seat st = Some seat →
  get_player_by_seat st seat = Some p →
  card_count c (Player.hand p) = 1%nat →
  validate_card_exchange st seat [c; c] = Some (true, "")
  ∧ handle_card_exchange st seat [Card.id c; Card.id c] = None.
Proof.
  intros Hph Hts Hp Hc.
  assert (Hin : c ∈ Player.hand p).
  { apply list_elem_of_In, (count_occ_In Card_eq_dec).
    unfold card_count in Hc. lia. }
  assert (Hval : validate_card_exchange st seat [c; c] = Some (true, "")).
  { unfold validate_card_exchange.
    rewrite bool_decide_eq_false_2 by (rewrite Hph; by intros []).
    rewrite bool_decide_eq_false_2 by (by intros []).
    rewrite bool_decide_eq_false_2 by (by intros []).
    rewrite Hp. simpl.
    by rewrite !bool_decide_eq_false_2 by (by intros []). }
  split; [done|].
  unfold handle_card_exchange. simpl. rewrite !Card_from_id_id. simpl.
  rewrite Hval. simpl.
  unfold exchange_cards. rewrite Hp. simpl.
  unfold hand_remove at 2.
  destruct (update_hand seat (list_remove_first c) (players st)) as [ps|] eqn:Hup;
    [|done].
  simpl. unfold hand_remove. simpl.
  apply update_hand_lookup in Hup as (p0 & h' & Hp0 & Hg & Hp' & _).
  unfold get_player_by_seat in Hp. rewrite Hp in Hp0. injection Hp0 as <-.
  rewrite (update_hand_raises seat _ ps _ Hp'); [done|].
  simpl. apply list_remove_first_absent.
  pose proof (list_remove_first_count c _ _ c Hg) as Hcount.
  assert (card_count c [c] = 1%nat) as Hone.
  { unfold card_count. simpl. by destruct (Card_eq_dec c c). }
  lia.
Qed.

Lemma exchange_same_card_twice_raises_witness :
  validate_card_exchange sample_exchange 0
    [Card.mk SPADES ACE; Card.mk SPADES ACE] = Some (true, "")
  ∧ handle_card_exchange sample_exchange 0 ["A_spades"; "A_spades"] = None.
Proof.
  apply (exchange_same_card_twice_raises sample_exchange 0
           (default (Player.mk "" "" 0 None []) (get_player_by_seat sample_exchange 0))
           (Card.mk SPADES ACE)); reflexivity.
Defined.

(** X14: [handle_timeout] for the seat to play that holds no card reports
    success with the payload of [auto_play]'s error and the timeout mark, and
    changes nothing; for a seat to play that nobody sits at it raises. *)
Theorem timeout_with_nothing_to_play st seat r1 r2 :
  turn_seat st = Some seat →
  (∀ p, get_player_by_seat st seat = Some p → Player.hand p = [] →
     handle_timeout st seat r1 r2
     = Some ((true, [("error", VStr "No valid cards to play");
                     ("timeout", VBool true)]), st))
  ∧ (get_player_by_seat st seat = None → handle_timeout st seat r1 r2 = None).
Proof.
  intros Hturn. unfold handle_timeout, auto_play, get_valid_cards.
  rewrite bool_decide_eq_false_2 by (by intros []).
  split.
  - intros p -> Hh. simpl. by rewrite Hh.
  - by intros ->.
Qed.

Lemma timeout_with_nothing_to_play_witness :
  handle_timeout sample_scored 2 0 0
  = Some ((true, [("error", VStr "No valid cards to play");
                  ("timeout", VBool true)]), sample_scored).
Proof.
  destruct (timeout_with_nothing_to_play sample_scored 2 0 0 eq_refl) as [H _].
  apply (H (Player.mk "p2" "Chitra" 2 None [])); reflexivity.
Defined.

(** ** Points and scores *)

Lemma sum_points_app l k : sum_points (l ++ k) = sum_points l + sum_points k.
Proof. induction l as [|c l IH]; simpl; [done|]. rewrite IH. lia. Qed.

Lemma sum_points_nonneg l : 0 <= sum_points l.
Proof.
  induction l as [|c l IH]; simpl; [done|].
  assert (0 <= Card.points c) by (by destruct c as [s []]). lia.
Qed.

Lemma team_points_fold (team : list Z) (l : list (Z * list Card)) :
  let r := foldr (fun '(seat, cards) '(tp, op) =>
                    let points := sum_points cards in
                    if bool_decide (seat ∈ team) then (tp + points, op)
                    else (tp, op + points))
                 (0, 0) l in
  r.1 + r.2 = sum_points (concat (map snd l)) ∧ 0 <= r.1 ∧ 0 <= r.2.
Proof.
  induction l as [|[seat cards] l IH]; simpl; [done|].
  destruct (foldr _ _ l) as [tp op]. simpl in IH.
  rewrite sum_points_app. pose proof (sum_points_nonneg cards).
  case_bool_decide; simpl; lia.
Qed.

Lemma calculate_team_points_sum st :
  (calculate_team_points st).1 + (calculate_team_points st).2
  = sum_points (won_cards (tricks_won st))
    + (if bool_decide (mode st = 3) && exchange_done st
       then sum_points (center_pile st) else 0)
    + sum_points (concealed_trump st)
  ∧ 0 <= (calculate_team_points st).1 ∧ 0 <= (calculate_team_points st).2.
Proof.
  unfold calculate_team_points, won_cards, concealed_trump.
  pose proof (team_points_fold (get_trumper_team_seats st)
                (map_to_list (tricks_won st))) as H.
  cbv zeta in H. destruct (foldr _ _ _) as [tp op]. simpl in H.
  pose proof (sum_points_nonneg (center_pile st)).
  assert (Hcp : (if bool_decide (mode st = 3) && exchange_done st
                      && bool_decide (center_pile st ≠ [])
                 then op + sum_points (center_pile st) else op)
                = op + (if bool_decide (mode st = 3) && exchange_done st
                        then sum_points (center_pile st) else 0)).
  { destruct (bool_decide (mode st = 3) && exchange_done st); simpl; [|lia].
    case_bool_decide as Hne; [done|].
    rewrite Hne. simpl. lia. }
  rewrite Hcp. clear Hcp. destruct H as (Hs & Htp & Hop). rewrite <- Hs.
  destruct (trump_card st) as [tc|].
  - assert (0 <= Card.points tc) by (by destruct tc as [s []]).
    destruct (trump_revealed st); simpl;
      destruct (bool_decide (mode st = 3) && exchange_done st); simpl; lia.
  - destruct (trump_revealed st); simpl;
      destruct (bool_decide (mode st = 3) && exchange_done st); simpl; lia.
Qed.

(** X15: from the first deal on, the points [calculate_team_points] gives the
    two teams, the points still in the hands and in the trick in progress,
    and the points of a center pile that is not credited to the opposing team
    add up to 304; neither team's points are negative. *)
Theorem team_points_account_for_304 st :
  reachable st → phase st ≠ WAITING →
  (calculate_team_points st).1 + (calculate_team_points st).2
  + sum_points (hands (players st))
  + sum_points (map TrickCard.card (current_trick st))
  + (if bool_decide (mode st = 3) && exchange_done st
     then 0 else sum_points (center_pile st))
  = 304
  ∧ 0 <= (calculate_team_points st).1 ∧ 0 <= (calculate_team_points st).2.
Proof.
  intros Hr Hph. apply reachable_inv in Hr.
  destruct (inv_started st Hr Hph) as [_ Hcons].
  apply conserved_iff_Permutation, sum_points_Permutation in Hcons.
  assert (sum_points create_deck = 304) as Hdeck by (vm_compute; reflexivity).
  rewrite Hdeck in Hcons. unfold all_cards in Hcons.
  rewrite !sum_points_app in Hcons.
  destruct (calculate_team_points_sum st) as (Hsum & Htp & Hop).
  split; [|done]. rewrite Hsum.
  destruct (bool_decide (mode st = 3) && exchange_done st); lia.
Qed.

Lemma team_points_account_for_304_witness :
  (calculate_team_points sample_game).1 + (calculate_team_points sample_game).2
  + sum_points (hands (players sample_game))
  + sum_points (map TrickCard.card (current_trick sample_game))
  + sum_points (center_pile sample_game)
  = 304.
Proof.
  destruct (team_points_account_for_304 sample_game) as [H _].
  - exact sample_game_reachable.
  - discriminate.
  - exact H.
Defined.

Lemma award_fold (pts : Z) (team : list Z) (sc : gmap Z Z) s :
  NoDup team →
  foldl (λ (sc : gmap Z Z) (seat : Z), <[seat := default 0 (sc !! seat) + pts]> sc)
        sc team !! s
  = if bool_decide (s ∈ team) then Some (default 0 (sc !! s) + pts) else sc !! s.
Proof.
  revert sc. induction team as [|a team IH]; intros sc Hnd.
  { by rewrite bool_decide_eq_false_2 by apply not_elem_of_nil. }
  cbn [foldl]. apply NoDup_cons in Hnd as [Ha Hnd]. rewrite IH by done.
  destruct (decide (s = a)) as [Heq|Hne].
  - subst s. rewrite (bool_decide_eq_false_2 _ Ha).
    rewrite bool_decide_eq_true_2 by left.
    by rewrite lookup_insert_eq.
  - rewrite lookup_insert_ne by done.
    case_bool_decide as Hin.
    + by rewrite bool_decide_eq_true_2 by (by right).
    + rewrite bool_decide_eq_false_2; [done|].
      by intros [?|?]%elem_of_cons.
Qed.

Lemma get_trumper_team_seats_NoDup st : NoDup (get_trumper_team_seats st).
Proof.
  unfold get_trumper_team_seats, get_team.
  destruct (trumper_seat st) as [t|]; [|constructor].
  case_bool_decide.
  - apply NoDup_cons. split; [|apply NoDup_singleton].
    rewrite list_elem_of_singleton.
    intros Ht. pose proof (Z.mod_pos_bound (t + 2) 4 ltac:(lia)) as Hb.
    rewrite <- Ht in Hb.
    assert (t = 0 ∨ t = 1 ∨ t = 2 ∨ t = 3) as [E|[E|[E|E]]] by lia;
      rewrite E in Ht; by vm_compute in Ht.
  - case_bool_decide; [|apply NoDup_singleton].
    rewrite bool_decide_eq_true_2 by done. apply NoDup_singleton.
Qed.

(** X16: [_score_game] moves the game to the scoring phase.  On a spoilt
    trump it awards nothing and does not count the game.  Otherwise it counts
    the game and adds the award for the bid to every seat of the trumper's
    team when the team's points reach the bid (10 on a bid of 304, 6 from
    200, else 5), and to every seat of the opposing team when they do not
    (7 on a bid of 304, 5 from 200, else 3); the result reports who won and
    the award, and no other score changes. *)
Theorem score_game_awards st res st' :
  NoDup (map Player.seat (players st)) →
  _score_game st = Some (res, st') →
  phase st' = SCORING
  ∧ (check_spoilt_trump st = true →
     scores st' = scores st ∧ games_played st' = games_played st)
  ∧ (check_spoilt_trump st = false →
     ∃ bid, current_bid st ≫= Bid.amount = Some bid
       ∧ games_played st' = games_played st + 1
       ∧ let won := bool_decide ((calculate_team_points st).1 >= bid) in
         let team := if won then get_trumper_team_seats st
                     else get_opposing_team_seats st in
         let pts := if bool_decide (bid = 304) then (if won then 10 else 7)
                    else if bool_decide (bid >= 200) then (if won then 6 else 5)
                    else (if won then 5 else 3) in
         dict_get "trumper_won" res = Some (VBool won)
         ∧ dict_get "points_awarded" res = Some (VInt pts)
         ∧ ∀ s, scores st' !! s
                = if bool_decide (s ∈ team)
                  then Some (default 0 (scores st !! s) + pts)
                  else scores st !! s).
Proof.
  intros Hnd H. unfold _score_game in H. cbv zeta in H.
  change (check_spoilt_trump (set_phase SCORING st)) with (check_spoilt_trump st) in H.
  change (calculate_team_points (set_phase SCORING st))
    with (calculate_team_points st) in H.
  destruct (check_spoilt_trump st) eqn:Hsp.
  { injection H as _ <-. split; [done|]. split; [done|]. done. }
  apply bind_Some in H as (cb & Hcb & H).
  apply bind_Some in H as (bid & Hbid & H).
  simpl in Hcb, Hbid.
  destruct (get_scoring_points bid) as [win_points lose_points] eqn:Hpts.
  injection H as <- <-.
  split.
  { by destruct (bool_decide _). }
  split; [done|]. intros _. exists bid.
  split; [by rewrite Hcb|].
  split.
  { by destruct (bool_decide _). }
  cbv zeta.
  assert (Hwin : win_points = if bool_decide (bid = 304) then 10
                              else if bool_decide (bid >= 200) then 6 else 5).
  { unfold get_scoring_points in Hpts.
    repeat case_bool_decide; by injection Hpts as <- <-. }
  assert (Hlose : lose_points = if bool_decide (bid = 304) then 7
                                else if bool_decide (bid >= 200) then 5 else 3).
  { unfold get_scoring_points in Hpts.
    repeat case_bool_decide; by injection Hpts as <- <-. }
  split; [done|]. split.
  - rewrite Hwin, Hlose. simpl.
    by destruct (bool_decide (_ >= bid)), (bool_decide (bid = 304)),
         (bool_decide (bid >= 200)).
  - intros s.
    replace (if bool_decide (bid = 304)
             then if bool_decide ((calculate_team_points st).1 >= bid) then 10 else 7
             else if bool_decide (bid >= 200)
                  then if bool_decide ((calculate_team_points st).1 >= bid)
                       then 6 else 5
                  else if bool_decide ((calculate_team_points st).1 >= bid)
                       then 5 else 3)
      with (if bool_decide ((calculate_team_points st).1 >= bid)
            then win_points else lose_points)
      by (rewrite Hwin, Hlose;
          by destruct (bool_decide (_ >= bid)), (bool_decide (bid = 304)),
               (bool_decide (bid >= 200))).
    destruct (bool_decide (_ >= bid)); simpl.
    + apply award_fold, get_trumper_team_seats_NoDup.
    + apply award_fold. unfold get_opposing_team_seats. simpl.
      destruct (trumper_seat st); [|constructor].
      by apply NoDup_filter.
Qed.

Lemma score_game_awards_witness :
  _score_game sample_lost = Some sample_lost_scored
  ∧ phase sample_lost_scored.2 = SCORING
  ∧ games_played sample_lost_scored.2 = 2
  ∧ dict_get "points_awarded" sample_lost_scored.1 = Some (VInt 3)
  ∧ scores sample_lost_scored.2 !! 0 = Some 3
  ∧ scores sample_lost_scored.2 !! 1 = Some 5.
Proof.
  split; [vm_compute; reflexivity|].
  destruct (score_game_awards sample_lost sample_lost_scored.1 sample_lost_scored.2)
    as (Hph & _ & Hscore).
  - apply (bool_decide_unpack _). vm_compute. exact I.
  - vm_compute; reflexivity.
  - split; [exact Hph|].
    destruct Hscore as (bid & Hbid & Hgp & _ & Hpa & Hsc); [vm_compute; reflexivity|].
    injection Hbid as <-.
    split; [exact Hgp|]. split; [exact Hpa|].
    split; [apply (Hsc 0) | apply (Hsc 1)].
Defined.

(** ** The per-seat view: what it does not show *)

(** X17: the view of a seat does not depend on what the seat must not see.
    Replacing the other seats' hands, the deck and the contents of the center
    pile (keeping its size) leaves [get_player_view] for that seat unchanged,
    whoever the viewer is and whether the trump is revealed or not; while the
    trump is concealed and the viewer is not the trumper, replacing the trump
    suit and the trump card as well leaves it unchanged too. *)
Theorem view_hides_secrets st seat ps' dk' cp' ts' tc' :
  map Player.to_public_dict ps' = map Player.to_public_dict (players st) →
  Player.hand <$> find (λ p, bool_decide (Player.seat p = seat)) ps'
    = Player.hand <$> get_player_by_seat st seat →
  length cp' = length (center_pile st) →
  get_player_view (set_center_pile cp' (set_deck dk' (set_players ps' st))) seat
  = get_player_view st seat
  ∧ (trump_revealed st = false → trumper_seat st ≠ Some seat →
     get_player_view
       (set_trump_card tc'
          (set_trump_suit ts'
             (set_center_pile cp' (set_deck dk' (set_players ps' st)))))
       seat
     = get_player_view st seat).
Proof.
  intros Hpub Hhand Hlen.
  assert (Hpub' : map (λ p, VDict (Player.to_public_dict p)) ps'
                  = map (λ p, VDict (Player.to_public_dict p)) (players st)).
  { rewrite <- !(map_map Player.to_public_dict VDict). by rewrite Hpub. }
  unfold get_player_view, get_valid_cards, get_trumper_team_seats, get_team,
    get_calling_suit, get_player_by_seat in *.
  simpl. rewrite Hpub', Hlen.
  destruct (find _ ps') as [p'|], (find _ (players st)) as [p|];
    simpl in Hhand; try done.
  - injection Hhand as Hh. simpl. rewrite Hh. split; [done|].
    intros Hrev Htr. rewrite Hrev.
    by rewrite (bool_decide_eq_false_2 (Some seat = trumper_seat st)) by congruence.
  - split; [done|].
    intros Hrev Htr. rewrite Hrev.
    by rewrite (bool_decide_eq_false_2 (Some seat = trumper_seat st)) by congruence.
Qed.

Lemma view_hides_secrets_witness :
  get_player_view
    (set_center_pile [Card.mk CLUBS ACE]
       (set_deck create_deck
          (set_players
             (map (λ p, if bool_decide (Player.seat p = 0) then p
                        else Player.set_hand [Card.mk HEARTS NINE] p)
                  (players sample_revealed.2))
             (set_center_pile [Card.mk SPADES SEVEN] sample_revealed.2))))
    0
  = get_player_view (set_center_pile [Card.mk SPADES SEVEN] sample_revealed.2) 0
  ∧ get_player_view
      (set_trump_card (Some (Card.mk CLUBS ACE))
         (set_trump_suit (Some CLUBS)
            (set_center_pile []
               (set_deck create_deck
                  (set_players
                     (map (λ p, if bool_decide (Player.seat p = 2) then p
                                else Player.set_hand [Card.mk HEARTS NINE] p)
                          sample_players)
                     sample_playing)))))
      2
    = get_player_view sample_playing 2.
Proof.
  split.
  - destruct (view_hides_secrets
                (set_center_pile [Card.mk SPADES SEVEN] sample_revealed.2) 0
                (map (λ p, if bool_decide (Player.seat p = 0) then p
                           else Player.set_hand [Card.mk HEARTS NINE] p)
                     (players sample_revealed.2))
                create_deck [Card.mk CLUBS ACE] None None) as [H _].
    + vm_compute; reflexivity.
    + vm_compute; reflexivity.
    + reflexivity.
    + exact H.
  - destruct (view_hides_secrets sample_playing 2
                (map (λ p, if bool_decide (Player.seat p = 2) then p
                           else Player.set_hand [Card.mk HEARTS NINE] p)
                     sample_players)
                create_deck [] (Some CLUBS) (Some (Card.mk CLUBS ACE))) as [_ H].
    + vm_compute; reflexivity.
    + vm_compute; reflexivity.
    + reflexivity.
    + apply H; [reflexivity|discriminate].
Defined.

(** ** The snapshot codec: required and optional keys *)

(** X18: [deserialize_game_state] raises when one of the keys "game_code",
    "mode", "phase" or "dealer_seat" is missing; an item with just these four
    keys is read as a game with every other field at its default: no players,
    no cards, no bids, no trump, trick number 0, empty scores. *)
Theorem deserialize_required_and_default item :
  (∀ k, k ∈ ["game_code"; "mode"; "phase"; "dealer_seat"] →
        dict_get k item = None → deserialize_game_state item = None)
  ∧ ∀ code m ph dealer,
      deserialize_game_state
        [("game_code", VStr code); ("mode", VInt m);
         ("phase", VStr (GamePhase_value ph)); ("dealer_seat", VInt dealer)]
      = Some (set_dealer_seat dealer (set_phase ph (new_game_state code m None))).
Proof.
  split.
  - intros k Hk Hnone. unfold deserialize_game_state.
    repeat (apply elem_of_cons in Hk as [->|Hk]).
    + by rewrite Hnone.
    + destruct (dict_get "game_code" item ≫= as_str); [|done]. simpl.
      by rewrite Hnone.
    + destruct (dict_get "game_code" item ≫= as_str); [|done]. simpl.
      destruct (dict_get "mode" item ≫= py_int); [|done]. simpl.
      by rewrite Hnone.
    + destruct (dict_get "game_code" item ≫= as_str); [|done]. simpl.
      destruct (dict_get "mode" item ≫= py_int); [|done]. simpl.
      destruct (dict_get "phase" item ≫= as_str); [|done]. simpl.
      destruct (GamePhase_of_value _); [|done]. simpl.
      by rewrite Hnone.
    + by apply elem_of_nil in Hk.
  - intros code m ph dealer. unfold deserialize_game_state.
    cbn [dict_get String.eqb Ascii.eqb Bool.eqb]. simpl.
    rewrite GamePhase_of_value_value. reflexivity.
Qed.

Lemma deserialize_required_and_default_witness :
  deserialize_game_state
    [("game_code", VStr "ABC123"); ("mode", VInt 4); ("phase", VStr "PLAYING")]
  = None.
Proof.
  destruct (deserialize_required_and_default
              [("game_code", VStr "ABC123"); ("mode", VInt 4);
               ("phase", VStr "PLAYING")]) as [H _].
  apply (H "dealer_seat").
  - apply (bool_decide_unpack _). vm_compute. exact I.
  - reflexivity.
Defined.

(** ** The table and the bidding round: what the card operations keep *)

Lemma unhanded_seats ps qs :
  map (Player.set_hand []) ps = map (Player.set_hand []) qs →
  map Player.seat ps = map Player.seat qs.
Proof.
  intros H. apply (f_equal (map Player.seat)) in H.
  by rewrite !map_map in H.
Qed.

Lemma hand_extend_round seat cs st st' :
  hand_extend seat cs st = Some st' →
  round_of st' = round_of st ∧ phase st' = phase st ∧ turn_seat st' = turn_seat st
  ∧ current_trick st' = current_trick st.
Proof.
  intros H. apply hand_extend_spec in H as (ps & -> & _ & Hun & _).
  unfold round_of. simpl. by rewrite (unhanded_seats _ _ Hun).
Qed.

Lemma hand_remove_round seat c st st' :
  hand_remove seat c st = Some st' →
  round_of st' = round_of st ∧ phase st' = phase st ∧ turn_seat st' = turn_seat st
  ∧ current_trick st' = current_trick st.
Proof.
  intros H. apply hand_remove_spec in H as (ps & -> & _ & Hun & _).
  unfold round_of. simpl. by rewrite (unhanded_seats _ _ Hun).
Qed.

Lemma hand_remove_all_round seat cards st st' :
  hand_remove_all seat cards st = Some st' →
  round_of st' = round_of st ∧ phase st' = phase st ∧ turn_seat st' = turn_seat st.
Proof.
  revert st. induction cards as [|c cards IH]; intros st H; simpl in H.
  - by injection H as <-.
  - apply bind_Some in H as (st1 & Hrm & H).
    apply IH in H as (-> & -> & ->).
    by apply hand_remove_round in Hrm as (? & ? & ? & _).
Qed.

Lemma _set_first_player_round st st' :
  _set_first_player st = Some st' →
  round_of st' = round_of st ∧ phase st' = phase st.
Proof. intros H. by apply _set_first_player_spec in H as (first & ->). Qed.

Lemma reveal_trump_round st seat r st' :
  reveal_trump st seat = Some (r, st') →
  round_of st' = round_of st ∧ phase st' = phase st ∧ turn_seat st' = turn_seat st.
Proof.
  unfold reveal_trump. intros H.
  destruct (trump_revealed st). { by injection H as _ <-. }
  destruct (trump_suit st). 2:{ by injection H as _ <-. }
  cbn -[hand_extend] in H. destruct (trump_card st) as [tc|].
  - apply bind_Some in H as (tseat & _ & H).
    apply bind_Some in H as (st1 & Hex & H). injection H as _ <-.
    by apply hand_extend_round in Hex as (-> & -> & -> & _).
  - by injection H as _ <-.
Qed.

Lemma _draw_loop_round seats st draws d st' :
  _draw_loop seats st draws = Some (d, st') →
  round_of st' = round_of st ∧ phase st' = phase st.
Proof.
  revert st draws. induction seats as [|seat seats IH]; intros st draws H; simpl in H.
  { by injection H as _ <-. }
  destruct (center_pile st) as [|card pile] eqn:Hcp.
  { by injection H as _ <-. }
  apply bind_Some in H as (st1 & Hex & H).
  apply hand_extend_round in Hex as (Hr & Hp & _).
  apply IH in H as (-> & ->). by rewrite Hr, Hp.
Qed.

Lemma _resolve_trick_round st r st' :
  _resolve_trick st = Some (r, st') →
  round_of st' = round_of st ∧ phase st' = phase st.
Proof.
  unfold _resolve_trick. intros H.
  apply bind_Some in H as (first & Hhead & H). cbv zeta in H.
  remember (set_trick_number _ (set_current_trick [] (set_tricks_won _ st)))
    as st1 eqn:E1 in H.
  assert (H1 : round_of st1 = round_of st ∧ phase st1 = phase st) by by subst st1.
  clear E1. destruct H1 as [<- <-].
  apply bind_Some in H as ([result2 st2] & Hdraw & H). cbv beta iota in H.
  assert (H2 : round_of st2 = round_of st1 ∧ phase st2 = phase st1).
  { destruct (_ && _) in Hdraw.
    - apply bind_Some in Hdraw as ([draws st3] & Hd & Hdraw).
      injection Hdraw as _ <-. unfold _draw_cards_2p in Hd.
      apply bind_Some in Hd as (nxt & _ & Hd). by eapply _draw_loop_round.
    - by injection Hdraw as _ <-. }
  clear Hdraw Hhead. destruct H2 as [<- <-].
  apply bind_Some in H as (he & _ & H). cbv beta in H.
  destruct he.
  { by injection H as _ <-. }
  destruct (_ && _) in H.
  { apply bind_Some in H as ([result3 st3] & Hrev & H). injection H as _ <-.
    destruct (negb _) in Hrev.
    - apply bind_Some in Hrev as ([rr st4] & Hr & Hrev). injection Hrev as _ <-.
      by apply reveal_trump_round in Hr as (-> & -> & _).
    - by injection Hrev as _ <-. }
  destruct (forallb _ _) in H.
  { by injection H as _ <-. }
  by injection H as _ <-.
Qed.

Lemma play_card_round st seat card r st' :
  play_card st seat card = Some (r, st') →
  round_of st' = round_of st ∧ phase st' = phase st.
Proof.
  unfold play_card. intros H.
  apply bind_Some in H as (st1 & Hrm & H). cbv zeta in H.
  apply hand_remove_round in Hrm as (<- & <- & _).
  remember (set_current_trick _ st1) as st2 eqn:E2 in H.
  assert (H2 : round_of st2 = round_of st1 ∧ phase st2 = phase st1) by by subst st2.
  clear E2. destruct H2 as [<- <-].
  destruct (bool_decide _) in H.
  - apply bind_Some in H as ([tr st3] & Hres & H). injection H as _ <-.
    by eapply _resolve_trick_round.
  - apply bind_Some in H as (nxt & _ & H). by injection H as _ <-.
Qed.

Lemma _score_game_round st r st' :
  _score_game st = Some (r, st') →
  round_of st' = round_of st ∧ phase st' = SCORING.
Proof.
  unfold _score_game. cbv zeta. intros H.
  destruct (check_spoilt_trump _) in H.
  { by injection H as _ <-. }
  apply bind_Some in H as (cb & _ & H).
  apply bind_Some in H as (bid_amount & _ & H).
  destruct (get_scoring_points bid_amount) as [win_points lose_points].
  injection H as _ <-. by destruct (bool_decide _).
Qed.

Lemma score_if_over_round result st r st' :
  score_if_over result st = Some (r, st') →
  round_of st' = round_of st ∧ (phase st' = phase st ∨ phase st' = SCORING).
Proof.
  unfold score_if_over. intros H. destruct (truthy _) in H.
  - apply bind_Some in H as ([sc st1] & Hs & H). injection H as _ <-.
    apply _score_game_round in Hs as [-> ->]. auto.
  - injection H as _ <-. auto.
Qed.

Lemma auto_play_round st seat r1 r2 r st' :
  auto_play st seat r1 r2 = Some (r, st') →
  round_of st' = round_of st ∧ phase st' = phase st.
Proof.
  unfold auto_play. intros H.
  apply bind_Some in H as (valid & _ & H).
  destruct valid as [|c0 v]; [by injection H as _ <-|].
  apply bind_Some in H as (card & _ & H). by eapply play_card_round.
Qed.

Ltac phase_in := apply (bool_decide_unpack _); vm_compute; exact I.
Ltac phase_out H :=
  exfalso; apply (bool_decide_pack _) in H; vm_compute in H; exact H.

Lemma round_of_eq st st' :
  round_of st' = round_of st →
  mode st' = mode st
  ∧ map Player.seat (players st') = map Player.seat (players st)
  ∧ length (players st') = length (players st)
  ∧ dealer_seat st' = dealer_seat st ∧ bids st' = bids st
  ∧ current_bid st' = current_bid st ∧ trumper_seat st' = trumper_seat st
  ∧ bid_turn_seat st' = bid_turn_seat st.
Proof.
  unfold round_of. intros [= Hm Hs Hd Hb Hc Ht Hbt].
  repeat split; try done.
  apply (f_equal length) in Hs. by rewrite !length_map in Hs.
Qed.

(** An operation of the later phases that keeps the round keeps the
    invariant. *)
Lemma round_inv_later st st' :
  round_inv st →
  round_of st' = round_of st →
  phase st ∈ [TRUMP_SELECTION; CARD_EXCHANGE; PLAYING; SCORING] →
  phase st' ∈ [TRUMP_SELECTION; CARD_EXCHANGE; PLAYING; SCORING] →
  (phase st' ∈ [TRUMP_SELECTION; CARD_EXCHANGE] → turn_seat st' = None) →
  round_inv st'.
Proof.
  intros [Hseats Hdealer Hidle Hbid Htr] Hr Hph Hph' Hturn.
  apply round_of_eq in Hr as (Hm & Hs & Hl & Hd & Hb & Hc & Ht & Hbt).
  assert (Hnw : phase st ≠ WAITING).
  { intros E. rewrite E in Hph. phase_out Hph. }
  split.
  - by rewrite Hs, Hl.
  - intros _. rewrite Hm, Hd. by apply Hdealer.
  - intros Hi. apply Hturn.
    destruct (phase st'); first [phase_in | phase_out Hi | phase_out Hph'].
  - intros E. rewrite E in Hph'. phase_out Hph'.
  - intros _. destruct (Htr Hph) as (cb & a & Hcb & Hhi & Hts).
    exists cb, a. rewrite Hc, Ht. split; [done|]. split; [|done].
    unfold highest_bid in *. by rewrite Hb, Hm.
Qed.

Lemma select_trump_round st seat suit card r st' :
  select_trump st seat suit card = Some (r, st') →
  round_of st' = round_of st
  ∧ ((phase st' = CARD_EXCHANGE ∧ turn_seat st' = turn_seat st)
     ∨ phase st' = PLAYING).
Proof.
  unfold select_trump. intros H.
  apply bind_Some in H as (st1 & Hrm & H). cbv zeta in H.
  apply hand_remove_round in Hrm as (<- & _ & <- & _).
  destruct (bool_decide _) in H.
  - injection H as _ <-. split; [done|]. by left.
  - apply bind_Some in H as (st2 & Hfp & H). injection H as _ <-.
    apply _set_first_player_round in Hfp as [-> ->]. split; [done|]. by right.
Qed.

Lemma exchange_cards_round st seat cards r st' :
  exchange_cards st seat cards = Some (r, st') →
  round_of st' = round_of st ∧ phase st' = PLAYING.
Proof.
  unfold exchange_cards. intros H.
  apply bind_Some in H as (p & _ & H).
  apply bind_Some in H as (st1 & Hrm & H). cbv zeta in H.
  apply hand_remove_all_round in Hrm as (<- & _ & _).
  apply bind_Some in H as (st2 & Hex & H).
  apply hand_extend_round in Hex as (<- & _ & _ & _).
  apply bind_Some in H as (st3 & Hfp & H). injection H as _ <-.
  by apply _set_first_player_round in Hfp as [-> ->].
Qed.

Lemma skip_exchange_round st seat r st' :
  skip_exchange st seat = Some ((true, r), st') →
  phase st = CARD_EXCHANGE ∧ round_of st' = round_of st ∧ phase st' = PLAYING.
Proof.
  unfold skip_exchange. intros H.
  case_bool_decide as Hph; [done|].
  case_bool_decide; [done|].
  apply bind_Some in H as (st1 & Hfp & H). injection H as _ <-.
  apply _set_first_player_round in Hfp as [-> ->].
  split; [|done]. by destruct (decide (phase st = CARD_EXCHANGE)).
Qed.

Lemma handle_trump_selection_round st seat suit_str card_id r st' :
  round_inv st →
  handle_trump_selection st seat suit_str card_id = Some ((true, r), st') →
  round_inv st'.
Proof.
  intros Hinv. unfold handle_trump_selection. intros H.
  destruct (Suit_of_value suit_str) as [suit|]; [|done].
  destruct (Card.from_id card_id) as [card|]; [|done].
  apply bind_Some in H as ([valid err] & Hv & H).
  destruct valid; [|done]. simpl in H.
  apply bind_Some in H as ([r0 st0] & Hsel & H). injection H as _ <-.
  apply validate_trump_selection_ok in Hv as [Hph _].
  apply select_trump_round in Hsel as [Hr Hph'].
  apply (round_inv_later st); [done|done|rewrite Hph; phase_in| |].
  - destruct Hph' as [[-> _]| ->]; phase_in.
  - intros Hi. destruct Hph' as [[_ ->]|E].
    + apply (rnd_idle st Hinv). rewrite Hph. phase_in.
    + rewrite E in Hi. phase_out Hi.
Qed.

Lemma handle_card_exchange_round st seat card_ids r st' :
  round_inv st →
  handle_card_exchange st seat card_ids = Some ((true, r), st') →
  round_inv st'.
Proof.
  intros Hinv. unfold handle_card_exchange. intros H.
  destruct (mapM Card.from_id card_ids) as [cards|]; [|done].
  apply bind_Some in H as ([valid err] & Hv & H).
  destruct valid; [|done]. simpl in H.
  apply bind_Some in H as ([r0 st0] & Hex & H). injection H as _ <-.
  apply validate_card_exchange_phase in Hv.
  apply exchange_cards_round in Hex as [Hr Hph'].
  apply (round_inv_later st); [done|done|rewrite Hv; phase_in|rewrite Hph'; phase_in|].
  intros Hi. rewrite Hph' in Hi. phase_out Hi.
Qed.

Lemma handle_skip_exchange_round st seat r st' :
  round_inv st →
  handle_skip_exchange st seat = Some ((true, r), st') →
  round_inv st'.
Proof.
  intros Hinv. unfold handle_skip_exchange. intros H.
  apply bind_Some in H as ([[success r0] st0] & Hsk & H).
  destruct success; [|done]. simpl in H. injection H as _ <-.
  apply skip_exchange_round in Hsk as (Hph & Hr & Hph').
  apply (round_inv_later st); [done|done|rewrite Hph; phase_in|rewrite Hph'; phase_in|].
  intros Hi. rewrite Hph' in Hi. phase_out Hi.
Qed.

Lemma handle_play_card_round st seat card_id r st' :
  round_inv st →
  handle_play_card st seat card_id = Some ((true, r), st') →
  round_inv st'.
Proof.
  intros Hinv. unfold handle_play_card. intros H.
  destruct (Card.from_id card_id) as [card|]; [|done]. cbv zeta in H.
  apply bind_Some in H as ([valid err] & Hv & H).
  destruct valid; [|done]. simpl in H.
  apply bind_Some in H as ([r0 st0] & Hp & H).
  apply bind_Some in H as ([r1 st1] & Hs & H). injection H as _ <-.
  apply validate_play_phase in Hv.
  apply play_card_round in Hp as [Hr0 Hph0].
  apply score_if_over_round in Hs as [Hr1 Hph1].
  rewrite Hph0, Hv in Hph1. rewrite Hr0 in Hr1.
  apply (round_inv_later st); [done|done|rewrite Hv; phase_in| |].
  - destruct Hph1 as [-> | ->]; phase_in.
  - intros Hi. destruct Hph1 as [E|E]; rewrite E in Hi; phase_out Hi.
Qed.

Lemma handle_ask_trump_round st seat r st' :
  round_inv st →
  handle_ask_trump st seat = Some ((true, r), st') →
  round_inv st'.
Proof.
  intros Hinv. unfold handle_ask_trump. intros H.
  destruct (trump_revealed st); [done|].
  case_bool_decide; [done|].
  by case_bool_decide.
Qed.

Lemma handle_reveal_trump_round st seat r st' :
  round_inv st →
  handle_reveal_trump st seat = Some ((true, r), st') →
  round_inv st'.
Proof.
  intros Hinv. unfold handle_reveal_trump. intros H.
  case_bool_decide; [done|].
  case_bool_decide as Hph; [done|].
  apply bind_Some in H as ([[success err] st1] & Hr & H).
  destruct success; [|done]. simpl in H.
  apply bind_Some in H as (payload & _ & H). injection H as _ <-.
  apply reveal_trump_round in Hr as (Hr & Hph' & _).
  assert (phase st = PLAYING) as E by by destruct (decide (phase st = PLAYING)).
  rewrite E in Hph'.
  apply (round_inv_later st); [done|done|rewrite E; phase_in|rewrite Hph'; phase_in|].
  intros Hi. rewrite Hph' in Hi. phase_out Hi.
Qed.

Lemma handle_timeout_round st seat r1 r2 r st' :
  round_inv st →
  handle_timeout st seat r1 r2 = Some ((true, r), st') →
  round_inv st'.
Proof.
  intros Hinv. unfold handle_timeout. intros H.
  case_bool_decide as Hturn; [done|].
  apply bind_Some in H as ([r0 st0] & Hp & H).
  apply bind_Some in H as ([r3 st3] & Hs & H). injection H as _ <-.
  apply auto_play_round in Hp as [Hr0 Hph0].
  apply score_if_over_round in Hs as [Hr1 Hph1].
  rewrite Hph0 in Hph1. rewrite Hr0 in Hr1.
  assert (Hlate : phase st ∈ [PLAYING; SCORING]).
  { pose proof (rnd_idle st Hinv) as Hidle.
    destruct (phase st); try phase_in;
      (assert (turn_seat st = None) as E by (apply Hidle; phase_in));
      rewrite E in Hturn; first [discriminate | by destruct Hturn]. }
  apply (round_inv_later st); [done|done| | |].
  - destruct (phase st); first [phase_in | phase_out Hlate].
  - destruct Hph1 as [-> | ->]; [|phase_in].
    destruct (phase st); first [phase_in | phase_out Hlate].
  - intros Hi. destruct Hph1 as [E|E]; rewrite E in Hi; [|phase_out Hi].
    destruct (phase st); first [phase_out Hi | phase_out Hlate].
Qed.

Lemma create_game_round mode creator_name game_code player_id created_at st p :
  create_game mode creator_name game_code player_id created_at = Some (st, p) →
  round_inv st.
Proof.
  unfold create_game. intros H. case_bool_decide as Hm; [done|].
  injection H as <- _. split; simpl; try done.
  - intros Hi. phase_out Hi.
Qed.

Lemma join_game_round st player_name player_id r st' :
  game_inv st → round_inv st →
  join_game st player_name player_id = Some ((true, r), st') →
  round_inv st'.
Proof.
  intros Hg [Hseats Hdealer Hidle Hbid Htr]. unfold join_game. intros H.
  case_bool_decide as Hph; [done|].
  case_bool_decide as Hfull; [done|].
  assert (Hw : phase st = WAITING) by by destruct (decide (phase st = WAITING)).
  rewrite Hseats in H.
  assert (Hm : py_range (mode st) = py_range (Z.of_nat (Z.to_nat (mode st))))
    by (rewrite Z2Nat.id; [done|lia]).
  rewrite Hm, (find_free_seat (length (players st)) (Z.to_nat (mode st))) in H by lia.
  simpl in H. injection H as _ <-.
  split; simpl.
  - rewrite map_app, length_app, Hseats. simpl.
    replace (length (players st) + 1)%nat with (S (length (players st))) by lia.
    by rewrite py_range_S.
  - done.
  - intros _. apply Hidle. rewrite Hw. phase_in.
  - intros E. by rewrite Hw in E.
  - intros E. rewrite Hw in E. phase_out E.
Qed.


Lemma py_range_length n : length (py_range n) = Z.to_nat n.
Proof. unfold py_range. by rewrite length_map, length_seq. Qed.

Lemma seats_mode_length st :
  0 ≤ mode st →
  map Player.seat (players st) = py_range (mode st) →
  Z.of_nat (length (players st)) = mode st.
Proof.
  intros Hm Hs. apply (f_equal length) in Hs.
  rewrite length_map, py_range_length in Hs. lia.
Qed.

Lemma seats_filled_round st st' :
  round_of st' = round_of st → seats_filled st → seats_filled st'.
Proof.
  intros Hr [Hm Hs]. apply round_of_eq in Hr as (Hm' & Hs' & _).
  split; [by rewrite Hm'|by rewrite Hs', Hm'].
Qed.

Lemma deal_round shuffled st st1 :
  deal shuffled st = Some st1 →
  round_of st1 = round_of st ∧ phase st1 = phase st ∧ turn_seat st1 = turn_seat st.
Proof.
  intros Hdeal. apply deal_spec in Hdeal as (ps & cp & -> & _ & Hun & _).
  apply unhanded_seats in Hun. unfold round_of. cbn. by rewrite Hun.
Qed.

Lemma start_bidding_next st st' :
  start_bidding st = Some st' →
  ∃ nxt, next_seat st (dealer_seat st) = Some nxt
    ∧ st' = set_bid_turn_seat (Some nxt)
              (set_current_bid None (set_bids [] (set_phase BIDDING st))).
Proof.
  unfold start_bidding. intros H.
  apply bind_Some in H as (nxt & Hnxt & H). injection H as <-.
  exists nxt. split; [exact Hnxt|reflexivity].
Qed.

Lemma fresh_deal_round shuffled st st1 st' :
  seats_filled st → 0 ≤ dealer_seat st < mode st → turn_seat st = None →
  deal shuffled st = Some st1 →
  start_bidding st1 = Some st' →
  round_inv st'.
Proof.
  intros Hfilled Hd Hturn Hdeal Hbid.
  apply deal_round in Hdeal as (Hr1 & _ & Ht1).
  pose proof (seats_filled_round st st1 Hr1 Hfilled) as Hfilled1.
  apply round_of_eq in Hr1 as (Hm1 & Hs1 & Hl1 & Hd1 & _).
  apply start_bidding_next in Hbid as (nxt & Hnxt & ->).
  rewrite next_seat_filled in Hnxt; [|done|by rewrite Hm1, Hd1].
  injection Hnxt as <-.
  destruct Hfilled1 as [Hmode1 Hseats1].
  assert (0 ≤ mode st1) by (rewrite Hm1; lia).
  pose proof (seats_mode_length st1 ltac:(done) Hseats1) as Hn.
  split; cbn.
  - by rewrite Hn.
  - intros _. by rewrite Hm1, Hd1.
  - intros _. by rewrite Ht1.
  - intros _. split; [constructor|]. split; [|done].
    eexists. split; [done|]. split; [apply Z.mod_pos_bound; lia|].
    apply not_elem_of_nil.
  - intros Hi. phase_out Hi.
Qed.

Lemma seats_filled_started st :
  game_inv st → round_inv st → phase st ≠ WAITING → seats_filled st.
Proof.
  intros Hg Hr Hph. destruct (inv_started st Hg Hph) as [Hn _].
  split; [apply (inv_mode st Hg)|]. rewrite (rnd_seats st Hr). by rewrite Hn.
Qed.

Lemma start_game_round st r shuffled msg st' :
  game_inv st → round_inv st →
  start_game st r shuffled = Some ((true, msg), st') →
  round_inv st'.
Proof.
  intros Hg Hr. unfold start_game. intros H.
  case_bool_decide as Hph; [done|].
  case_bool_decide as Hfull; [done|].
  assert (Hw : phase st = WAITING) by by destruct (decide (phase st = WAITING)).
  assert (Hn : Z.of_nat (length (players st)) = mode st)
    by by destruct (decide (Z.of_nat (length (players st)) = mode st)).
  apply bind_Some in H as (dealer & Hdealer & H). cbv zeta in H.
  apply bind_Some in H as (st1 & Hdeal & H).
  apply bind_Some in H as (st2 & Hbid & H). injection H as _ <-.
  assert (Hin : dealer ∈ map Player.seat (players st)).
  { unfold random_choice in Hdealer. by eapply list_elem_of_lookup_2. }
  rewrite (rnd_seats st Hr), elem_of_py_range in Hin.
  eapply (fresh_deal_round shuffled _ st1 st2); [| | |exact Hdeal|exact Hbid].
  - split; simpl; [apply (inv_mode st Hg)|]. rewrite (rnd_seats st Hr). by rewrite Hn.
  - simpl. lia.
  - simpl. apply (rnd_idle st Hr). rewrite Hw. phase_in.
Qed.

Lemma next_game_round st shuffled msg st' :
  game_inv st → round_inv st →
  next_game st shuffled = Some ((true, msg), st') →
  round_inv st'.
Proof.
  intros Hg Hr. unfold next_game. intros H.
  case_bool_decide as Hph; [done|].
  assert (Hs : phase st = SCORING) by by destruct (decide (phase st = SCORING)).
  assert (Hnw : phase st ≠ WAITING) by by rewrite Hs.
  pose proof (seats_filled_started st Hg Hr Hnw) as Hfilled.
  pose proof (rnd_dealer st Hr Hnw) as Hd.
  apply bind_Some in H as (mid & Hmid & H). cbv zeta in H.
  apply bind_Some in H as (st1 & Hdeal & H).
  apply bind_Some in H as (st2 & Hbid & H). injection H as _ <-.
  unfold next_game_reset in Hmid.
  apply bind_Some in Hmid as (dealer & Hdealer & Hmid). injection Hmid as <-.
  rewrite next_seat_filled in Hdealer by done. injection Hdealer as <-.
  eapply (fresh_deal_round shuffled _ st1 st2); [| | |exact Hdeal|exact Hbid].
  - destruct Hfilled as [Hm Hse]. by split.
  - simpl. apply Z.mod_pos_bound. lia.
  - done.
Qed.

(** ** The bidding round *)

Lemma _player_has_bid_iff st s :
  _player_has_bid st s = true ↔ s ∈ map Bid.seat (bids st).
Proof.
  unfold _player_has_bid. rewrite existsb_exists, list_elem_of_fmap. split.
  - intros (b & Hb & Hs). apply bool_decide_eq_true in Hs.
    exists b. split; [done|]. by apply list_elem_of_In.
  - intros (b & -> & Hb). exists b. split; [by apply list_elem_of_In|].
    by apply bool_decide_eq_true.
Qed.

(** The scan of [_advance_bidding] at a full table: it stops at the first
    seat after the bidder that has not bid, or concludes the bidding. *)
Lemma _advance_bidding_loop_cases n st cur r st' :
  seats_filled st → 0 ≤ cur < mode st →
  _advance_bidding_loop n st (Some cur) = Some (r, st') →
  (∃ nxt, 0 ≤ nxt < mode st ∧ (nxt ∉ map Bid.seat (bids st))
          ∧ r = [("next_bidder", VInt nxt)]
          ∧ st' = set_bid_turn_seat (Some nxt) st)
  ∨ (r, st') = _conclude_bidding st.
Proof.
  intros Hfilled. revert cur. induction n as [|n IH]; intros cur Hcur H; simpl in H.
  { injection H as <-. by right. }
  rewrite next_seat_filled in H by done. simpl in H.
  assert (Hnxt : 0 ≤ (cur + 1) mod mode st < mode st)
    by (apply Z.mod_pos_bound; lia).
  destruct (_player_has_bid st ((cur + 1) mod mode st)) eqn:Hhas.
  - by apply (IH _ Hnxt).
  - injection H as <- <-. left. eexists. split; [done|]. split; [|done].
    rewrite <- _player_has_bid_iff. by rewrite Hhas.
Qed.

(** The scan always returns at a full table. *)
Lemma _advance_bidding_loop_total n st cur :
  seats_filled st → 0 ≤ cur < mode st →
  is_Some (_advance_bidding_loop n st (Some cur)).
Proof.
  intros Hfilled. revert cur. induction n as [|n IH]; intros cur Hcur; simpl.
  { by eexists. }
  rewrite next_seat_filled by done. simpl.
  destruct (_player_has_bid st ((cur + 1) mod mode st)); [|by eexists].
  apply IH. apply Z.mod_pos_bound. lia.
Qed.

Lemma bid_amounts_app bs cs : bid_amounts (bs ++ cs) = bid_amounts bs ++ bid_amounts cs.
Proof. unfold bid_amounts. apply omap_app. Qed.

Lemma bid_amounts_nil_None bs b x :
  bid_amounts bs = [] → b ∈ bs → Bid.amount b ≠ Some x.
Proof.
  intros Hnil Hb Hx.
  assert (x ∈ bid_amounts bs) as Hin by (apply list_elem_of_omap; by exists b).
  rewrite Hnil in Hin. by apply elem_of_nil in Hin.
Qed.

(** The round after [place_bid] has recorded the bid and before it looks for
    the next bidder. *)
Lemma bid_recorded st seat amount :
  round_inv st → phase st = BIDDING →
  validate_bid st seat amount = (true, "") →
  let bid := Bid.mk seat amount in
  let st1 := set_bids (bids st ++ [bid]) st in
  let st2 := match amount with
             | Some _ => set_current_bid (Some bid) st1
             | None => st1
             end in
  0 ≤ seat < mode st
  ∧ NoDup (map Bid.seat (bids st2))
  ∧ bids st2 = bids st ++ [bid]
  ∧ match current_bid st2 with
    | None => bid_amounts (bids st2) = []
    | Some cb => ∃ a, highest_bid st2 cb a
    end.
Proof.
  intros Hr Hph Hv.
  destruct (rnd_bidding st Hr Hph) as (Hnd & (s & Hs & Hrange & Hnot) & Hcur).
  destruct (validate_bid_cases st seat) as [Hpass Hbid].
  assert (Hseat : s = seat).
  { destruct amount as [a|].
    - destruct (Hbid a Hv) as (_ & Ht & _). congruence.
    - apply Hpass in Hv as [_ Ht]. congruence. }
  subst s. cbv zeta.
  split; [done|].
  assert (Hnd' : NoDup (map Bid.seat (bids st ++ [Bid.mk seat amount]))).
  { rewrite map_app. simpl. apply NoDup_app. split; [done|]. split.
    - intros x Hx ->%list_elem_of_singleton. done.
    - apply NoDup_singleton. }
  destruct amount as [a|]; simpl.
  - split; [done|]. split; [done|].
    destruct (Hbid a Hv) as (_ & _ & Ha & Hstep & Hhigh).
    exists a. unfold highest_bid. simpl.
    split; [apply elem_of_app; right; left|]. split; [done|].
    split; [done|]. split; [done|]. split; [done|].
    intros b x [Hb|Hb%list_elem_of_singleton]%elem_of_app Hx.
    + right. by eapply Hhigh.
    + by left.
  - split; [done|]. split; [done|].
    destruct (current_bid st) as [cb|].
    + destruct Hcur as (a & Hin & Ham & Ha & Hstep & Hcs & Hhigh).
      exists a. unfold highest_bid. simpl.
      split; [apply elem_of_app; by left|]. split; [done|].
      split; [done|]. split; [done|]. split; [done|].
      intros b x [Hb|Hb%list_elem_of_singleton]%elem_of_app Hx.
      * by eapply Hhigh.
      * by subst b.
    + rewrite bid_amounts_app, Hcur. done.
Qed.

Lemma _conclude_bidding_round st :
  map Player.seat (players st) = py_range (Z.of_nat (length (players st))) →
  0 ≤ dealer_seat st < mode st →
  turn_seat st = None →
  match current_bid st with
  | None => bid_amounts (bids st) = []
  | Some cb => ∃ a, highest_bid st cb a
  end →
  round_inv (_conclude_bidding st).2.
Proof.
  intros Hseats Hd Hturn Hcur.
  unfold _conclude_bidding. destruct (current_bid st) as [cb|] eqn:Hcb; simpl.
  - split; simpl; try done.
    intros _. destruct Hcur as (a & Hhi). exists cb, a. by rewrite Hcb.
  - split; simpl; try done.
    intros _. eexists _, 150. split; [done|]. split; [|done].
    unfold highest_bid, MIN_BID. simpl.
    split; [apply elem_of_app; right; left|]. split; [done|].
    split; [lia|]. split; [by right|]. split; [done|].
    intros b x [Hb|Hb%list_elem_of_singleton]%elem_of_app Hx.
    + by destruct (bid_amounts_nil_None _ b x Hcur Hb).
    + by left.
Qed.

Lemma validate_bid_message st seat amount err :
  validate_bid st seat amount = (true, err) → err = "".
Proof.
  unfold validate_bid. cbv zeta.
  repeat (case_match; try done); by intros [= <-].
Qed.

Lemma handle_bid_round st seat amount r st' :
  game_inv st → round_inv st →
  handle_bid st seat amount = Some ((true, r), st') →
  round_inv st'.
Proof.
  intros Hg Hr. unfold handle_bid. intros H.
  destruct (validate_bid st seat amount) as [[] err] eqn:Hv; [|done]. simpl in H.
  apply bind_Some in H as ([r0 st0] & Hp & H). injection H as _ <-.
  pose proof (validate_bid_phase _ _ _ _ Hv) as Hph.
  pose proof (validate_bid_message _ _ _ _ Hv) as ->.
  destruct (bid_recorded st seat amount Hr Hph Hv) as (Hseat & Hnd & Hbids & Hcur).
  assert (Hnw : phase st ≠ WAITING) by by rewrite Hph.
  pose proof (seats_filled_started st Hg Hr Hnw) as Hfilled.
  pose proof (rnd_dealer st Hr Hnw) as Hd.
  assert (Hturn : turn_seat st = None).
  { apply (rnd_idle st Hr). rewrite Hph. phase_in. }
  pose proof (rnd_seats st Hr) as Hseats.
  assert (Hbt : bid_turn_seat st = Some seat).
  { destruct (validate_bid_cases st seat) as [Hpass Hbid].
    destruct amount as [a|].
    - by destruct (Hbid a Hv) as (_ & Ht & _).
    - by apply Hpass in Hv as [_ Ht]. }
  unfold place_bid, _advance_bidding in Hp. cbv zeta in Hp, Hnd, Hbids, Hcur.
  set (st2 := match amount with
              | Some _ => set_current_bid (Some (Bid.mk seat amount))
                            (set_bids (bids st ++ [Bid.mk seat amount]) st)
              | None => set_bids (bids st ++ [Bid.mk seat amount]) st
              end) in *.
  assert (Hsame : mode st2 = mode st ∧ players st2 = players st
                  ∧ phase st2 = phase st ∧ dealer_seat st2 = dealer_seat st
                  ∧ turn_seat st2 = turn_seat st
                  ∧ bid_turn_seat st2 = bid_turn_seat st).
  { subst st2. by destruct amount. }
  destruct Hsame as (Hm2 & Hp2 & Hph2 & Hd2 & Ht2 & Hbt2).
  rewrite Hbt2, Hbt in Hp.
  apply _advance_bidding_loop_cases in Hp as [(nxt & Hnxt & Hnot & _ & ->)|Hc].
  - split; simpl.
    + by rewrite Hp2.
    + rewrite Hm2, Hd2. done.
    + by rewrite Ht2.
    + intros _. split; [done|]. split; [|done].
      by exists nxt.
    + rewrite Hph2, Hph. intros Hi. phase_out Hi.
  - replace st0 with (_conclude_bidding st2).2 by by rewrite <- Hc.
    apply _conclude_bidding_round.
    + by rewrite Hp2.
    + by rewrite Hm2, Hd2.
    + by rewrite Ht2.
    + done.
  - destruct Hfilled as [Hm Hs]. split; [by rewrite Hm2|by rewrite Hp2, Hm2].
  - by rewrite Hm2.
Qed.

Lemma connection_round st ps :
  map (Player.set_connection_id None) ps
  = map (Player.set_connection_id None) (players st) →
  round_inv st → round_inv (set_players ps st).
Proof.
  intros Hps [Hseats Hdealer Hidle Hbid Htr].
  apply unconnected_same in Hps as (Hlen & Hseat & _).
  split; simpl; try done.
  by rewrite Hlen, Hseat.
Qed.

Lemma _on_connect_round st pid c code st' :
  round_inv st → _on_connect st pid c = (code, st') → round_inv st'.
Proof.
  intros Hinv. unfold _on_connect. destruct (String.eqb pid "").
  { by intros [= _ <-]. }
  destruct (update_connection _ _ _) as [ps|] eqn:E; intros [= _ <-]; [|done].
  apply connection_round; [|done]. by eapply update_connection_spec.
Qed.

Lemma _on_disconnect_round st pid code st' :
  round_inv st → _on_disconnect st pid = (code, st') → round_inv st'.
Proof.
  intros Hinv. unfold _on_disconnect.
  destruct (update_connection _ _ _) as [ps|] eqn:E; intros [= _ <-]; [|done].
  apply connection_round; [|done]. by eapply update_connection_spec.
Qed.

Lemma apply_action_round a st ok result st' :
  game_inv st → round_inv st →
  apply_action a st = Some ((ok, result), st') →
  round_inv st'.
Proof.
  intros Hg Hr H. destruct ok.
  2:{ by apply apply_action_error in H as ->. }
  destruct a; simpl in H.
  - apply bind_Some in H as ([[ok r] st1] & Hj & H). injection H as -> _ <-.
    by eapply join_game_round.
  - unfold wrap_msg in H. apply bind_Some in H as ([[ok msg] st1] & Hs & H).
    injection H as -> _ <-. by eapply start_game_round.
  - by eapply handle_bid_round.
  - by eapply handle_trump_selection_round.
  - by eapply handle_card_exchange_round.
  - by eapply handle_skip_exchange_round.
  - by eapply handle_play_card_round.
  - by eapply handle_ask_trump_round.
  - by eapply handle_reveal_trump_round.
  - by eapply handle_timeout_round.
  - unfold wrap_msg in H. apply bind_Some in H as ([[ok msg] st1] & Hs & H).
    injection H as -> _ <-. by eapply next_game_round.
  - destruct (_on_connect st player_id connection_id) as [code st1] eqn:E.
    injection H as _ _ <-. by eapply _on_connect_round.
  - destruct (_on_disconnect st player_id) as [code st1] eqn:E.
    injection H as _ _ <-. by eapply _on_disconnect_round.
Qed.

Lemma reachable_round st : reachable st → round_inv st.
Proof.
  induction 1 as [? ? ? ? ? st p Hc|a st ok result st' Hreach IH Hok Hstep].
  - by eapply create_game_round.
  - eapply apply_action_round; [|exact IH|exact Hstep]. by apply reachable_inv.
Qed.

Lemma sample_round_reachable : reachable sample_round.
Proof.
  apply (run_actions_reachable sample_round_actions sample_created).
  - by eapply (reachable_create 4 "Asha" "ABC123" "p0" "2024-01-01T00:00:00+00:00").
  - repeat constructor. apply sample_shuffle_Permutation.
  - vm_compute; reflexivity.
Qed.

Lemma get_player_by_seat_seated st s :
  s ∈ map Player.seat (players st) → is_Some (get_player_by_seat st s).
Proof.
  unfold get_player_by_seat. induction (players st) as [|p ps IH]; simpl.
  - intros H. by apply elem_of_nil in H.
  - intros [->|H]%elem_of_cons.
    + rewrite bool_decide_eq_true_2 by done. by eexists.
    + destruct (bool_decide _); [by eexists|by apply IH].
Qed.

(** X19: in every state of a game the players sit at seats 0, 1, ... in
    joining order and the table never holds more players than the mode.
    Once the game has started the table is full, the dealer sits at it,
    every seat has its player, and [next_seat] of a seat is the next seat
    clockwise. *)
Theorem seating_invariant st :
  reachable st →
  map Player.seat (players st) = py_range (Z.of_nat (length (players st)))
  ∧ Z.of_nat (length (players st)) ≤ mode st
  ∧ (phase st ≠ WAITING →
     Z.of_nat (length (players st)) = mode st
     ∧ 0 ≤ dealer_seat st < mode st
     ∧ ∀ s, 0 ≤ s < mode st →
         is_Some (get_player_by_seat st s)
         ∧ next_seat st s = Some ((s + 1) mod mode st)).
Proof.
  intros Hreach. pose proof (reachable_inv st Hreach) as Hg.
  pose proof (reachable_round st Hreach) as Hr.
  split; [apply (rnd_seats st Hr)|]. split.
  - destruct (decide (phase st = WAITING)) as [Hw|Hnw].
    + by destruct (inv_waiting st Hg Hw) as (Hle & _).
    + destruct (inv_started st Hg Hnw) as [-> _]. lia.
  - intros Hnw. destruct (inv_started st Hg Hnw) as [Hn _].
    split; [done|]. split; [by apply (rnd_dealer st Hr)|].
    intros s Hs. split.
    + apply get_player_by_seat_seated. rewrite (rnd_seats st Hr).
      apply elem_of_py_range. lia.
    + apply next_seat_filled; [|done]. by apply seats_filled_started.
Qed.

Lemma seating_invariant_witness :
  map Player.seat (players sample_game) = [0; 1; 2; 3]
  ∧ next_seat sample_game 3 = Some 0.
Proof.
  destruct (seating_invariant sample_game sample_game_reachable)
    as (Hseats & _ & Hstarted).
  split; [exact Hseats|].
  destruct Hstarted as (_ & _ & Hnext); [discriminate|].
  destruct (Hnext 3) as [_ H]; [simpl; lia|]. exact H.
Defined.

(** X20: while the bidding lasts no seat has bid or passed twice, and the
    seat whose turn it is sits at the table and has not bid or passed yet.
    So [validate_bid] only ever accepts a bid from a seat that has not bid:
    its rules for a seat bidding again are never exercised.  The current bid,
    if there is one, is strictly above every other bid; without one
    everybody so far has passed. *)
Theorem each_seat_bids_once st :
  reachable st → phase st = BIDDING →
  NoDup (map Bid.seat (bids st))
  ∧ (∃ s, bid_turn_seat st = Some s ∧ 0 ≤ s < mode st
          ∧ _player_has_bid st s = false)
  ∧ (∀ seat amount, validate_bid st seat amount = (true, "") →
       bid_turn_seat st = Some seat ∧ _player_has_bid st seat = false)
  ∧ match current_bid st with
    | None => ∀ b, b ∈ bids st → Bid.amount b = None
    | Some cb => ∃ a, highest_bid st cb a
    end.
Proof.
  intros Hreach Hph. pose proof (reachable_round st Hreach) as Hr.
  destruct (rnd_bidding st Hr Hph) as (Hnd & (s & Hs & Hrange & Hnot) & Hcur).
  assert (Hhas : _player_has_bid st s = false).
  { destruct (_player_has_bid st s) eqn:E; [|done].
    by apply _player_has_bid_iff in E. }
  split; [done|]. split; [by exists s|]. split.
  - intros seat amount Hv.
    destruct (validate_bid_cases st seat) as [Hpass Hbid].
    assert (bid_turn_seat st = Some seat) as Ht.
    { destruct amount as [a|].
      - by destruct (Hbid a Hv) as (_ & Ht & _).
      - by apply Hpass in Hv as [_ Ht]. }
    split; [done|]. congruence.
  - destruct (current_bid st) as [cb|]; [done|].
    intros b Hb. destruct (Bid.amount b) as [x|] eqn:Hx; [|done].
    by destruct (bid_amounts_nil_None _ b x Hcur Hb).
Qed.

Lemma each_seat_bids_once_witness :
  NoDup (map Bid.seat (bids sample_round))
  ∧ ∃ s, bid_turn_seat sample_round = Some s ∧ _player_has_bid sample_round s = false.
Proof.
  destruct (each_seat_bids_once sample_round sample_round_reachable eq_refl)
    as (Hnd & (s & Hs & _ & Hhas) & _).
  split; [exact Hnd|]. exists s. split; [exact Hs | exact Hhas].
Defined.

(** X21: once the bidding is over, in every state of the game, the current
    bid is a bid of the round with an amount between 150 and 304 (a multiple
    of 10, or 304) that is strictly above every other bid; the trumper is the
    seat that made it and sits at the table.  So [_score_game] finds the bid
    it scores against: it does not raise. *)
Theorem trumper_is_highest_bidder st :
  reachable st →
  phase st ∈ [TRUMP_SELECTION; CARD_EXCHANGE; PLAYING; SCORING] →
  (∃ cb a, current_bid st = Some cb ∧ cb ∈ bids st ∧ Bid.amount cb = Some a
     ∧ 150 ≤ a ≤ 304 ∧ (a = 304 ∨ a mod 10 = 0)
     ∧ trumper_seat st = Some (Bid.seat cb)
     ∧ is_Some (get_player_by_seat st (Bid.seat cb))
     ∧ ∀ b x, b ∈ bids st → Bid.amount b = Some x → b = cb ∨ x < a)
  ∧ is_Some (_score_game st).
Proof.
  intros Hreach Hph. pose proof (reachable_inv st Hreach) as Hg.
  pose proof (reachable_round st Hreach) as Hr.
  destruct (rnd_trumper st Hr Hph)
    as (cb & a & Hcb & (Hin & Ham & Ha & Hstep & Hseat & Hhigh) & Hts).
  assert (Hnw : phase st ≠ WAITING).
  { intros E. rewrite E in Hph. phase_out Hph. }
  destruct (inv_started st Hg Hnw) as [Hn _].
  split.
  - exists cb, a. repeat (split; [done|]). split; [|done].
    apply get_player_by_seat_seated. rewrite (rnd_seats st Hr).
    apply elem_of_py_range. lia.
  - unfold _score_game. cbv zeta. destruct (check_spoilt_trump _); [by eexists|].
    simpl. rewrite Hcb. simpl. rewrite Ham. simpl.
    destruct (get_scoring_points a). by eexists.
Qed.

Lemma trumper_is_highest_bidder_witness :
  ∃ cb, current_bid sample_game = Some cb
        ∧ trumper_seat sample_game = Some (Bid.seat cb)
        ∧ is_Some (_score_game sample_game).
Proof.
  destruct (trumper_is_highest_bidder sample_game sample_game_reachable)
    as [(cb & a & Hcb & _ & _ & _ & _ & Hts & _) Hscore].
  - apply (bool_decide_unpack _). vm_compute. exact I.
  - exists cb. split; [exact Hcb|]. split; [exact Hts | exact Hscore].
Defined.

(** ** Handlers that always return *)

Lemma update_hand_total seat g ps p h :
  find (λ p, bool_decide (Player.seat p = seat)) ps = Some p →
  g (Player.hand p) = Some h →
  is_Some (update_hand seat g ps).
Proof.
  induction ps as [|q ps IH]; simpl; [done|].
  case_bool_decide as Hq.
  - intros [= ->] Hg. rewrite Hg. by eexists.
  - intros Hp Hg. destruct (IH Hp Hg) as [ps' ->]. by eexists.
Qed.

Lemma list_remove_first_total c l : c ∈ l → is_Some (list_remove_first c l).
Proof.
  induction l as [|y l IH]; simpl.
  - intros H. by apply elem_of_nil in H.
  - intros [->|H]%elem_of_cons.
    + rewrite bool_decide_eq_true_2 by done. by eexists.
    + case_bool_decide; [by eexists|]. destruct (IH H) as [l' ->]. by eexists.
Qed.

Lemma hand_extend_total seat cs st :
  seat ∈ map Player.seat (players st) → is_Some (hand_extend seat cs st).
Proof.
  intros Hs. destruct (get_player_by_seat_seated st seat Hs) as [p Hp].
  unfold hand_extend.
  destruct (update_hand_total seat (λ h, Some (h ++ cs)) (players st) p _ Hp eq_refl)
    as [ps ->].
  by eexists.
Qed.

Lemma hand_remove_total seat c st p :
  get_player_by_seat st seat = Some p → c ∈ Player.hand p →
  is_Some (hand_remove seat c st).
Proof.
  intros Hp Hc. unfold hand_remove.
  destruct (list_remove_first_total c _ Hc) as [h Hh].
  destruct (update_hand_total seat (list_remove_first c) (players st) p h Hp Hh)
    as [ps ->].
  by eexists.
Qed.

Lemma _set_first_player_total st :
  seats_filled st → 0 ≤ dealer_seat st < mode st →
  is_Some (_set_first_player st).
Proof.
  intros Hfilled Hd. unfold _set_first_player.
  rewrite next_seat_filled by done. simpl.
  destruct (current_bid st) as [cb|]; [|by eexists].
  case_bool_decide; by eexists.
Qed.

Lemma handle_bid_total st seat amount :
  reachable st → is_Some (handle_bid st seat amount).
Proof.
  intros Hreach. pose proof (reachable_inv st Hreach) as Hg.
  pose proof (reachable_round st Hreach) as Hr.
  unfold handle_bid.
  destruct (validate_bid st seat amount) as [[] err] eqn:Hv; [|by eexists].
  simpl.
  pose proof (validate_bid_phase _ _ _ _ Hv) as Hph.
  pose proof (validate_bid_message _ _ _ _ Hv) as ->.
  destruct (bid_recorded st seat amount Hr Hph Hv) as (Hseat & _).
  assert (Hnw : phase st ≠ WAITING) by by rewrite Hph.
  pose proof (seats_filled_started st Hg Hr Hnw) as Hfilled.
  assert (Hbt : bid_turn_seat st = Some seat).
  { destruct (validate_bid_cases st seat) as [Hpass Hbid].
    destruct amount as [a|].
    - by destruct (Hbid a Hv) as (_ & Ht & _).
    - by apply Hpass in Hv as [_ Ht]. }
  unfold place_bid, _advance_bidding. cbv zeta.
  set (st2 := match amount with
              | Some _ => set_current_bid (Some (Bid.mk seat amount))
                            (set_bids (bids st ++ [Bid.mk seat amount]) st)
              | None => set_bids (bids st ++ [Bid.mk seat amount]) st
              end).
  assert (Hsame : mode st2 = mode st ∧ players st2 = players st
                  ∧ bid_turn_seat st2 = bid_turn_seat st).
  { subst st2. by destruct amount. }
  destruct Hsame as (Hm2 & Hp2 & Hbt2).
  rewrite Hbt2, Hbt.
  destruct (_advance_bidding_loop_total (length (players st2)) st2 seat)
    as [[r0 st0] ->].
  - destruct Hfilled as [Hm Hs]. split; [by rewrite Hm2|by rewrite Hp2, Hm2].
  - by rewrite Hm2.
  - by eexists.
Qed.

Lemma trumper_seated st seat :
  game_inv st → round_inv st →
  phase st ∈ [TRUMP_SELECTION; CARD_EXCHANGE; PLAYING; SCORING] →
  trumper_seat st = Some seat →
  seat ∈ map Player.seat (players st).
Proof.
  intros Hg Hr Hph Hts.
  destruct (rnd_trumper st Hr Hph) as (cb & a & _ & (_ & _ & _ & _ & Hseat & _) & Hts').
  assert (Hnw : phase st ≠ WAITING).
  { intros E. rewrite E in Hph. phase_out Hph. }
  destruct (inv_started st Hg Hnw) as [Hn _].
  rewrite (rnd_seats st Hr). apply elem_of_py_range.
  assert (seat = Bid.seat cb) as -> by congruence. lia.
Qed.

Lemma handle_trump_selection_total st seat suit_str card_id :
  reachable st → is_Some (handle_trump_selection st seat suit_str card_id).
Proof.
  intros Hreach. pose proof (reachable_inv st Hreach) as Hg.
  pose proof (reachable_round st Hreach) as Hr.
  unfold handle_trump_selection.
  destruct (Suit_of_value suit_str) as [suit|]; [|by eexists].
  destruct (Card.from_id card_id) as [card|]; [|by eexists].
  unfold validate_trump_selection.
  case_bool_decide as Hph; [by eexists|].
  case_bool_decide as Hts; [by eexists|].
  case_bool_decide as Hsuit; [by eexists|].
  assert (Hph' : phase st = TRUMP_SELECTION)
    by by destruct (decide (phase st = TRUMP_SELECTION)).
  assert (Hts' : trumper_seat st = Some seat)
    by by destruct (decide (trumper_seat st = Some seat)).
  assert (Hlater : phase st ∈ [TRUMP_SELECTION; CARD_EXCHANGE; PLAYING; SCORING])
    by (rewrite Hph'; phase_in).
  assert (Hnw : phase st ≠ WAITING) by by rewrite Hph'.
  pose proof (trumper_seated st seat Hg Hr Hlater Hts') as Hseated.
  destruct (get_player_by_seat_seated st seat Hseated) as [p Hp].
  rewrite Hp. simpl.
  case_bool_decide as Hhand; [by eexists|]. simpl.
  assert (Hin : card ∈ Player.hand p) by by destruct (decide (card ∈ Player.hand p)).
  unfold select_trump.
  destruct (hand_remove_total seat card st p Hp Hin) as [st1 Hrm].
  rewrite Hrm. simpl.
  apply hand_remove_round in Hrm as (Hr1 & _).
  case_bool_decide; [by eexists|].
  destruct (_set_first_player_total
              (set_phase PLAYING
                 (set_trump_revealed false
                    (set_trump_card (Some card) (set_trump_suit (Some suit) st1)))))
    as [st2 ->].
  - apply (seats_filled_round st); [|by apply seats_filled_started].
    by rewrite <- Hr1.
  - apply round_of_eq in Hr1 as (Hm & _ & _ & Hd & _). simpl.
    rewrite Hm, Hd. by apply (rnd_dealer st Hr).
  - by eexists.
Qed.

Lemma handle_skip_exchange_total st seat :
  reachable st → is_Some (handle_skip_exchange st seat).
Proof.
  intros Hreach. pose proof (reachable_inv st Hreach) as Hg.
  pose proof (reachable_round st Hreach) as Hr.
  unfold handle_skip_exchange, skip_exchange.
  case_bool_decide as Hph; [by eexists|].
  case_bool_decide as Hts; [by eexists|].
  assert (Hph' : phase st = CARD_EXCHANGE)
    by by destruct (decide (phase st = CARD_EXCHANGE)).
  assert (Hnw : phase st ≠ WAITING) by by rewrite Hph'.
  destruct (_set_first_player_total (set_phase PLAYING (set_exchange_done true st)))
    as [st2 ->].
  - by apply (seats_filled_round st); [|apply seats_filled_started].
  - by apply (rnd_dealer st Hr).
  - by eexists.
Qed.

Lemma reveal_trump_total st seat :
  (trump_revealed st = false → trump_suit st ≠ None → trump_card st ≠ None →
   ∃ t, trumper_seat st = Some t ∧ t ∈ map Player.seat (players st)) →
  ∃ ok msg st', reveal_trump st seat = Some ((ok, msg), st')
    ∧ (ok = true → is_Some (trump_suit st')).
Proof.
  intros Hts. unfold reveal_trump.
  destruct (trump_revealed st) eqn:Hrev; [by eexists _, _, _|].
  destruct (trump_suit st) as [ts|] eqn:Hsuit; [|by eexists _, _, _].
  cbn -[hand_extend]. destruct (trump_card st) as [tc|] eqn:Htc.
  - destruct Hts as (t & -> & Hseated); [done..|]. cbn -[hand_extend].
    destruct (hand_extend_total t [tc] (set_trump_revealed true st)) as [st1 Hex];
      [done|].
    rewrite Hex. cbn. eexists _, _, _. split; [done|]. intros _.
    apply hand_extend_spec in Hex as (ps & -> & _). simpl. by rewrite Hsuit.
  - eexists _, _, _. split; [done|]. intros _. simpl. by rewrite Hsuit.
Qed.

Lemma handle_reveal_trump_total st seat :
  reachable st → is_Some (handle_reveal_trump st seat).
Proof.
  intros Hreach. pose proof (reachable_inv st Hreach) as Hg.
  pose proof (reachable_round st Hreach) as Hr.
  unfold handle_reveal_trump.
  case_bool_decide as Hts; [by eexists|].
  case_bool_decide as Hph; [by eexists|].
  assert (Hph' : phase st = PLAYING) by by destruct (decide (phase st = PLAYING)).
  destruct (reveal_trump_total st (Some seat)) as (ok & msg & st' & -> & Hsuit).
  { intros _ _ _. destruct (trumper_seat st) as [t|] eqn:Et.
    - exists t. split; [done|]. apply (trumper_seated st t Hg Hr); [|done].
      rewrite Hph'. phase_in.
    - exfalso. destruct (rnd_trumper st Hr) as (cb & a & _ & _ & Hx);
        [rewrite Hph'; phase_in|congruence]. }
  simpl. destruct ok; simpl; [|by eexists].
  unfold reveal_payload. destruct (Hsuit eq_refl) as [ts ->]. by eexists.
Qed.

(** X22: in every state of a game the bidding and trump handlers return:
    [handle_bid], [handle_trump_selection], [handle_skip_exchange] and
    [handle_reveal_trump] never raise, whatever their arguments. *)
Theorem bidding_and_trump_handlers_return st :
  reachable st →
  (∀ seat amount, is_Some (handle_bid st seat amount))
  ∧ (∀ seat suit_str card_id,
       is_Some (handle_trump_selection st seat suit_str card_id))
  ∧ (∀ seat, is_Some (handle_skip_exchange st seat))
  ∧ (∀ seat, is_Some (handle_reveal_trump st seat)).
Proof.
  intros Hreach. split; [|split; [|split]].
  - intros. by apply handle_bid_total.
  - intros. by apply handle_trump_selection_total.
  - intros. by apply handle_skip_exchange_total.
  - intros. by apply handle_reveal_trump_total.
Qed.

Lemma bidding_and_trump_handlers_return_witness :
  is_Some (handle_bid sample_round 2 (Some 170))
  ∧ is_Some (handle_reveal_trump sample_game 0).
Proof.
  destruct (bidding_and_trump_handlers_return sample_round sample_round_reachable)
    as (Hbid & _).
  destruct (bidding_and_trump_handlers_return sample_game sample_game_reachable)
    as (_ & _ & _ & Hrev).
  split; [apply Hbid | apply Hrev].
Defined.

(** * Playing a card: the trick's seats and the handlers that return *)

(** ** The seats of the trick in progress *)

Lemma hand_remove_all_trick seat cards st st' :
  hand_remove_all seat cards st = Some st' →
  current_trick st' = current_trick st.
Proof.
  revert st. induction cards as [|c cards IH]; intros st H; simpl in H.
  - by injection H as <-.
  - apply bind_Some in H as (st1 & Hrm & H).
    apply IH in H as ->. by apply hand_remove_round in Hrm as (_ & _ & _ & ?).
Qed.

Lemma _set_first_player_trick st st' :
  _set_first_player st = Some st' → current_trick st' = current_trick st.
Proof. intros H. by apply _set_first_player_spec in H as (first & ->). Qed.

Lemma _score_game_trick st r st' :
  _score_game st = Some (r, st') → current_trick st' = current_trick st.
Proof.
  unfold _score_game. cbv zeta. intros H.
  destruct (check_spoilt_trump _) in H.
  { by injection H as _ <-. }
  apply bind_Some in H as (cb & _ & H).
  apply bind_Some in H as (bid_amount & _ & H).
  destruct (get_scoring_points bid_amount) as [win_points lose_points].
  injection H as _ <-. by destruct (bool_decide _).
Qed.

Lemma score_if_over_trick result st r st' :
  score_if_over result st = Some (r, st') → current_trick st' = current_trick st.
Proof.
  unfold score_if_over. intros H. destruct (truthy _) in H.
  - apply bind_Some in H as ([sc st1] & Hs & H). injection H as _ <-.
    by eapply _score_game_trick.
  - by injection H as _ <-.
Qed.

(** [_resolve_trick] leaves no trick in progress. *)
Lemma _resolve_trick_clears st r st' :
  _resolve_trick st = Some (r, st') → current_trick st' = [].
Proof.
  unfold _resolve_trick. intros H.
  apply bind_Some in H as (first & Hhead & H). cbv zeta in H.
  remember (set_trick_number _ (set_current_trick [] (set_tricks_won _ st)))
    as st1 eqn:E1 in H.
  assert (H1 : current_trick st1 = []) by by subst st1.
  clear E1. rewrite <- H1.
  apply bind_Some in H as ([result2 st2] & Hdraw & H). cbv beta iota in H.
  assert (H2 : current_trick st2 = current_trick st1).
  { destruct (_ && _) in Hdraw.
    - apply bind_Some in Hdraw as ([draws st3] & Hd & Hdraw).
      injection Hdraw as _ <-. unfold _draw_cards_2p in Hd.
      apply bind_Some in Hd as (nxt & _ & Hd).
      by apply _draw_loop_keeps_tricks in Hd as (_ & ? & _).
    - by injection Hdraw as _ <-. }
  clear Hdraw Hhead. rewrite <- H2.
  apply bind_Some in H as (he & _ & H). cbv beta in H.
  destruct he.
  { by injection H as _ <-. }
  destruct (_ && _) in H.
  { apply bind_Some in H as ([result3 st3] & Hrev & H). injection H as _ <-.
    destruct (negb _) in Hrev.
    - apply bind_Some in Hrev as ([rr st4] & Hr & Hrev). injection Hrev as _ <-.
      by apply reveal_trump_keeps_tricks in Hr as (_ & ? & _).
    - by injection Hrev as _ <-. }
  destruct (forallb _ _) in H.
  { by injection H as _ <-. }
  by injection H as _ <-.
Qed.

(** [play_card] appends the card to the trick, or resolves the trick. *)
Lemma play_card_trick st seat card r st' :
  play_card st seat card = Some (r, st') →
  current_trick st' = current_trick st ++ [TrickCard.mk seat card]
  ∨ current_trick st' = [].
Proof.
  unfold play_card. intros H.
  apply bind_Some in H as (st1 & Hrm & H). cbv zeta in H.
  apply hand_remove_round in Hrm as (_ & _ & _ & Hct).
  destruct (bool_decide _) in H.
  - apply bind_Some in H as ([tr st3] & Hres & H). injection H as _ <-.
    right. by eapply _resolve_trick_clears.
  - apply bind_Some in H as (nxt & _ & H). injection H as _ <-.
    left. simpl. by rewrite Hct.
Qed.

Lemma trick_seated_frame st st' :
  trick_seated st →
  current_trick st' = current_trick st →
  round_of st' = round_of st →
  trick_seated st'.
Proof.
  intros Hts Hct Hr tc. apply round_of_eq in Hr as (_ & Hs & _).
  rewrite Hct, Hs. apply Hts.
Qed.

Lemma trick_seated_nil st : current_trick st = [] → trick_seated st.
Proof. intros H tc. rewrite H. intros Hin. by apply elem_of_nil in Hin. Qed.

Lemma get_player_by_seat_elem st seat p :
  get_player_by_seat st seat = Some p → seat ∈ map Player.seat (players st).
Proof.
  unfold get_player_by_seat. intros H. apply find_some in H as [Hin Hs].
  apply bool_decide_eq_true in Hs as <-.
  apply list_elem_of_fmap. exists p. split; [done|]. by apply list_elem_of_In.
Qed.

Lemma play_card_trick_seated st seat card r st' :
  trick_seated st → seat ∈ map Player.seat (players st) →
  play_card st seat card = Some (r, st') →
  trick_seated st'.
Proof.
  intros Hts Hseat H.
  pose proof (play_card_round _ _ _ _ _ H) as [Hr _].
  apply round_of_eq in Hr as (_ & Hs & _).
  apply play_card_trick in H as [Hct|Hct]; [|by apply trick_seated_nil].
  intros tc. rewrite Hct, Hs.
  intros [Hin| ->%list_elem_of_singleton]%elem_of_app; [by apply Hts|done].
Qed.

Lemma score_if_over_trick_seated result st r st' :
  trick_seated st → score_if_over result st = Some (r, st') → trick_seated st'.
Proof.
  intros Hts H. apply (trick_seated_frame st); [done| |].
  - by eapply score_if_over_trick.
  - by apply score_if_over_round in H as [? _].
Qed.

Lemma validate_play_seated st seat card w msg :
  validate_play st seat card w = Some (true, msg) →
  ∃ p, get_player_by_seat st seat = Some p ∧ card ∈ Player.hand p.
Proof.
  unfold validate_play. intros H.
  case_bool_decide; [done|]. case_bool_decide; [done|].
  apply bind_Some in H as (p & Hp & H).
  case_bool_decide as Hin; [done|].
  exists p. split; [done|]. by destruct (decide (card ∈ Player.hand p)).
Qed.

Lemma handle_play_card_trick_seated st seat card_id r st' :
  trick_seated st →
  handle_play_card st seat card_id = Some ((true, r), st') →
  trick_seated st'.
Proof.
  intros Hts. unfold handle_play_card. intros H.
  destruct (Card.from_id card_id) as [card|]; [|done]. cbv zeta in H.
  apply bind_Some in H as ([valid err] & Hv & H).
  destruct valid; [|done]. simpl in H.
  apply bind_Some in H as ([r0 st0] & Hp & H).
  apply bind_Some in H as ([r1 st1] & Hs & H). injection H as _ <-.
  apply validate_play_seated in Hv as (p & Hpl & _).
  apply get_player_by_seat_elem in Hpl.
  eapply score_if_over_trick_seated; [|exact Hs].
  by eapply play_card_trick_seated.
Qed.

Lemma handle_timeout_trick_seated st seat r1 r2 r st' :
  trick_seated st →
  handle_timeout st seat r1 r2 = Some ((true, r), st') →
  trick_seated st'.
Proof.
  intros Hts. unfold handle_timeout. intros H.
  case_bool_decide; [done|].
  apply bind_Some in H as ([r0 st0] & Hp & H).
  apply bind_Some in H as ([r3 st3] & Hs & H). injection H as _ <-.
  eapply score_if_over_trick_seated; [|exact Hs].
  unfold auto_play in Hp.
  apply bind_Some in Hp as (valid & Hvalid & Hp).
  destruct valid as [|c0 v]; [by injection Hp as _ <-|].
  apply bind_Some in Hp as (card & _ & Hp).
  eapply play_card_trick_seated; [done| |exact Hp].
  unfold get_valid_cards in Hvalid.
  apply bind_Some in Hvalid as (p & Hpl & _).
  by eapply get_player_by_seat_elem.
Qed.

Lemma select_trump_trick st seat suit card r st' :
  select_trump st seat suit card = Some (r, st') →
  current_trick st' = current_trick st.
Proof.
  unfold select_trump. intros H.
  apply bind_Some in H as (st1 & Hrm & H). cbv zeta in H.
  apply hand_remove_round in Hrm as (_ & _ & _ & <-).
  destruct (bool_decide _) in H.
  - by injection H as _ <-.
  - apply bind_Some in H as (st2 & Hfp & H). injection H as _ <-.
    by apply _set_first_player_trick in Hfp as ->.
Qed.

Lemma exchange_cards_trick st seat cards r st' :
  exchange_cards st seat cards = Some (r, st') →
  current_trick st' = current_trick st.
Proof.
  unfold exchange_cards. intros H.
  apply bind_Some in H as (p & _ & H).
  apply bind_Some in H as (st1 & Hrm & H). cbv zeta in H.
  apply hand_remove_all_trick in Hrm as <-.
  apply bind_Some in H as (st2 & Hex & H).
  apply hand_extend_round in Hex as (_ & _ & _ & <-).
  apply bind_Some in H as (st3 & Hfp & H). injection H as _ <-.
  by apply _set_first_player_trick in Hfp as ->.
Qed.

Lemma skip_exchange_trick st seat r st' :
  skip_exchange st seat = Some ((true, r), st') →
  current_trick st' = current_trick st.
Proof.
  unfold skip_exchange. intros H.
  case_bool_decide; [done|]. case_bool_decide; [done|].
  apply bind_Some in H as (st1 & Hfp & H). injection H as _ <-.
  by apply _set_first_player_trick in Hfp as ->.
Qed.

Lemma deal_trick shuffled st st' :
  deal shuffled st = Some st' → current_trick st' = current_trick st.
Proof. intros H. by apply deal_spec in H as (ps & cp & -> & _). Qed.

Lemma start_bidding_round st st' :
  start_bidding st = Some st' →
  map Player.seat (players st') = map Player.seat (players st)
  ∧ current_trick st' = current_trick st.
Proof. intros H. by apply start_bidding_next in H as (nxt & _ & ->). Qed.

Lemma apply_action_trick_seated a st ok result st' :
  trick_seated st →
  apply_action a st = Some ((ok, result), st') →
  trick_seated st'.
Proof.
  intros Hts H. destruct ok.
  2:{ by apply apply_action_error in H as ->. }
  destruct a; simpl in H.
  - apply bind_Some in H as ([[ok r] st1] & Hj & H). injection H as -> _ <-.
    unfold join_game in Hj.
    case_bool_decide; [done|]. case_bool_decide; [done|].
    apply bind_Some in Hj as (seat & _ & Hj). injection Hj as _ <-.
    intros tc Htc. simpl. rewrite map_app. apply elem_of_app. left. by apply Hts.
  - unfold wrap_msg in H. apply bind_Some in H as ([[ok msg] st1] & Hs & H).
    injection H as -> _ <-. unfold start_game in Hs.
    case_bool_decide; [done|]. case_bool_decide; [done|].
    apply bind_Some in Hs as (dealer & _ & Hs). cbv zeta in Hs.
    apply bind_Some in Hs as (st2 & Hdeal & Hs).
    apply bind_Some in Hs as (st3 & Hbid & Hs). injection Hs as _ <-.
    apply start_bidding_round in Hbid as [Hs3 Hc3].
    pose proof (deal_trick _ _ _ Hdeal) as Hc2.
    apply deal_round in Hdeal as (Hr2 & _).
    apply round_of_eq in Hr2 as (_ & Hs2 & _).
    intros tc. rewrite Hc3, Hc2, Hs3, Hs2. apply Hts.
  - unfold handle_bid in H.
    destruct (validate_bid st seat amount) as [[] err]; [|done]. simpl in H.
    apply bind_Some in H as ([r0 st0] & Hp & H). injection H as _ <-.
    apply place_bid_same in Hp as [(_ & _ & Hps & _ & _ & Hct & _) _].
    intros tc. rewrite Hct, Hps. apply Hts.
  - unfold handle_trump_selection in H.
    destruct (Suit_of_value suit_str) as [suit|]; [|done].
    destruct (Card.from_id card_id) as [card|]; [|done].
    apply bind_Some in H as ([valid err] & _ & H).
    destruct valid; [|done]. simpl in H.
    apply bind_Some in H as ([r0 st0] & Hsel & H). injection H as _ <-.
    apply (trick_seated_frame st); [done|by eapply select_trump_trick|].
    by apply select_trump_round in Hsel as [? _].
  - unfold handle_card_exchange in H.
    destruct (mapM Card.from_id _) as [cards|]; [|done].
    apply bind_Some in H as ([valid err] & _ & H).
    destruct valid; [|done]. simpl in H.
    apply bind_Some in H as ([r0 st0] & Hex & H). injection H as _ <-.
    apply (trick_seated_frame st); [done|by eapply exchange_cards_trick|].
    by apply exchange_cards_round in Hex as [? _].
  - unfold handle_skip_exchange in H.
    apply bind_Some in H as ([[success r0] st0] & Hsk & H).
    destruct success; [|done]. simpl in H. injection H as _ <-.
    apply (trick_seated_frame st); [done|by eapply skip_exchange_trick|].
    by apply skip_exchange_round in Hsk as (_ & ? & _).
  - by eapply handle_play_card_trick_seated.
  - unfold handle_ask_trump in H.
    destruct (trump_revealed st); [done|].
    case_bool_decide; [done|]. by case_bool_decide.
  - unfold handle_reveal_trump in H.
    case_bool_decide; [done|]. case_bool_decide; [done|].
    apply bind_Some in H as ([[success err] st1] & Hr & H).
    destruct success; [|done]. simpl in H.
    apply bind_Some in H as (payload & _ & H). injection H as _ <-.
    apply (trick_seated_frame st); [done| |].
    + by apply reveal_trump_keeps_tricks in Hr as (_ & ? & _).
    + by apply reveal_trump_round in Hr as (? & _).
  - by eapply handle_timeout_trick_seated.
  - unfold wrap_msg in H. apply bind_Some in H as ([[ok msg] st1] & Hs & H).
    injection H as -> _ <-. unfold next_game in Hs.
    case_bool_decide; [done|].
    apply bind_Some in Hs as (mid & Hmid & Hs). cbv zeta in Hs.
    apply bind_Some in Hs as (st2 & Hdeal & Hs).
    apply bind_Some in Hs as (st3 & Hbid & Hs). injection Hs as _ <-.
    apply start_bidding_round in Hbid as [_ Hc3].
    apply deal_trick in Hdeal.
    apply next_game_reset_spec in Hmid as (_ & _ & _ & _ & Hct & _).
    apply trick_seated_nil. rewrite Hc3, Hdeal. simpl. done.
  - destruct (_on_connect st player_id connection_id) as [code st1] eqn:E.
    injection H as _ _ <-. unfold _on_connect in E.
    destruct (String.eqb player_id ""); [by injection E as _ <-|].
    destruct (update_connection _ _ _) as [ps|] eqn:Eu; injection E as _ <-; [|done].
    apply update_connection_spec, unconnected_same in Eu as (_ & Hs & _).
    intros tc. simpl. rewrite Hs. apply Hts.
  - destruct (_on_disconnect st player_id) as [code st1] eqn:E.
    injection H as _ _ <-. unfold _on_disconnect in E.
    destruct (update_connection _ _ _) as [ps|] eqn:Eu; injection E as _ <-; [|done].
    apply update_connection_spec, unconnected_same in Eu as (_ & Hs & _).
    intros tc. simpl. rewrite Hs. apply Hts.
Qed.

Lemma reachable_trick_seated st : reachable st → trick_seated st.
Proof.
  induction 1 as [? ? ? ? ? st p Hc|a st ok result st' Hreach IH Hok Hstep].
  - unfold create_game in Hc. case_bool_decide; [done|].
    injection Hc as <- _. by apply trick_seated_nil.
  - by eapply apply_action_trick_seated.
Qed.

(** ** The handlers of a play return *)

Lemma _draw_loop_total seats st draws :
  (∀ s, s ∈ seats → s ∈ map Player.seat (players st)) →
  is_Some (_draw_loop seats st draws).
Proof.
  revert st draws. induction seats as [|seat seats IH]; intros st draws Hs; simpl.
  { by eexists. }
  destruct (center_pile st) as [|card pile]; [by eexists|].
  destruct (hand_extend_total seat [card] (set_center_pile pile st)) as [st1 Hex].
  { apply Hs. left. }
  rewrite Hex. simpl. apply IH.
  apply hand_extend_round in Hex as (Hr & _).
  apply round_of_eq in Hr as (_ & Hseats & _).
  intros s Hin. rewrite Hseats. apply Hs. by right.
Qed.

Lemma seated_range st s :
  seats_filled st → s ∈ map Player.seat (players st) → 0 ≤ s < mode st.
Proof.
  intros [Hm Hs] Hin. rewrite Hs in Hin.
  assert (mode st = Z.of_nat (Z.to_nat (mode st))) as E.
  { repeat (apply elem_of_cons in Hm as [->|Hm]); try done.
    by apply elem_of_nil in Hm. }
  rewrite E in Hin. apply elem_of_py_range in Hin. lia.
Qed.

Lemma range_seated st s :
  seats_filled st → 0 ≤ s < mode st → s ∈ map Player.seat (players st).
Proof.
  intros [Hm Hs] Hin. rewrite Hs.
  assert (mode st = Z.of_nat (Z.to_nat (mode st))) as E by lia.
  rewrite E. apply elem_of_py_range. lia.
Qed.

Lemma _draw_cards_2p_total st winner :
  seats_filled st → winner ∈ map Player.seat (players st) →
  is_Some (_draw_cards_2p st winner).
Proof.
  intros Hfilled Hw. unfold _draw_cards_2p.
  pose proof (seated_range st winner Hfilled Hw) as Hrange.
  rewrite next_seat_filled by done. cbn [mbind option_bind].
  apply (_draw_loop_total [winner; (winner + 1) mod mode st] st []).
  intros s [->|[->|Hs]%elem_of_cons]%elem_of_cons; [done| |by apply elem_of_nil in Hs].
  apply range_seated; [done|]. apply Z.mod_pos_bound. lia.
Qed.

Lemma trick_winner_elem st cs first others :
  trick_winner st cs first others ∈ first :: others.
Proof.
  unfold trick_winner.
  assert (H : ∀ seen w0, w0 ∈ seen →
            foldl (λ winner_tc tc,
                     if Card.beats (TrickCard.card tc) (TrickCard.card winner_tc)
                          (trump_suit st) (trump_revealed st) cs
                     then tc else winner_tc) w0 others ∈ seen ++ others).
  { induction others as [|t others IH]; intros seen w0 Hin; simpl.
    - by rewrite app_nil_r.
    - replace (seen ++ t :: others) with ((seen ++ [t]) ++ others)
        by by rewrite <- app_assoc.
      destruct (Card.beats _ _ _ _ _); apply IH; apply elem_of_app;
        [right; left|by left]. }
  apply (H [first] first). left.
Qed.


(** ** Resolving a trick returns *)

Lemma seats_filled_frame st st' :
  seats_filled st → round_of st' = round_of st → seats_filled st'.
Proof.
  intros [Hm Hs] Hr. apply round_of_eq in Hr as (Hm' & Hs' & _).
  split; [by rewrite Hm'|]. by rewrite Hs', Hm'.
Qed.

Lemma seats_filled_length st :
  seats_filled st → length (players st) = Z.to_nat (mode st).
Proof.
  intros [_ Hs]. apply (f_equal length) in Hs.
  by rewrite length_map, py_range_length in Hs.
Qed.

Lemma lookup_player_seated st i q :
  players st !! i = Some q → Player.seat q ∈ map Player.seat (players st).
Proof.
  intros H. apply list_elem_of_fmap. exists q. split; [done|].
  by eapply list_elem_of_lookup_2.
Qed.

(** With the table full, the trick's seats at the table and a seated
    trumper, [_resolve_trick] raises on an empty trick only. *)
Lemma _resolve_trick_total st t :
  seats_filled st → trick_seated st → current_trick st ≠ [] →
  trumper_seat st = Some t → t ∈ map Player.seat (players st) →
  is_Some (_resolve_trick st).
Proof.
  intros Hfilled Hts Hne Htr Htin. unfold _resolve_trick.
  destruct (current_trick st) as [|first others] eqn:Hct; [done|].
  cbn [head mbind option_bind tail]. cbv zeta.
  set (cs := Card.suit (TrickCard.card first)).
  assert (Hw : TrickCard.seat (trick_winner st cs first others)
               ∈ map Player.seat (players st)).
  { apply Hts. rewrite Hct. apply trick_winner_elem. }
  set (winner := TrickCard.seat (trick_winner st cs first others)) in *.
  remember (set_trick_number _ (set_current_trick [] (set_tricks_won _ st)))
    as st1 eqn:E1.
  assert (H1 : round_of st1 = round_of st) by by subst st1.
  clear E1.
  pose proof (seats_filled_frame _ _ Hfilled H1) as Hfilled1.
  match goal with
  | |- is_Some (mbind _ ?x) => destruct x as [[result2 st2]|] eqn:Hdraw
  end.
  2:{ exfalso. destruct (_ && _) in Hdraw; [|done].
      destruct (_draw_cards_2p_total st1 winner) as [[d s] Hd]; [done| |].
      - apply round_of_eq in H1 as (_ & -> & _). done.
      - by rewrite Hd in Hdraw. }
  assert (H2 : round_of st2 = round_of st1).
  { destruct (_ && _) in Hdraw.
    - apply bind_Some in Hdraw as ([draws st3] & Hd & Hdraw).
      injection Hdraw as _ <-. unfold _draw_cards_2p in Hd.
      apply bind_Some in Hd as (nxt & _ & Hd).
      by apply _draw_loop_round in Hd as [? _].
    - by injection Hdraw as _ <-. }
  clear Hdraw.
  pose proof (seats_filled_frame _ _ Hfilled1 H2) as Hfilled2.
  cbn [mbind option_bind]. cbv beta iota.
  match goal with
  | |- is_Some (mbind _ ?x) => destruct x as [he|] eqn:Hhe
  end.
  2:{ exfalso. case_bool_decide as Hm2; [|done].
      pose proof (seats_filled_length _ Hfilled2) as Hlen. rewrite Hm2 in Hlen.
      destruct (players st2) as [|q0 [|q1 qs]] eqn:Hps; [done|done|].
      cbn [lookup list_lookup mbind option_bind] in Hhe.
      destruct (get_player_by_seat_seated st2 (Player.seat q0)) as [p0 Hp0].
      { rewrite Hps. simpl. apply elem_of_cons. by left. }
      rewrite Hp0 in Hhe. cbn [mbind option_bind] in Hhe.
      destruct (get_player_by_seat_seated st2 (Player.seat q1)) as [p1 Hp1].
      { rewrite Hps. simpl. apply elem_of_cons. right. apply elem_of_cons. by left. }
      rewrite Hp1 in Hhe. done. }
  clear Hhe. cbn [mbind option_bind]. cbv beta.
  destruct he; [by eexists|].
  destruct (_ && _).
  { destruct (negb _).
    - destruct (reveal_trump_total st2 (trumper_seat st2)) as (ok & msg & st3 & Hrev & _).
      { intros _ _ _. exists t. apply round_of_eq in H2 as (_ & Hs2 & _ & _ & _ & _ & Ht2 & _).
        apply round_of_eq in H1 as (_ & Hs1 & _ & _ & _ & _ & Ht1 & _).
        split; [congruence|]. by rewrite Hs2, Hs1. }
      rewrite Hrev. by eexists.
    - by eexists. }
  destruct (forallb _ _); by eexists.
Qed.

(** [_score_game] raises only when there is no bid to score against. *)
Lemma _score_game_total st cb a :
  current_bid st = Some cb → Bid.amount cb = Some a → is_Some (_score_game st).
Proof.
  intros Hcb Ha. unfold _score_game. cbv zeta.
  destruct (check_spoilt_trump _); [by eexists|].
  change (current_bid (set_phase SCORING st)) with (current_bid st).
  rewrite Hcb. cbn [mbind option_bind]. rewrite Ha. cbn [mbind option_bind].
  destruct (get_scoring_points a) as [win_points lose_points]. by eexists.
Qed.

Lemma score_if_over_total result st cb a :
  current_bid st = Some cb → Bid.amount cb = Some a →
  is_Some (score_if_over result st).
Proof.
  intros Hcb Ha. unfold score_if_over. destruct (truthy _); [|by eexists].
  destruct (_score_game_total st cb a Hcb Ha) as [[sc st1] ->]. by eexists.
Qed.


(** ** Playing a card returns *)

Lemma play_card_total st seat card p t :
  seats_filled st → trick_seated st →
  trumper_seat st = Some t → t ∈ map Player.seat (players st) →
  get_player_by_seat st seat = Some p → card ∈ Player.hand p →
  is_Some (play_card st seat card).
Proof.
  intros Hfilled Hts Htr Htin Hp Hin. unfold play_card.
  destruct (hand_remove_total seat card st p Hp Hin) as [st1 Hrm].
  rewrite Hrm. cbn [mbind option_bind]. cbv zeta.
  apply hand_remove_round in Hrm as (Hr1 & _ & _ & Hct1).
  pose proof (get_player_by_seat_elem _ _ _ Hp) as Hseat.
  remember (set_current_trick _ st1) as st2 eqn:E2.
  assert (H2 : round_of st2 = round_of st1
               ∧ current_trick st2 = current_trick st1 ++ [TrickCard.mk seat card])
    by by subst st2.
  clear E2. destruct H2 as [Hr2 Hct2].
  assert (Hr : round_of st2 = round_of st) by congruence.
  pose proof (seats_filled_frame _ _ Hfilled Hr) as Hfilled2.
  pose proof (round_of_eq _ _ Hr) as (_ & Hs & _ & _ & _ & _ & Ht & _).
  case_bool_decide as Hfull.
  - assert (Hts2 : trick_seated st2).
    { intros tc. rewrite Hct2, Hct1, Hs.
      intros [Hin'| ->%list_elem_of_singleton]%elem_of_app; [by apply Hts|done]. }
    assert (Hne2 : current_trick st2 ≠ []).
    { rewrite Hct2. by destruct (current_trick st1). }
    assert (Htr2 : trumper_seat st2 = Some t) by congruence.
    assert (Htin2 : t ∈ map Player.seat (players st2)) by by rewrite Hs.
    destruct (_resolve_trick_total st2 t Hfilled2 Hts2 Hne2 Htr2 Htin2)
      as [[tr st3] ->].
    by eexists.
  - rewrite next_seat_filled; [by eexists|done|].
    apply seated_range; [done|by rewrite Hs].
Qed.

(** ** What resolving a trick does with its cards *)

Lemma _resolve_trick_pile st res st' :
  _resolve_trick st = Some (res, st') →
  ∃ w, w ∈ current_trick st
       ∧ tricks_won st' !! TrickCard.seat w
         = Some (default [] (tricks_won st !! TrickCard.seat w)
                 ++ map TrickCard.card (current_trick st))
       ∧ (∀ s, s ≠ TrickCard.seat w → tricks_won st' !! s = tricks_won st !! s)
       ∧ current_trick st' = [].
Proof.
  intros H. pose proof (_resolve_trick_clears _ _ _ H) as Hclear.
  unfold _resolve_trick in H.
  apply bind_Some in H as (first & Hhead & H). cbv zeta in H.
  destruct (current_trick st) as [|first' others] eqn:Htrick; [done|].
  injection Hhead as ->. simpl tail in H.
  set (cs := Card.suit (TrickCard.card first)) in *.
  pose proof (trick_winner_elem st cs first others) as Hin.
  set (w := trick_winner st cs first others) in *.
  exists w. split; [exact Hin|].
  remember (set_trick_number _ (set_current_trick [] (set_tricks_won _ st)))
    as st1 eqn:E1 in H.
  apply bind_Some in H as ([result2 st2] & Hdraw & H). cbv beta iota in H.
  assert (Hst2 : tricks_won st2 = tricks_won st1).
  { destruct (_ && _) in Hdraw.
    - apply bind_Some in Hdraw as ([draws st3] & Hd & Hdraw).
      injection Hdraw as _ <-. unfold _draw_cards_2p in Hd.
      apply bind_Some in Hd as (nxt & _ & Hd).
      by apply _draw_loop_keeps_tricks in Hd as (-> & _).
    - by injection Hdraw as _ <-. }
  clear Hdraw.
  assert (Hfin : tricks_won st' = tricks_won st1).
  { rewrite <- Hst2. clear Hst2 E1.
    apply bind_Some in H as (he & _ & H). cbv beta in H.
    destruct he.
    { by injection H as _ <-. }
    destruct (_ && _) in H.
    { apply bind_Some in H as ([result3 st3] & Hrev & H). injection H as _ <-.
      destruct (negb _) in Hrev.
      - apply bind_Some in Hrev as ([rr st4] & Hr & Hrev). injection Hrev as _ <-.
        by apply reveal_trump_keeps_tricks in Hr as (-> & _).
      - by injection Hrev as _ <-. }
    destruct (forallb _ _) in H.
    { by injection H as _ <-. }
    by injection H as _ <-. }
  rewrite Hfin. subst st1. simpl.
  split; [by rewrite lookup_insert_eq|]. split; [|done].
  intros s Hs. by rewrite lookup_insert_ne.
Qed.

Lemma _score_game_piles st r st' :
  _score_game st = Some (r, st') → tricks_won st' = tricks_won st.
Proof.
  unfold _score_game. cbv zeta. intros H.
  destruct (check_spoilt_trump _) in H.
  { by injection H as _ <-. }
  apply bind_Some in H as (cb & _ & H).
  apply bind_Some in H as (bid_amount & _ & H).
  destruct (get_scoring_points bid_amount) as [win_points lose_points].
  injection H as _ <-. by destruct (bool_decide _).
Qed.

Lemma score_if_over_piles result st r st' :
  score_if_over result st = Some (r, st') → tricks_won st' = tricks_won st.
Proof.
  unfold score_if_over. intros H. destruct (truthy _) in H.
  - apply bind_Some in H as ([sc st1] & Hs & H). injection H as _ <-.
    by eapply _score_game_piles.
  - by injection H as _ <-.
Qed.


(** ** What playing a card does with it *)

Lemma list_remove_first_perm c l l' :
  list_remove_first c l = Some l' → l ≡ₚ c :: l'.
Proof.
  revert l'. induction l as [|y l IH]; intros l' H; simpl in H; [done|].
  case_bool_decide as Hy.
  - injection H as <-. by subst y.
  - apply fmap_Some in H as (k & Hk & ->).
    rewrite (IH k Hk). apply Permutation_swap.
Qed.

(** The hand of the seat after [hand.remove(card)]; nothing else changes. *)
Lemma hand_remove_hand seat card st p :
  get_player_by_seat st seat = Some p → card ∈ Player.hand p →
  ∃ h' st1,
    list_remove_first card (Player.hand p) = Some h'
    ∧ hand_remove seat card st = Some st1
    ∧ get_player_by_seat st1 seat = Some (Player.set_hand h' p)
    ∧ (∀ s, s ≠ seat → get_player_by_seat st1 s = get_player_by_seat st s)
    ∧ st1 = set_players (players st1) st.
Proof.
  intros Hp Hin. destruct (list_remove_first_total card _ Hin) as [h' Hh].
  destruct (update_hand_total seat (list_remove_first card) (players st) p h' Hp Hh)
    as [ps Hps].
  exists h', (set_players ps st). split; [done|].
  split. { unfold hand_remove. by rewrite Hps. }
  apply update_hand_lookup in Hps as (p' & h'' & Hp' & Hh' & Hnew & Hother).
  unfold get_player_by_seat in Hp. rewrite Hp in Hp'. injection Hp' as <-.
  rewrite Hh in Hh'. injection Hh' as <-.
  split; [exact Hnew|]. split; [exact Hother|done].
Qed.

Lemma next_seat_same_seats st st' seat :
  map Player.seat (players st') = map Player.seat (players st) →
  next_seat st' seat = next_seat st seat.
Proof. intros H. unfold next_seat. by rewrite H. Qed.

(** A card that does not complete the trick is appended to it and the turn
    passes to the next seat. *)
Lemma play_card_goes_on st seat card st1 r st' :
  hand_remove seat card st = Some st1 →
  length (current_trick st ++ [TrickCard.mk seat card]) ≠ length (players st) →
  play_card st seat card = Some (r, st') →
  ∃ nxt, next_seat st seat = Some nxt
         ∧ st' = set_turn_seat (Some nxt)
                   (set_current_trick (current_trick st ++ [TrickCard.mk seat card]) st1)
         ∧ truthy (dict_get_default "game_over" r) = false.
Proof.
  intros Hrm Hlen H. unfold play_card in H. rewrite Hrm in H.
  cbn [mbind option_bind] in H. cbv zeta in H.
  apply hand_remove_spec in Hrm as (ps & -> & Hl & Hun & _).
  rewrite bool_decide_eq_false_2 in H.
  2:{ cbn [current_trick set_current_trick players set_players]. by rewrite Hl. }
  apply bind_Some in H as (nxt & Hnxt & H). injection H as <- <-.
  exists nxt. split; [|done].
  rewrite <- Hnxt. symmetry. apply next_seat_same_seats.
  cbn [players set_current_trick set_players]. by apply unhanded_seats.
Qed.

(** The card that completes the trick goes, with the rest of the trick, to
    the pile of the seat of one of the trick's cards. *)
Lemma play_card_completes st seat card r st' :
  length (current_trick st ++ [TrickCard.mk seat card]) = length (players st) →
  play_card st seat card = Some (r, st') →
  current_trick st' = []
  ∧ ∃ w, w ∈ current_trick st ++ [TrickCard.mk seat card]
         ∧ tricks_won st' !! TrickCard.seat w
           = Some (default [] (tricks_won st !! TrickCard.seat w)
                   ++ map TrickCard.card (current_trick st ++ [TrickCard.mk seat card])).
Proof.
  intros Hlen H. unfold play_card in H.
  apply bind_Some in H as (st1 & Hrm & H). cbv zeta in H.
  apply hand_remove_spec in Hrm as (ps & -> & Hl & Hun & _).
  rewrite bool_decide_eq_true_2 in H.
  2:{ cbn [current_trick set_current_trick players set_players]. by rewrite Hl. }
  apply bind_Some in H as ([tr st3] & Hres & H). injection H as _ <-.
  apply _resolve_trick_pile in Hres as (w & Hw & Hpile & _ & Hclear).
  split; [done|]. by exists w.
Qed.


(** ** The hands after a card is played *)

Lemma hands_extended_same st st' : players st' = players st → hands_extended st st'.
Proof.
  intros Hp seat p H. exists []. unfold get_player_by_seat in *. rewrite Hp, H.
  rewrite app_nil_r. by destruct p.
Qed.

Lemma hands_extended_trans st1 st2 st3 :
  hands_extended st1 st2 → hands_extended st2 st3 → hands_extended st1 st3.
Proof.
  intros H12 H23 seat p Hp.
  destruct (H12 seat p Hp) as (e1 & Hp2).
  destruct (H23 seat _ Hp2) as (e2 & Hp3).
  exists (e1 ++ e2). rewrite Hp3. simpl. by rewrite app_assoc.
Qed.

Lemma hand_extend_extends seat cs st st' :
  hand_extend seat cs st = Some st' → hands_extended st st'.
Proof.
  unfold hand_extend. intros H. apply bind_Some in H as (ps & Hps & H).
  injection H as <-.
  apply update_hand_lookup in Hps as (p0 & h' & Hfind & Hg & Hnew & Hother).
  injection Hg as <-.
  intros s p Hp. unfold get_player_by_seat in *. simpl.
  destruct (decide (s = seat)) as [->|Hne].
  - exists cs. rewrite Hnew. congruence.
  - exists []. rewrite (Hother s Hne), Hp. rewrite app_nil_r. by destruct p.
Qed.

Lemma _draw_loop_extends seats st draws d st' :
  _draw_loop seats st draws = Some (d, st') → hands_extended st st'.
Proof.
  revert st draws. induction seats as [|seat seats IH]; intros st draws H; simpl in H.
  { injection H as _ <-. by apply hands_extended_same. }
  destruct (center_pile st) as [|card pile] eqn:Hcp.
  { injection H as _ <-. by apply hands_extended_same. }
  apply bind_Some in H as (st1 & Hex & H).
  apply hand_extend_extends in Hex. apply IH in H.
  exact (hands_extended_trans _ _ _ Hex H).
Qed.

Lemma reveal_trump_extends st seat r st' :
  reveal_trump st seat = Some (r, st') → hands_extended st st'.
Proof.
  unfold reveal_trump. intros H.
  destruct (trump_revealed st). { injection H as _ <-. by apply hands_extended_same. }
  destruct (trump_suit st). 2:{ injection H as _ <-. by apply hands_extended_same. }
  cbn -[hand_extend] in H. destruct (trump_card st) as [tc|].
  - apply bind_Some in H as (tseat & _ & H).
    apply bind_Some in H as (st1 & Hex & H). injection H as _ <-.
    by apply hand_extend_extends in Hex.
  - injection H as _ <-. by apply hands_extended_same.
Qed.

Lemma _resolve_trick_extends st r st' :
  _resolve_trick st = Some (r, st') → hands_extended st st'.
Proof.
  unfold _resolve_trick. intros H.
  apply bind_Some in H as (first & Hhead & H). cbv zeta in H.
  remember (set_trick_number _ (set_current_trick [] (set_tricks_won _ st)))
    as st1 eqn:E1 in H.
  assert (H1 : hands_extended st st1) by (apply hands_extended_same; by subst st1).
  clear E1. apply (hands_extended_trans _ _ _ H1). clear H1 Hhead.
  apply bind_Some in H as ([result2 st2] & Hdraw & H). cbv beta iota in H.
  assert (H2 : hands_extended st1 st2).
  { destruct (_ && _) in Hdraw.
    - apply bind_Some in Hdraw as ([draws st3] & Hd & Hdraw).
      injection Hdraw as _ <-. unfold _draw_cards_2p in Hd.
      apply bind_Some in Hd as (nxt & _ & Hd). by eapply _draw_loop_extends.
    - injection Hdraw as _ <-. by apply hands_extended_same. }
  clear Hdraw. apply (hands_extended_trans _ _ _ H2). clear H2.
  apply bind_Some in H as (he & _ & H). cbv beta in H.
  destruct he.
  { injection H as _ <-. by apply hands_extended_same. }
  destruct (_ && _) in H.
  { apply bind_Some in H as ([result3 st3] & Hrev & H). injection H as _ <-.
    destruct (negb _) in Hrev.
    - apply bind_Some in Hrev as ([rr st4] & Hr & Hrev). injection Hrev as _ <-.
      by eapply reveal_trump_extends.
    - injection Hrev as _ <-. by apply hands_extended_same. }
  destruct (forallb _ _) in H.
  { injection H as _ <-. by apply hands_extended_same. }
  injection H as _ <-. by apply hands_extended_same.
Qed.

Lemma _score_game_players st r st' :
  _score_game st = Some (r, st') → players st' = players st.
Proof.
  unfold _score_game. cbv zeta. intros H.
  destruct (check_spoilt_trump _) in H.
  { by injection H as _ <-. }
  apply bind_Some in H as (cb & _ & H).
  apply bind_Some in H as (bid_amount & _ & H).
  destruct (get_scoring_points bid_amount) as [win_points lose_points].
  injection H as _ <-. by destruct (bool_decide _).
Qed.

Lemma score_if_over_players result st r st' :
  score_if_over result st = Some (r, st') → players st' = players st.
Proof.
  unfold score_if_over. intros H. destruct (truthy _) in H.
  - apply bind_Some in H as ([sc st1] & Hs & H). injection H as _ <-.
    by eapply _score_game_players.
  - by injection H as _ <-.
Qed.

(** After [play_card] the seat holds what [hand.remove(card)] left, followed
    by whatever it picked up when the trick was resolved. *)
Lemma play_card_hand st seat card p h' r st' :
  get_player_by_seat st seat = Some p →
  list_remove_first card (Player.hand p) = Some h' →
  play_card st seat card = Some (r, st') →
  ∃ extra, get_player_by_seat st' seat = Some (Player.set_hand (h' ++ extra) p).
Proof.
  intros Hp Hh H. unfold play_card in H.
  apply bind_Some in H as (st1 & Hrm & H). cbv zeta in H.
  assert (Hp1 : get_player_by_seat st1 seat = Some (Player.set_hand h' p)).
  { unfold hand_remove in Hrm. apply bind_Some in Hrm as (ps & Hps & Hrm).
    injection Hrm as <-.
    apply update_hand_lookup in Hps as (p0 & h0 & Hfind & Hg & Hnew & _).
    unfold get_player_by_seat in *. simpl. rewrite Hnew. congruence. }
  clear Hrm.
  remember (set_current_trick _ st1) as st2 eqn:E2 in H.
  assert (Hp2 : get_player_by_seat st2 seat = Some (Player.set_hand h' p))
    by by subst st2.
  clear E2 Hp1.
  destruct (bool_decide _) in H.
  - apply bind_Some in H as ([tr st3] & Hres & H). injection H as _ <-.
    apply _resolve_trick_extends in Hres.
    destruct (Hres seat _ Hp2) as (extra & Hp3). exists extra. by rewrite Hp3.
  - apply bind_Some in H as (nxt & _ & H). injection H as _ <-.
    exists []. rewrite app_nil_r. exact Hp2.
Qed.


(** ** A concealed trump played off the led suit *)

(** In a reachable state a play that [validate_play] accepts goes through:
    [handle_play_card] returns a success. *)
Lemma handle_play_card_returns st seat card p :
  reachable st → phase st = PLAYING →
  get_player_by_seat st seat = Some p → card ∈ Player.hand p →
  ∃ r1 st1, play_card st seat card = Some (r1, st1)
            ∧ is_Some (score_if_over r1 st1).
Proof.
  intros Hreach Hph Hp Hin.
  pose proof (reachable_inv st Hreach) as Hg.
  pose proof (reachable_round st Hreach) as Hr.
  pose proof (reachable_trick_seated st Hreach) as Hts.
  assert (Hnw : phase st ≠ WAITING) by by rewrite Hph.
  pose proof (seats_filled_started st Hg Hr Hnw) as Hfilled.
  assert (Hphase : phase st ∈ [TRUMP_SELECTION; CARD_EXCHANGE; PLAYING; SCORING]).
  { rewrite Hph. phase_in. }
  destruct (rnd_trumper st Hr Hphase) as (cb & a & Hcb & (_ & Ha & _) & Htr).
  pose proof (trumper_seated st _ Hg Hr Hphase Htr) as Htin.
  destruct (play_card_total st seat card p _ Hfilled Hts Htr Htin Hp Hin)
    as [[r1 st1] Hpc].
  exists r1, st1. split; [done|].
  apply play_card_round in Hpc as [Hround _].
  apply round_of_eq in Hround as (_ & _ & _ & _ & _ & Hcb' & _).
  apply (score_if_over_total r1 st1 cb a); [congruence|done].
Qed.

(** C1 (amended): it is the seat's turn in PLAYING, the seat holds the card
    and no card of the led suit, the card is of the trump suit and the trump
    is concealed.  [validate_play] rejects the play only when it is flagged as
    a cut, with the message for the trumper or the one for another seat;
    unflagged it accepts.  [handle_play_card] raises the flag only once the
    trump is revealed, so it returns no error: whatever it returns is a
    success that names the card with [is_cut] false, in a state where the
    card has left the hand (the seat holds what [hand.remove(card)] left,
    followed by what it picked up if the trick was resolved) and has joined
    the trick: if the trick goes on, the state is the one after
    [hand.remove(card)] with the card appended to the trick and the turn
    passed on; if the card completes the trick, the trick is cleared and its
    cards, this one included, lie in the pile of the seat of one of them.
    In a state reached through the handlers it does return. *)
Theorem concealed_trump_play_accepted st seat card p cs :
  phase st = PLAYING →
  turn_seat st = Some seat →
  get_player_by_seat st seat = Some p →
  card ∈ Player.hand p →
  get_calling_suit st = Some cs →
  (∀ c, c ∈ Player.hand p → Card.suit c ≠ cs) →
  trump_suit st = Some (Card.suit card) →
  trump_revealed st = false →
  validate_play st seat card true
  = Some (false, if bool_decide (Some seat = trumper_seat st)
                 then "Trumper must reveal trump before cutting"
                 else "Trump must be revealed before cutting")
  ∧ validate_play st seat card false = Some (true, "")
  ∧ (∃ h' st1,
       list_remove_first card (Player.hand p) = Some h'
       ∧ Player.hand p ≡ₚ card :: h'
       ∧ hand_remove seat card st = Some st1
       ∧ get_player_by_seat st1 seat = Some (Player.set_hand h' p)
       ∧ ∀ ok result st',
           handle_play_card st seat (Card.id card) = Some ((ok, result), st') →
           ok = true
           ∧ dict_get "is_cut" result = Some (VBool false)
           ∧ dict_get "card_played" result = Some (VStr (Card.id card))
           ∧ (∃ extra, get_player_by_seat st' seat
                       = Some (Player.set_hand (h' ++ extra) p))
           ∧ if bool_decide (length (current_trick st ++ [TrickCard.mk seat card])
                             = length (players st))
             then current_trick st' = []
                  ∧ ∃ w, w ∈ current_trick st ++ [TrickCard.mk seat card]
                         ∧ tricks_won st' !! TrickCard.seat w
                           = Some (default [] (tricks_won st !! TrickCard.seat w)
                                   ++ map TrickCard.card
                                        (current_trick st ++ [TrickCard.mk seat card]))
             else ∃ nxt, next_seat st seat = Some nxt
                         ∧ st' = set_turn_seat (Some nxt)
                                   (set_current_trick
                                      (current_trick st ++ [TrickCard.mk seat card]) st1))
  ∧ (reachable st →
     ∃ result st',
       handle_play_card st seat (Card.id card) = Some ((true, result), st')).
Proof.
  intros Hph Hturn Hp Hin Hcs Hvoid Hts Hrev.
  assert (Hne : Card.suit card ≠ cs) by by apply Hvoid.
  assert (Hv : ∀ w, validate_play st seat card w
                    = if w then Some (false, if bool_decide (Some seat = trumper_seat st)
                                             then "Trumper must reveal trump before cutting"
                                             else "Trump must be revealed before cutting")
                      else Some (true, "")).
  { intros w. unfold validate_play.
    rewrite Hph, Hturn, Hp. simpl.
    rewrite (bool_decide_eq_false_2 (card ∉ Player.hand p)) by (by intros ?).
    rewrite (get_valid_cards_void st seat p cs) by done. simpl.
    rewrite (bool_decide_eq_false_2 (card ∉ Player.hand p)) by (by intros ?).
    rewrite Hcs, Hts, Hrev.
    rewrite (bool_decide_eq_true_2 (Card.suit card ≠ cs)) by done.
    rewrite (bool_decide_eq_true_2 (Some (Card.suit card) = Some (Card.suit card))) by done.
    rewrite (bool_decide_eq_false_2 (Some seat ≠ Some seat)) by (by intros ?).
    destruct w; simpl; [|done]. by case_bool_decide. }
  assert (Hplay : handle_play_card st seat (Card.id card)
                  = ('(result, st1) ← play_card st seat card;
                     '(result, st2) ← score_if_over result st1;
                     Some ((true, result), st2))).
  { unfold handle_play_card. rewrite Card_from_id_id, Hcs, Hrev.
    rewrite andb_false_r, Hv. done. }
  split; [by rewrite Hv|]. split; [by rewrite Hv|]. split.
  - destruct (hand_remove_hand seat card st p Hp Hin)
      as (h' & st1 & Hh & Hrm & Hnew & _ & _).
    exists h', st1. split; [done|].
    split; [by apply list_remove_first_perm|]. split; [done|]. split; [done|].
    intros ok result st' H. rewrite Hplay in H.
    apply bind_Some in H as ([r1 st2] & Hpc & H).
    apply bind_Some in H as ([r2 st3] & Hsc & H). injection H as <- <- <-.
    split; [done|].
    pose proof (play_card_concealed_is_cut _ _ _ _ _ Hrev Hpc) as [Hcut Hname].
    pose proof (score_if_over_keeps _ _ _ _ Hsc) as [Hcut' Hname'].
    split; [by rewrite Hcut'|]. split; [by rewrite Hname'|].
    split.
    { destruct (play_card_hand _ _ _ _ _ _ _ Hp Hh Hpc) as (extra & Hhand).
      exists extra. unfold get_player_by_seat in *.
      by rewrite (score_if_over_players _ _ _ _ Hsc). }
    clear Hv Hplay. case_bool_decide as Hfull.
    + destruct (play_card_completes _ _ _ _ _ Hfull Hpc) as (Hclear & w & Hw & Hpile).
      split.
      * by rewrite (score_if_over_trick _ _ _ _ Hsc).
      * exists w. split; [done|]. by rewrite (score_if_over_piles _ _ _ _ Hsc).
    + destruct (play_card_goes_on _ _ _ _ _ _ Hrm Hfull Hpc) as (nxt & Hnxt & -> & Hover).
      exists nxt. split; [done|].
      unfold score_if_over in Hsc. rewrite Hover in Hsc. by injection Hsc as _ <-.
  - intros Hreach.
    destruct (handle_play_card_returns st seat card p Hreach Hph Hp Hin)
      as (r1 & st1 & Hpc & [[r2 st2] Hsc]).
    exists r2, st2. rewrite Hplay, Hpc. cbn [mbind option_bind].
    by rewrite Hsc.
Qed.

Lemma concealed_trump_play_accepted_witness :
  validate_play sample_led 2 (Card.mk HEARTS SEVEN) true
  = Some (false, "Trump must be revealed before cutting")
  ∧ validate_play sample_led 2 (Card.mk HEARTS SEVEN) false = Some (true, "")
  ∧ ∃ result st',
      handle_play_card sample_led 2 "7_hearts" = Some ((true, result), st')
      ∧ dict_get "is_cut" result = Some (VBool false)
      ∧ current_trick st' = [TrickCard.mk 1 (Card.mk DIAMONDS SEVEN);
                             TrickCard.mk 2 (Card.mk HEARTS SEVEN)]
      ∧ turn_seat st' = Some 3
      ∧ (Player.hand <$> get_player_by_seat st' 2)
        = Some [Card.mk HEARTS EIGHT; Card.mk HEARTS QUEEN; Card.mk HEARTS KING;
                Card.mk CLUBS TEN; Card.mk CLUBS ACE; Card.mk CLUBS NINE;
                Card.mk CLUBS JACK].
Proof.
  assert (Hin : Card.mk HEARTS SEVEN
                ∈ [Card.mk HEARTS SEVEN; Card.mk HEARTS EIGHT; Card.mk HEARTS QUEEN;
                   Card.mk HEARTS KING; Card.mk CLUBS TEN; Card.mk CLUBS ACE;
                   Card.mk CLUBS NINE; Card.mk CLUBS JACK]).
  { apply elem_of_cons. by left. }
  assert (Hvoid : ∀ c, c ∈ [Card.mk HEARTS SEVEN; Card.mk HEARTS EIGHT;
                            Card.mk HEARTS QUEEN; Card.mk HEARTS KING;
                            Card.mk CLUBS TEN; Card.mk CLUBS ACE;
                            Card.mk CLUBS NINE; Card.mk CLUBS JACK] →
                       Card.suit c ≠ DIAMONDS).
  { intros c Hc.
    repeat (apply elem_of_cons in Hc as [->|Hc]; [done|]).
    by apply elem_of_nil in Hc. }
  destruct (concealed_trump_play_accepted sample_led 2 (Card.mk HEARTS SEVEN)
              (Player.mk "p2" "Chitra" 2 None
                 [Card.mk HEARTS SEVEN; Card.mk HEARTS EIGHT; Card.mk HEARTS QUEEN;
                  Card.mk HEARTS KING; Card.mk CLUBS TEN; Card.mk CLUBS ACE;
                  Card.mk CLUBS NINE; Card.mk CLUBS JACK])
              DIAMONDS eq_refl eq_refl eq_refl Hin eq_refl Hvoid eq_refl eq_refl)
    as (Hcut & Hplain & (h' & st1 & Hh & _ & Hrm & _ & Hall) & Hret).
  split; [exact Hcut|]. split; [exact Hplain|].
  destruct (Hret sample_led_reachable) as (result & st' & H).
  exists result, st'. split; [exact H|].
  destruct (Hall _ _ _ H) as (_ & Hflag & _ & _ & nxt & Hnxt & Hst').
  split; [exact Hflag|].
  vm_compute in Hrm. injection Hrm as <-.
  vm_compute in Hnxt. injection Hnxt as <-.
  rewrite Hst'. repeat split.
Defined.
